(** * AmapAddressParser: a shallow embedding and its specification

    The development embeds [src/amap_address_parser.py] (class
    [AmapAddressParser]), [src/address_completer.py] and the address input
    of [src/address_gui.py], settles the properties the specification
    states about them, and proves further properties read off the code.

    Layout:
    - [PyStr]   Python [str] values (sequences of code points) and the
                [str] methods the parser calls;
    - [Re]      the fragment of Python's [re] the parser's patterns use
                (backtracking, greedy, leftmost);
    - JSON values, exceptions, the parser object and its environment;
    - the methods of [AmapAddressParser], under their names in the source
      (a long method is cut into the loops and branches it is made of);
    - the definitions the properties are stated with, and the examples;
    - the properties the specification states, grouped by component;
    - further properties of the methods, in the same order. *)

From Stdlib Require Import Ascii String.
From Stdlib Require Import List NArith ZArith Bool Lia Arith.
Import ListNotations.
Open Scope string_scope.
Open Scope nat_scope.
Open Scope list_scope.

Set Warnings "-register-all".

(** ** Python strings *)

Module PyStr.

(** A Python [str] is a sequence of Unicode code points. *)
Definition char := N.
Definition pystr := list char.

Fixpoint bytes_of (s : string) : list N :=
  match s with
  | EmptyString => []
  | String a s' => N_of_ascii a :: bytes_of s'
  end.

(** UTF-8 decoding of the literals of this file ([need] continuation
    bytes are still expected, [acc] holds the bits read so far). *)
Fixpoint utf8 (bs : list N) (need : nat) (acc : N) : pystr :=
  match bs with
  | [] => []
  | b :: bs' =>
      match need with
      | O =>
          if (b <? 128)%N then b :: utf8 bs' 0 0%N
          else if (b <? 224)%N then utf8 bs' 1 (b - 192)%N
          else if (b <? 240)%N then utf8 bs' 2 (b - 224)%N
          else utf8 bs' 3 (b - 240)%N
      | S O => (acc * 64 + (b - 128))%N :: utf8 bs' 0 0%N
      | S n => utf8 bs' n (acc * 64 + (b - 128))%N
      end
  end.

(** [py "..."] is the Python string written between the quotes. *)
Definition py (s : string) : pystr := utf8 (bytes_of s) 0 0%N.

Fixpoint eqb (a b : pystr) : bool :=
  match a, b with
  | [], [] => true
  | x :: a', y :: b' => N.eqb x y && eqb a' b'
  | _, _ => false
  end.

(** [s.startswith(p)] *)
Fixpoint startswith (s p : pystr) : bool :=
  match p, s with
  | [], _ => true
  | x :: p', y :: s' => N.eqb x y && startswith s' p'
  | _ :: _, [] => false
  end.

(** [sub in s] *)
Fixpoint contains (s sub : pystr) : bool :=
  startswith s sub ||
  match s with
  | [] => false
  | _ :: s' => contains s' sub
  end.

(** [s.replace(old, new)] for a non-empty [old]: occurrences are replaced
    from the left and do not overlap ([skip] characters of the occurrence
    just replaced are still to be dropped). *)
Fixpoint replace_from (old new s : pystr) (skip : nat) : pystr :=
  match s with
  | [] => []
  | c :: s' =>
      match skip with
      | S k => replace_from old new s' k
      | O =>
          if startswith s old
          then new ++ replace_from old new s' (length old - 1)
          else c :: replace_from old new s' 0
      end
  end.

(** [s.replace(old, new)]; an empty [old] matches before every character
    and at the end. *)
Definition replace (s old new : pystr) : pystr :=
  match old with
  | [] => new ++ flat_map (fun c => c :: new) s
  | _ :: _ => replace_from old new s 0
  end.

(** Characters for which [str.isspace()] holds; the same set is [\s] in a
    [str] pattern (CPython 3.11, Unicode 14). *)
Definition isspace (c : char) : bool :=
  ((9 <=? c) && (c <=? 13) || (28 <=? c) && (c <=? 32) ||
   (c =? 133) || (c =? 160) || (c =? 5760) ||
   (8192 <=? c) && (c <=? 8202) || (c =? 8232) || (c =? 8233) ||
   (c =? 8239) || (c =? 8287) || (c =? 12288))%N.

(** First code point of every block of ten decimal digits (category Nd);
    U+1D7CE..U+1D7FF holds five such blocks. *)
Definition digit_zeros : list N :=
  [48; 1632; 1776; 1984; 2406; 2534; 2662; 2790; 2918; 3046; 3174; 3302;
   3430; 3558; 3664; 3792; 3872; 4160; 4240; 6112; 6160; 6470; 6608; 6784;
   6800; 6992; 7088; 7232; 7248; 42528; 43216; 43264; 43472; 43504; 43600;
   44016; 65296; 66720; 68912; 69734; 69872; 69942; 70096; 70384; 70736;
   70864; 71248; 71360; 71472; 71904; 72016; 72784; 73040; 73120; 92768;
   92864; 93008; 120782; 120792; 120802; 120812; 120822; 123200; 123632;
   125264; 130032]%N.

(** [\d] in a [str] pattern: any decimal digit. *)
Definition isdigit (c : char) : bool :=
  existsb (fun z => (z <=? c) && (c <? z + 10))%N digit_zeros.

(** [s.split()]: the maximal runs of non-space characters ([cur] is the
    run being read, reversed). *)
Fixpoint split_from (s : pystr) (cur : pystr) : list pystr :=
  match s with
  | [] => match cur with [] => [] | _ :: _ => [rev cur] end
  | c :: s' =>
      if isspace c
      then match cur with
           | [] => split_from s' []
           | _ :: _ => rev cur :: split_from s' []
           end
      else split_from s' (c :: cur)
  end.

Definition split (s : pystr) : list pystr := split_from s [].

(** [s.split(sep)] for a one-character separator. *)
Fixpoint split_on_from (sep : char) (s : pystr) (cur : pystr) : list pystr :=
  match s with
  | [] => [rev cur]
  | c :: s' =>
      if N.eqb c sep then rev cur :: split_on_from sep s' []
      else split_on_from sep s' (c :: cur)
  end.

Definition split_on (sep : char) (s : pystr) : list pystr :=
  split_on_from sep s [].

Fixpoint lstrip (s : pystr) : pystr :=
  match s with
  | [] => []
  | c :: s' => if isspace c then lstrip s' else s
  end.

(** [s.strip()] *)
Definition strip (s : pystr) : pystr := rev (lstrip (rev (lstrip s))).

(** [sep.join(parts)] *)
Fixpoint join (sep : pystr) (parts : list pystr) : pystr :=
  match parts with
  | [] => []
  | [p] => p
  | p :: ps => p ++ sep ++ join sep ps
  end.

(** [x in l] for a list of strings. *)
Definition mem (x : pystr) (l : list pystr) : bool := existsb (eqb x) l.

End PyStr.

Import PyStr.

(** ** Regular expressions *)

Module Re.

(** The constructs that occur in the parser's patterns, with the meaning
    they have in CPython 3.11. *)
Inductive regex : Type :=
| Eps
| Cls (p : char -> bool)        (* one character of a class *)
| Str (s : pystr)               (* a literal *)
| Seq (a b : regex)
| Alt (a b : regex)             (* a|b, [a] tried first *)
| Star (a : regex)              (* a*, greedy *)
| Group (i : nat) (a : regex)   (* capturing group number [i] *)
| Backref (i : nat)             (* \i *)
| Ahead (a : regex)             (* (?=a) *)
| NotAhead (a : regex)          (* (?!a) *)
| Behind (p : char -> bool)     (* (?<=c) for a one-character class *)
| NotBehind (p : char -> bool)  (* (?<!c) for a one-character class *)
| Eol.                          (* $ *)

Fixpoint rep_exact (n : nat) (a : regex) : regex :=
  match n with
  | O => Eps
  | S n' => Seq a (rep_exact n' a)
  end.

Fixpoint rep_upto (n : nat) (a : regex) : regex :=
  match n with
  | O => Eps
  | S n' => Alt (Seq a (rep_upto n' a)) Eps
  end.

(** a{lo,hi}, a{lo,}, a+, a? : greedy, as the matcher tries them. *)
Definition Rep (lo hi : nat) (a : regex) : regex :=
  Seq (rep_exact lo a) (rep_upto (hi - lo) a).
Definition RepMin (lo : nat) (a : regex) : regex :=
  Seq (rep_exact lo a) (Star a).
Definition Plus (a : regex) : regex := RepMin 1 a.
Definition Opt (a : regex) : regex := Alt a Eps.

(** Character classes. *)
Definition one (c : string) : char -> bool :=
  fun x => match py c with [y] => N.eqb x y | _ => false end.
Definition oneof (cs : string) : char -> bool :=
  fun x => existsb (N.eqb x) (py cs).
Definition range (lo hi : N) : char -> bool :=
  fun x => ((lo <=? x) && (x <=? hi))%N.

(** The matcher's position: the text already passed (reversed), the text
    still ahead and the groups captured so far. *)
Record mstate : Type := MState {
  passed : pystr;
  ahead : pystr;
  groups : list (nat * pystr)
}.

Fixpoint group_of (i : nat) (gs : list (nat * pystr)) : option pystr :=
  match gs with
  | [] => None
  | (j, s) :: gs' => if Nat.eqb i j then Some s else group_of i gs'
  end.

Definition advance (n : nat) (st : mstate) : mstate :=
  MState (rev (firstn n (ahead st)) ++ passed st) (skipn n (ahead st))
         (groups st).

(** [exec r k st]: match [r] at [st], then continue with [k]; alternatives
    are tried in order and the first success of the whole is returned. *)
Fixpoint exec (r : regex) (k : mstate -> option mstate) (st : mstate)
  {struct r} : option mstate :=
  match r with
  | Eps => k st
  | Cls p =>
      match ahead st with
      | c :: _ => if p c then k (advance 1 st) else None
      | [] => None
      end
  | Str s =>
      if startswith (ahead st) s then k (advance (length s) st) else None
  | Seq a b => exec a (exec b k) st
  | Alt a b =>
      match exec a k st with
      | Some r' => Some r'
      | None => exec b k st
      end
  | Star a =>
      (fix loop (n : nat) (st : mstate) {struct n} : option mstate :=
         match n with
         | O => k st
         | S n' =>
             match exec a (fun st' =>
                     if length (ahead st') <? length (ahead st)
                     then loop n' st' else None) st with
             | Some r' => Some r'
             | None => k st
             end
         end) (S (length (ahead st))) st
  | Group i a =>
      exec a (fun st' =>
        k (MState (passed st') (ahead st')
             ((i, firstn (length (ahead st) - length (ahead st')) (ahead st))
                :: groups st'))) st
  | Backref i =>
      match group_of i (groups st) with
      | Some s =>
          if startswith (ahead st) s then k (advance (length s) st) else None
      | None => None
      end
  | Ahead a =>
      match exec a Some st with
      | Some _ => k st
      | None => None
      end
  | NotAhead a =>
      match exec a Some st with
      | Some _ => None
      | None => k st
      end
  | Behind p =>
      match passed st with
      | c :: _ => if p c then k st else None
      | [] => None
      end
  | NotBehind p =>
      match passed st with
      | c :: _ => if p c then None else k st
      | [] => k st
      end
  | Eol =>
      match ahead st with
      | [] => k st
      | [c] => if N.eqb c 10 then k st else None
      | _ => None
      end
  end.

(** A match object: [start()], [end()], [group()] and the groups. *)
Record mtch : Type := Match {
  m_start : nat;
  m_end : nat;
  m_group : pystr;
  m_groups : list (nat * pystr)
}.

(** Scan for the leftmost match starting at or after the current position
    [pos]; [before] is the text to the left of it, reversed. *)
Fixpoint search_at (r : regex) (before s : pystr) (pos : nat) {struct s}
  : option mtch :=
  match exec r Some (MState before s []) with
  | Some st' =>
      let n := length s - length (ahead st') in
      Some (Match pos (pos + n) (firstn n s) (groups st'))
  | None =>
      match s with
      | [] => None
      | c :: s' => search_at r (c :: before) s' (S pos)
      end
  end.

(** [re.search(r, s)] *)
Definition search (r : regex) (s : pystr) : option mtch :=
  search_at r [] s 0.

(** [re.finditer(r, s)]: the successive non-overlapping matches. After a
    match the scan resumes at its end (one character further when the
    match was empty; the parser's patterns never match the empty string). *)
Fixpoint finditer_at (fuel : nat) (r : regex) (before s : pystr) (pos : nat)
  : list mtch :=
  match fuel with
  | O => []
  | S fuel' =>
      match search_at r before s pos with
      | None => []
      | Some mt =>
          let n := m_end mt - pos in
          let before' := rev (firstn n s) ++ before in
          mt ::
          (if Nat.eqb (m_end mt) (m_start mt)
           then match skipn n s with
                | [] => []
                | c :: s' =>
                    finditer_at fuel' r (c :: before') s' (S (m_end mt))
                end
           else finditer_at fuel' r before' (skipn n s) (m_end mt))
      end
  end.

Definition finditer (r : regex) (s : pystr) : list mtch :=
  finditer_at (S (length s)) r [] s 0.

(** The text of [s] (which starts at offset [pos]) with every match of
    [ms] replaced by [repl]. *)
Fixpoint splice (ms : list mtch) (repl : mtch -> pystr) (s : pystr)
  (pos : nat) : pystr :=
  match ms with
  | [] => s
  | mt :: ms' =>
      firstn (m_start mt - pos) s ++ repl mt ++
      splice ms' repl (skipn (m_end mt - pos) s) (m_end mt)
  end.

(** [re.sub(r, repl, s)] *)
Definition sub (r : regex) (repl : mtch -> pystr) (s : pystr) : pystr :=
  splice (finditer r s) repl s 0.

(** Replacement templates: a constant, and [r'\1']. *)
Definition const (t : pystr) : mtch -> pystr := fun _ => t.
Definition group1 : mtch -> pystr :=
  fun mt => match group_of 1 (m_groups mt) with Some s => s | None => [] end.

End Re.

Import Re.

(** Classes shared by the patterns. *)
Definition cjk : char -> bool := range 19968 40869.   (* [一-龥] *)
Definition ascii_letter (c : char) : bool :=
  range 65 90 c || range 97 122 c.                    (* [A-Za-z] *)

(** ** Values, exceptions and the parser's environment *)

(** A value decoded by [json.loads], and more generally the Python values
    the parser handles: [None], [bool], numbers, [str], [list] and [dict]
    with [str] keys. The parser never computes with a number: it tests its
    truth value and formats it, so a number is kept as an integer (any
    non-zero fractional number behaves as a non-zero integer does). *)
Inductive json : Type :=
| JNull
| JBool (b : bool)
| JNum (z : Z)
| JStr (s : pystr)
| JArr (l : list json)
| JObj (kv : list (pystr * json)).

Definition dict := list (pystr * json).

(** Exceptions. [TransportError] stands for whatever [http.client] or the
    decoding of the body raises. *)
Inductive exn : Type :=
| AmapError (code message : json)
| JSONDecodeError
| TypeError
| AttributeError
| KeyError
| IndexError
| UnicodeEncodeError
| TransportError.

Inductive outcome (A : Type) : Type :=
| Ok (a : A)
| Raise (e : exn).
Arguments Ok {A} a.
Arguments Raise {A} e.

(** What the provider does with one request: the connection or the
    decoding to text fails, the body is not JSON, or it decodes to [j]. *)
Inductive answer : Type :=
| Refused
| Garbage
| Decoded (j : json).

(** One HTTP exchange: the time it takes (milliseconds), the local date
    once it is over when midnight passed meanwhile, and the answer. *)
Record exchange : Type := Exchange {
  took : Z;
  midnight : option pystr;
  reply : answer
}.

(** The environment: the clock ([time.time()], in milliseconds), the local
    date ([datetime.now().strftime('%Y-%m-%d')]), the exchanges the
    provider will answer with, in order, and the texts the Python runtime
    gives for [str(v)] of a value that is not a string and for [str(e)] of
    a built-in exception. *)
Record world : Type := World {
  clock : Z;
  today : pystr;
  inbox : list exchange;
  repr : json -> pystr;
  what : exn -> pystr
}.

(** The fields of an [AmapAddressParser] the modelled methods use.
    [_quota_date] and [_district_cache] are created on first use
    ([hasattr]); [None] is the absent attribute. The only assignment into
    [_district_cache] stores a dict literal, hence the type of its
    values. *)
Record parser : Type := Parser {
  key : pystr;
  last_request_time : Z;
  request_count : nat;
  _quota_counter : list (pystr * nat);
  _quota_date : option pystr;
  _district_cache : option (list (pystr * dict))
}.

(** [AmapAddressParser.__init__] *)
Definition __init__ : parser :=
  Parser [] 0 0 [] None None.

Record state : Type := State {
  self : parser;
  env : world
}.

(** Computations: they read and change the state and return or raise; the
    state reached when an exception is raised is kept, as in Python. *)
Definition M (A : Type) : Type := state -> outcome A * state.

Definition ret {A} (a : A) : M A := fun st => (Ok a, st).
Definition raise {A} (e : exn) : M A := fun st => (Raise e, st).
Definition bind {A B} (c : M A) (k : A -> M B) : M B :=
  fun st =>
    match c st with
    | (Ok a, st') => k a st'
    | (Raise e, st') => (Raise e, st')
    end.
(** [try: c except Exception as e: h e]

    Most handlers of the source print a line,
    [print(f"...{str(e)}")], before they give their default. The standard
    output is no part of the state, and the handlers of the model leave
    the line out. A line that cannot be written makes [print] raise inside
    the handler: [str(e)] can hold a text of the provider, [json.loads]
    keeps a lone surrogate, and such a text cannot be encoded. The source
    then raises out of the handler where the model gives the handler's
    default (an enclosing handler, where there is one, then gives its
    own). So the model follows the source on the runs in which every line
    can be written, and the properties of a method with such a handler
    are stated of what the method returns, or of the runs that do not
    reach the handler. That a method returns at all is stated only where
    the line is made of the interpreter's own texts ([_geo_code],
    [_regeo_code], [_get_district_info], a refusal for quota) or where the
    method's own handler catches what an inner one raises
    ([parse_address], [_parse_address_by_text]). *)
Definition try_except {A} (c : M A) (h : exn -> M A) : M A :=
  fun st =>
    match c st with
    | (Ok a, st') => (Ok a, st')
    | (Raise e, st') => h e st'
    end.
Definition lift {A} (o : outcome A) : M A := fun st => (o, st).
Definition get_self : M parser := fun st => (Ok (self st), st).
Definition set_self (p : parser) : M unit :=
  fun st => (Ok tt, State p (env st)).
Definition get_env : M world := fun st => (Ok (env st), st).

Declare Scope py_scope.
Delimit Scope py_scope with py.
Notation "x <- c ;; k" := (bind c (fun x => k))
  (at level 61, c at next level, right associativity) : py_scope.
Notation "c ;; k" := (bind c (fun _ => k))
  (at level 61, right associativity) : py_scope.
Open Scope py_scope.

(** *** Operations on values *)

(** [bool(v)] *)
Definition truthy (v : json) : bool :=
  match v with
  | JNull => false
  | JBool b => b
  | JNum z => negb (Z.eqb z 0)
  | JStr s => match s with [] => false | _ => true end
  | JArr l => match l with [] => false | _ => true end
  | JObj kv => match kv with [] => false | _ => true end
  end.

(** [v == s] for a string [s] *)
Definition is_str (v : json) (s : pystr) : bool :=
  match v with
  | JStr t => eqb t s
  | _ => false
  end.

Fixpoint lookup {V} (k : pystr) (d : list (pystr * V)) : option V :=
  match d with
  | [] => None
  | (k', v) :: d' => if eqb k k' then Some v else lookup k d'
  end.

(** [d[k] = v] on a dict: the entry is replaced where it is, or added. *)
Fixpoint store {V} (k : pystr) (v : V) (d : list (pystr * V))
  : list (pystr * V) :=
  match d with
  | [] => [(k, v)]
  | (k', v') :: d' =>
      if eqb k k' then (k, v) :: d' else (k', v') :: store k v d'
  end.

(** [d.update(e)] *)
Definition update {V} (d e : list (pystr * V)) : list (pystr * V) :=
  fold_left (fun acc kv => store (fst kv) (snd kv) acc) e d.

(** [d.get(k, default)] on a dict *)
Definition dget (d : dict) (k : string) (default : json) : json :=
  match lookup (py k) d with
  | Some v => v
  | None => default
  end.

(** [v.get(k, default)]: only a dict has [get]. *)
Definition get (v : json) (k : string) (default : json) : outcome json :=
  match v with
  | JObj d => Ok (dget d k default)
  | _ => Raise AttributeError
  end.

(** [v[k]] for a string key *)
Definition item (v : json) (k : string) : outcome json :=
  match v with
  | JObj d => match lookup (py k) d with
              | Some x => Ok x
              | None => Raise KeyError
              end
  | _ => Raise TypeError
  end.

(** [v[0]] *)
Definition first (v : json) : outcome json :=
  match v with
  | JArr (x :: _) => Ok x
  | JArr [] => Raise IndexError
  | JStr (c :: _) => Ok (JStr [c])
  | JStr [] => Raise IndexError
  | JObj _ => Raise KeyError
  | _ => Raise TypeError
  end.

(** [for x in v]: the elements of a list, the characters of a string, the
    keys of a dict. *)
Definition iter (v : json) : outcome (list json) :=
  match v with
  | JArr l => Ok l
  | JStr s => Ok (map (fun c => JStr [c]) s)
  | JObj d => Ok (map (fun kv => JStr (fst kv)) d)
  | _ => Raise TypeError
  end.

(** [v in s] for a string [s]: the left operand must be a string. *)
Definition in_str (v : json) (s : pystr) : outcome bool :=
  match v with
  | JStr t => Ok (contains s t)
  | _ => Raise TypeError
  end.

(** [s in v] for a string [s]: substring of a string, element of a list,
    key of a dict. *)
Definition str_in (s : pystr) (v : json) : outcome bool :=
  match v with
  | JStr t => Ok (contains t s)
  | JArr l => Ok (existsb (fun x => is_str x s) l)
  | JObj d => Ok (match lookup s d with Some _ => true | None => false end)
  | _ => Raise TypeError
  end.

(** [s.replace(v, '')]: the argument must be a string. *)
Definition remove (s : pystr) (v : json) : outcome pystr :=
  match v with
  | JStr t => Ok (replace s t [])
  | _ => Raise TypeError
  end.

(** A table with string keys, [table.get(v, default)]: a list or a dict is
    not hashable. *)
Definition table_get (table : list (string * string)) (v : json)
  (default : json) : outcome json :=
  match v with
  | JStr s =>
      Ok (match find (fun kv => eqb (py (fst kv)) s) table with
          | Some kv => JStr (py (snd kv))
          | None => default
          end)
  | JArr _ | JObj _ => Raise TypeError
  | _ => Ok default
  end.

(** [str(v)] *)
Definition str (w : world) (v : json) : pystr :=
  match v with
  | JStr s => s
  | _ => repr w v
  end.

(** [str(e)]; [AmapError.__init__] sets the text of its instances. *)
Definition str_exn (w : world) (e : exn) : pystr :=
  match e with
  | AmapError code message =>
      py "错误码 " ++ str w code ++ py ": " ++ str w message
  | _ => what w e
  end.

Definition jstr (s : string) : json := JStr (py s).

(** A dict literal with the keys written as in the source. *)
Definition fields (l : list (string * json)) : dict :=
  map (fun kv => (py (fst kv), snd kv)) l.
Definition obj (l : list (string * json)) : json := JObj (fields l).

Fixpoint mapM {A B} (f : A -> M B) (l : list A) : M (list B) :=
  match l with
  | [] => ret []
  | x :: l' => y <- f x ;; ys <- mapM f l' ;; ret (y :: ys)
  end.

(** ** The gateway *)

Definition ERROR_MESSAGES : list (string * string) :=
  [("10001", "API密钥不正确或已过期");
   ("10002", "没有权限使用该服务");
   ("10003", "访问量超出日限额");
   ("10004", "访问过于频繁");
   ("10005", "IP白名单错误");
   ("10009", "请求key与绑定平台不符");
   ("10010", "IP访问超限");
   ("20000", "请求参数非法");
   ("20001", "缺少必填参数");
   ("20011", "查询点在海外，但无海外地图权限");
   ("20012", "查询信息存在非法内容");
   ("30000", "服务响应失败，请检查参数")]%string.

(** [_check_response]: raises unless the response is a non-empty dict whose
    status is ['1']. *)
Definition _check_response (result : json) : M unit :=
  if negb (truthy result)
  then raise (AmapError (jstr "30000") (jstr "服务响应为空"))
  else
    status <- lift (get result "status" JNull) ;;
    info <- lift (get result "info" JNull) ;;
    infocode <- lift (get result "infocode" JNull) ;;
    if negb (is_str status (py "1"))
    then error_msg <- lift (table_get ERROR_MESSAGES infocode info) ;;
         raise (AmapError infocode error_msg)
    else ret tt.

(** [time.sleep(d)] *)
Definition sleep (d : Z) : M unit :=
  fun st =>
    let w := env st in
    (Ok tt, State (self st)
              (World (clock w + d) (today w) (inbox w) (repr w) (what w))).

(** [_rate_limit]: 0.1 s between two requests. The source reads
    [time.time()], a float of seconds; the model counts whole
    milliseconds and sleeps exactly. The source's differences of two
    readings are rounded, so the distance the model keeps is the source's
    up to that rounding. *)
Definition _rate_limit : M unit :=
  w <- get_env ;;
  p <- get_self ;;
  let current_time := clock w in
  let time_diff := (current_time - last_request_time p)%Z in
  (if (time_diff <? 100)%Z then sleep (100 - time_diff) else ret tt) ;;
  w <- get_env ;;
  p <- get_self ;;
  set_self (Parser (key p) (clock w) (request_count p + 1)
              (_quota_counter p) (_quota_date p) (_district_cache p)).

Definition count_of (path : pystr) (counter : list (pystr * nat)) : nat :=
  match lookup path counter with
  | Some n => n
  | None => 0
  end.

Definition quota_of (path : pystr) : nat :=
  if startswith path (py "/v3/place") then 100 else 5000.

(** [_check_quota]: the counters are emptied when the date is not the
    stored one; the path's counter is increased, then compared. *)
Definition _check_quota (path : pystr) : M bool :=
  w <- get_env ;;
  p <- get_self ;;
  let today := today w in
  let fresh :=
    match _quota_date p with
    | Some d => negb (eqb d today)
    | None => true
    end in
  let counter := if fresh then [] else _quota_counter p in
  let date := if fresh then Some today else _quota_date p in
  let quota := quota_of path in
  let counter := store path (count_of path counter + 1) counter in
  set_self (Parser (key p) (last_request_time p) (request_count p)
              counter date (_district_cache p)) ;;
  ret (count_of path counter <=? quota).

Definition surrogate (c : char) : bool := range 55296 57343 c.

(** [urllib.parse.urlencode(params)]: a string value that holds a
    surrogate cannot be encoded. The provider's answers are taken from
    [inbox] in order, whatever is asked, so the query string itself is not
    built. *)
Definition urlencode (params : dict) : M unit :=
  if existsb (fun kv => match snd kv with
                        | JStr s => existsb surrogate s
                        | _ => false
                        end) params
  then raise UnicodeEncodeError
  else ret tt.

(** The HTTPS exchange and the decoding of its body:
    [conn.request], [conn.getresponse], [read], [decode], [json.loads]. *)
Definition fetch : M json :=
  fun st =>
    let w := env st in
    match inbox w with
    | [] => (Raise TransportError, st)
    | x :: rest =>
        let date := match midnight x with Some d => d | None => today w end in
        (match reply x with
         | Refused => Raise TransportError
         | Garbage => Raise JSONDecodeError
         | Decoded j => Ok j
         end,
         State (self st)
           (World (clock w + took x) date rest (repr w) (what w)))
    end.

(** [_make_request] *)
Definition _make_request (path : pystr) (params : dict) : M json :=
  try_except
    (ok <- _check_quota path ;;
     (if negb ok
      then raise (AmapError (jstr "10003") (jstr "超出日配额限制"))
      else ret tt) ;;
     _rate_limit ;;
     urlencode params ;;
     result <- fetch ;;
     _check_response result ;;
     ret result)
    (fun e =>
       match e with
       | JSONDecodeError =>
           raise (AmapError (jstr "30000") (jstr "响应数据格式错误"))
       | _ =>
           w <- get_env ;;
           raise (AmapError (jstr "30000")
                    (JStr (py "请求失败: " ++ str_exn w e)))
       end).

(** [_geo_code]: its own connection, no quota, no rate limit; any failure
    gives the empty dict. *)
Definition _geo_code (address : pystr) : M json :=
  try_except
    (p <- get_self ;;
     urlencode [(py "address", JStr address); (py "key", JStr (key p));
                (py "output", jstr "json")] ;;
     fetch)
    (fun _ => ret (JObj [])).

(** [_regeo_code]: as [_geo_code], for a location. *)
Definition _regeo_code (location : json) : M json :=
  try_except
    (p <- get_self ;;
     urlencode [(py "location", location); (py "key", JStr (key p));
                (py "extensions", jstr "all"); (py "output", jstr "json")] ;;
     fetch)
    (fun _ => ret (JObj [])).

(** [_convert_coordinates]: the coordinates themselves when the conversion
    fails. The handler's [print] is left out, see [try_except]. *)
Definition _convert_coordinates (locations coordsys : pystr) : M json :=
  try_except
    (p <- get_self ;;
     result <- _make_request (py "/v3/assistant/coordinate/convert")
                 [(py "locations", JStr locations);
                  (py "coordsys", JStr coordsys);
                  (py "key", JStr (key p)); (py "output", jstr "json")] ;;
     status <- lift (get result "status" JNull) ;;
     if is_str status (py "1")
     then lift (get result "locations" (jstr ""))
     else ret (JStr locations))
    (fun _ => ret (JStr locations)).

(** [_get_district_by_name]: the cached dict, or the first district of the
    provider's answer (then cached), or the empty dict. The handler's
    [print] is left out, see [try_except]. *)
Definition _get_district_by_name (name : pystr) : M json :=
  try_except
    (p <- get_self ;;
     let cache := match _district_cache p with Some c => c | None => [] end in
     set_self (Parser (key p) (last_request_time p) (request_count p)
                 (_quota_counter p) (_quota_date p) (Some cache)) ;;
     match lookup name cache with
     | Some info => ret (JObj info)
     | None =>
         result <- _make_request (py "/v3/config/district")
                     [(py "keywords", JStr name); (py "subdistrict", jstr "0");
                      (py "key", JStr (key p))] ;;
         status <- lift (get result "status" JNull) ;;
         districts <- (if is_str status (py "1")
                       then lift (get result "districts" JNull)
                       else ret (JBool false)) ;;
         if truthy districts
         then
           districts <- lift (item result "districts") ;;
           district <- lift (first districts) ;;
           province <- lift (get district "province" (jstr "")) ;;
           city <- lift (get district "cityname" (jstr "")) ;;
           name' <- lift (get district "name" (jstr "")) ;;
           adcode <- lift (get district "adcode" (jstr "")) ;;
           let district_info :=
             fields [("province", province); ("city", city);
                     ("district", name'); ("adcode", adcode)] in
           p <- get_self ;;
           set_self (Parser (key p) (last_request_time p) (request_count p)
                       (_quota_counter p) (_quota_date p)
                       (Some (store name district_info
                                (match _district_cache p with
                                 | Some c => c
                                 | None => []
                                 end)))) ;;
           ret (JObj district_info)
         else ret (JObj [])
     end)
    (fun _ => ret (JObj [])).

(** ** Text cleaning *)

Definition municipalities : list pystr :=
  [py "北京"; py "上海"; py "天津"; py "重庆"].

(** The pattern text [f'{region}+']: the [+] applies to the last character
    of the name. *)
Definition name_plus (region : pystr) : regex :=
  match rev region with
  | [] => Eps
  | c :: r => Seq (Str (rev r)) (Plus (Cls (N.eqb c)))
  end.

(** [f'{region}+(?:市)?{region}+(?:市)?'] *)
Definition municipality_pattern (region : pystr) : regex :=
  Seq (name_plus region)
    (Seq (Opt (Str (py "市")))
       (Seq (name_plus region) (Opt (Str (py "市"))))).

Definition admin_suffix : char -> bool := oneof "省市区县".

(** [[\r\n\t　\xa0]+] *)
Definition odd_blank (c : char) : bool :=
  existsb (N.eqb c) [13; 10; 9; 12288; 160]%N.
Definition odd_blanks : regex := Plus (Cls odd_blank).
(** [([省市区县])\1+] *)
Definition repeated_suffix : regex :=
  Seq (Group 1 (Cls admin_suffix)) (Plus (Backref 1)).
(** [([一-龥]+(?:街道|路|街|道))\1+] *)
Definition repeated_road : regex :=
  Seq (Group 1 (Seq (Plus (Cls cjk))
                  (Alt (Str (py "街道"))
                     (Alt (Str (py "路"))
                        (Alt (Str (py "街")) (Str (py "道")))))))
    (Plus (Backref 1)).
(** [\s+] *)
Definition blanks : regex := Plus (Cls isspace).
(** [([省市区县])\s+(?=[一-龥])] *)
Definition suffix_gap : regex :=
  Seq (Group 1 (Cls admin_suffix))
    (Seq (Plus (Cls isspace)) (Ahead (Cls cjk))).

(** The loop over [parts] with its [seen] set. *)
Fixpoint dedup (parts seen : list pystr) : list pystr :=
  match parts with
  | [] => []
  | part :: rest =>
      if mem part seen then dedup rest seen
      else part :: dedup rest (part :: seen)
  end.

(** [county_patterns]; in the first one the class holds the bar too. *)
Definition county_patterns : list regex :=
  [Group 1 (Seq (Cls (oneof "临|蒲|永|洪|清")) (Str (py "县")));
   Group 1 (Seq (Rep 1 3 (Cls cjk)) (Cls (one "县")))].

(** The inner loop over the matches of one county pattern. The matches
    were found in the address as it was when the loop started; the slice
    [address[:match.start()]] is taken from the address as it is now. *)
Fixpoint county_loop (matches : list mtch) (address : pystr) : M pystr :=
  match matches with
  | [] => ret address
  | mt :: rest =>
      let county := m_group mt in
      let before := firstn (m_start mt) address in
      address <-
        (if negb (existsb (contains before) [py "省"; py "市"])
         then
           district_info <- _get_district_by_name county ;;
           if truthy district_info
           then
             province <- lift (get district_info "province" (jstr "")) ;;
             city <- lift (get district_info "city" (jstr "")) ;;
             w <- get_env ;;
             ret (str w province ++ str w city ++ address)
           else ret address
         else ret address) ;;
      county_loop rest address
  end.

Fixpoint county_pass (patterns : list regex) (address : pystr) : M pystr :=
  match patterns with
  | [] => ret address
  | pattern :: rest =>
      address <- county_loop (finditer pattern address) address ;;
      county_pass rest address
  end.

(** The string [' ']. *)
Definition blank : pystr := [32%N].

(** The text steps of [_clean_address_string] up to the removal of the
    blanks between administrative names (the value of [address] when it
    is split). *)
Definition normalized (address : pystr) : pystr :=
  let address := sub odd_blanks (const blank) address in
  let address :=
    fold_left (fun a region =>
                 sub (municipality_pattern region)
                     (const (region ++ py "市")) a)
      municipalities address in
  let address := sub repeated_suffix group1 address in
  let address := sub repeated_road group1 address in
  let address := sub blanks (const blank) address in
  let address := strip address in
  sub suffix_gap group1 address.

(** [_clean_address_string]: no handler of its own around the county
    lookups. *)
Definition _clean_address_string (address : pystr) : M pystr :=
  let address := normalized address in
  let parts := split address in
  let cleaned_parts := dedup parts [] in
  county_pass county_patterns address ;;
  ret (join blank cleaned_parts).

(** ** Contact details *)

(** [1[3-9]\d{9}] *)
Definition phone_pattern : regex :=
  Seq (Str (py "1")) (Seq (Cls (range 51 57)) (rep_exact 9 (Cls isdigit))).

Definition honorific : regex :=
  Alt (Str (py "先生")) (Alt (Str (py "女士")) (Str (py "小姐"))).

Definition name_pattern : regex :=
  Seq (Alt (Seq (Rep 2 3 (Cls cjk)) (Opt honorific))
           (Seq (rep_exact 1 (Cls cjk)) honorific))
      (Ahead (Alt (Cls isspace)
                (Alt Eol
                   (Alt (Cls (oneof "，,。.")) phone_pattern)))).

Definition invalid_keywords : list pystr :=
  map py ["北京"; "上海"; "广州"; "深圳";
          "省"; "市"; "区"; "县"; "镇";
          "街道"; "路"; "街"; "道"; "巷";
          "小区"; "公寓"; "家园"; "花园";
          "广场"; "大厦"; "大街"; "号院"].

Definition common_surnames : list pystr :=
  map py ["王"; "李"; "张"; "刘"; "陈"; "杨"; "黄"; "赵"; "吴"; "周"; "徐";
          "孙"; "马"; "朱"; "胡"; "郭"; "何"; "高"; "林"; "郑"; "尹"; "钱";
          "梁"].

(** [_extract_contact_info]: the pair [(name, phone)]. *)
Definition _extract_contact_info (address : pystr) : pystr * pystr :=
  let phone_match := search phone_pattern address in
  let phone := match phone_match with Some m => m_group m | None => [] end in
  let address :=
    match phone_match with
    | Some _ => replace address phone []
    | None => address
    end in
  let name :=
    match search name_pattern address with
    | Some name_match =>
        let potential_name := strip (m_group name_match) in
        if negb (existsb (contains potential_name) invalid_keywords)
        then if existsb (startswith potential_name) common_surnames
             then potential_name else []
        else []
    | None => []
    end in
  (name, phone).

(** ** Building, unit and room *)

Definition digits_2_4 : regex := Rep 2 4 (Cls isdigit).

(** [\d+单元] *)
Definition unit_pattern : regex := Seq (Plus (Cls isdigit)) (Str (py "单元")).

(** [room_patterns] of [_extract_building_info]:
    [(?<!\d)\d{2,4}(?=室|$)], [[A-Za-z]\d{2,4}(?=室|$)] and
    [(?<=-)\d{2,4}(?=室|$)]. *)
Definition room_stop : regex := Ahead (Alt (Str (py "室")) Eol).
Definition unmarked_room : regex :=
  Seq (NotBehind isdigit) (Seq digits_2_4 room_stop).
Definition lettered_room : regex :=
  Seq (Cls ascii_letter) (Seq digits_2_4 room_stop).
Definition hyphen_room : regex :=
  Seq (Behind (one "-")) (Seq digits_2_4 room_stop).
Definition room_patterns : list regex :=
  [unmarked_room; lettered_room; hyphen_room].

(** [room_patterns] of [_extract_address_components]: four patterns, each
    of which also stops before [房]. *)
Definition room_patterns_of_components : list regex :=
  let stop := Ahead (Alt (Str (py "室")) (Alt (Str (py "房")) Eol)) in
  [Seq (NotBehind isdigit) (Seq digits_2_4 stop);
   Seq (Cls ascii_letter) (Seq digits_2_4 stop);
   Seq (Cls (oneof "东南西北")) (Seq digits_2_4 stop);
   Seq (Behind (one "-")) (Seq digits_2_4 stop)].

(** [室\s*$] *)
Definition trailing_shi : regex :=
  Seq (Str (py "室")) (Seq (Star (Cls isspace)) Eol).

(** [for pattern in patterns: m = re.search(pattern, s); if m: ... break] *)
Fixpoint first_match (patterns : list regex) (s : pystr) : option mtch :=
  match patterns with
  | [] => None
  | pattern :: rest =>
      match search pattern s with
      | Some m => Some m
      | None => first_match rest s
      end
  end.

(** [special_keywords] of [_extract_building_info]: the pattern and
    [should_keep_district]. *)
Definition special_keywords : list (regex * bool) :=
  map (fun kw => (Seq (Plus (Cls cjk)) (Str (py (fst kw))), snd kw))
    [("大学", false); ("学院", false); ("中学", true); ("一中", true);
     ("二中", true); ("三中", true); ("小学", true); ("医院", true);
     ("政府", true); ("银行", false); ("广场", false)].

(** [for key in keys: if components.get(key): s = s.replace(components[key], '')] *)
Fixpoint strip_known (keys : list string) (components : dict) (s : pystr)
  : outcome pystr :=
  match keys with
  | [] => Ok s
  | key :: rest =>
      if truthy (dget components key JNull)
      then match remove s (dget components key JNull) with
           | Ok s' => strip_known rest components s'
           | Raise e => Raise e
           end
      else strip_known rest components s
  end.

(** The first special keyword that matches [address], if any. *)
Fixpoint special_hit (kws : list (regex * bool)) (address : pystr)
  : option bool :=
  match kws with
  | [] => None
  | (pattern, should_keep_district) :: rest =>
      match search pattern address with
      | Some _ => Some should_keep_district
      | None => special_hit rest address
      end
  end.

(** The unit and room steps of [_extract_building_info] on the text left
    after the known names are removed: [(unit, room, remaining_address)]. *)
Definition unit_and_room (remaining_address : pystr)
  : pystr * pystr * pystr :=
  let unit_match := search unit_pattern remaining_address in
  let unit := match unit_match with Some m => m_group m | None => [] end in
  let remaining_address :=
    match unit_match with
    | Some m => replace remaining_address (m_group m) []
    | None => remaining_address
    end in
  match first_match room_patterns remaining_address with
  | Some room_match =>
      let remaining_address :=
        replace remaining_address (m_group room_match) [] in
      (unit, m_group room_match,
       sub trailing_shi (const []) remaining_address)
  | None => (unit, [], remaining_address)
  end.

(** [_extract_building_info] *)
Definition _extract_building_info (address : pystr) (components : dict)
  : M dict :=
  remaining_address <-
    lift (strip_known ["province"; "city"] components address) ;;
  remaining_address <-
    lift (strip_known ["name"; "phone"] components remaining_address) ;;
  remaining_address <- _clean_address_string remaining_address ;;
  match special_hit special_keywords address with
  | Some should_keep_district =>
      special_place <-
        lift (strip_known ["province"; "city"] components address) ;;
      special_place <-
        (if negb should_keep_district
         then lift (strip_known ["district"] components special_place)
         else ret special_place) ;;
      ret (fields [("building", JStr (strip special_place));
                   ("unit", jstr ""); ("room", jstr "")])
  | None =>
      let '(unit, room, remaining_address) :=
        unit_and_room remaining_address in
      let remaining_address :=
        strip (sub blanks (const blank) remaining_address) in
      ret (fields [("building", JStr remaining_address);
                   ("unit", JStr unit); ("room", JStr room)])
  end.

(** Replacement of every unit of [old] in turn (the [for region in ...]
    loops of [_extract_address_components], whose arguments are strings). *)
Definition remove_all (s : pystr) (olds : list pystr) : pystr :=
  fold_left (fun s old => match old with
                          | [] => s
                          | _ :: _ => replace s old []
                          end) olds s.

(** [street_patterns] of [_extract_address_components] *)
Definition street_patterns : list regex :=
  [Seq (Plus (Cls cjk)) (Str (py "街道"));
   Seq (Plus (Cls cjk)) (Cls (oneof "路街道巷弄"))].

(** The loop over [street_patterns]:
    [(street_parts, formatted_address, detail_address)]. *)
Fixpoint street_loop (patterns : list regex)
  (street_parts : list pystr) (formatted_address detail_address : pystr)
  : list pystr * pystr * pystr :=
  match patterns with
  | [] => (street_parts, formatted_address, detail_address)
  | pattern :: rest =>
      match search pattern formatted_address with
      | Some m =>
          let street_part := m_group m in
          street_loop rest
            (if mem street_part street_parts then street_parts
             else street_parts ++ [street_part])
            (replace formatted_address street_part [])
            (replace detail_address street_part [])
      | None => street_loop rest street_parts formatted_address detail_address
      end
  end.

(** [[\s,，。、]+] and [[,，。、]+$] *)
Definition blanks_and_marks : regex :=
  Plus (Cls (fun c => isspace c || oneof ",，。、" c)).
Definition trailing_marks : regex :=
  Seq (Plus (Cls (oneof ",，。、"))) Eol.

(** [_extract_address_components]: no handler around the cleaning. *)
Definition _extract_address_components
  (formatted_address province city district : pystr) : M dict :=
  formatted_address <- _clean_address_string formatted_address ;;
  let detail_address := formatted_address in
  let formatted_address :=
    remove_all formatted_address [province; city; district] in
  let '(street_parts, formatted_address, detail_address) :=
    street_loop street_patterns [] formatted_address detail_address in
  let components :=
    match street_parts with
    | [] => []
    | _ :: _ => [(py "street", JStr (join blank street_parts))]
    end in
  let detail_address :=
    remove_all detail_address ([province; city; district] ++ street_parts) in
  let detail_address :=
    strip (sub blanks_and_marks (const blank) detail_address) in
  let components :=
    match detail_address with
    | [] => components
    | _ :: _ =>
        let components := store (py "building") (JStr detail_address)
                            components in
        let building := detail_address in
        let unit_match := search unit_pattern detail_address in
        let components :=
          match unit_match with
          | Some m => store (py "unit") (JStr (m_group m)) components
          | None => components
          end in
        let building :=
          match unit_match with
          | Some m => strip (replace building (m_group m) [])
          | None => building
          end in
        match first_match room_patterns_of_components detail_address with
        | Some room_match =>
            let components :=
              store (py "room") (JStr (m_group room_match)) components in
            let building := strip (replace building (m_group room_match) []) in
            let building := strip (sub trailing_shi (const []) building) in
            store (py "building") (JStr building) components
        | None => store (py "building") (JStr building) components
        end
    end in
  let components :=
    match lookup (py "building") components with
    | Some (JStr (c :: b)) =>
        let building := strip (sub blanks (const blank) (c :: b)) in
        let building := strip (sub trailing_marks (const []) building) in
        store (py "building") (JStr building) components
    | _ => components
    end in
  ret components.

(** ** Streets *)

(** [street_patterns] of [_extract_possible_street]; the brackets make
    each suffix a class of single characters. *)
Definition possible_street_patterns : list regex :=
  let name := RepMin 2 (Cls cjk) in
  [Seq name (Cls (oneof "街道"));
   Seq name (Seq (Cls (oneof "路")) (NotAhead (Str (py "口"))));
   Seq name (Seq (Cls (oneof "街")) (NotAhead (Str (py "道"))));
   Seq name (Cls (oneof "大道"));
   Seq name (Cls (oneof "广场"));
   Seq name (Cls (oneof "开发区"));
   Seq name (Cls (oneof "工业园"));
   Seq name (Cls (oneof "科技园"))].

(** [for region in regions: if region: s = s.replace(region, '')] on a
    value [s] that may not be a string. *)
Fixpoint strip_regions (regions : list json) (s : json) : outcome json :=
  match regions with
  | [] => Ok s
  | region :: rest =>
      if truthy region
      then match s with
           | JStr t => match remove t region with
                       | Ok t' => strip_regions rest (JStr t')
                       | Raise e => Raise e
                       end
           | _ => Raise AttributeError
           end
      else strip_regions rest s
  end.

(** [_extract_possible_street] *)
Definition _extract_possible_street (formatted_address : json)
  (regions_to_remove : list json) : outcome pystr :=
  match strip_regions regions_to_remove formatted_address with
  | Raise e => Raise e
  | Ok (JStr remaining_address) =>
      Ok (match first_match possible_street_patterns remaining_address with
          | Some m => m_group m
          | None => []
          end)
  | Ok _ => Raise TypeError
  end.

(** ** Weather *)

Definition WEATHER_DESC : list (string * string) :=
  [("晴", "晴朗无云"); ("少云", "晴朗，有少量云朵");
   ("晴间多云", "晴天为主，间有云层"); ("多云", "云量较多");
   ("阴", "云层厚密，天色阴沉");
   ("有风", "有明显的风"); ("平静", "无风或微风"); ("微风", "树叶轻微摇动");
   ("和风", "树枝摇动"); ("清风", "吹动衣物"); ("强风/劲风", "大树摇动");
   ("疾风", "行走困难"); ("大风", "树枝折断"); ("烈风", "房屋损坏");
   ("阵雨", "短时降雨"); ("雷阵雨", "雷雨天气"); ("小雨", "雨量较小");
   ("中雨", "明显降雨"); ("大雨", "雨量较大"); ("暴雨", "雨量很大");
   ("雨夹雪", "雨雪混合"); ("小雪", "雪量较小"); ("中雪", "明显降雪");
   ("大雪", "雪量较大");
   ("雾", "能见度较低"); ("浓雾", "能见度很低"); ("霾", "空气混浊");
   ("热", "气温偏高"); ("冷", "气温偏低")].

Definition WIND_POWER : list (string * string) :=
  [("≤3", "微风(小于12km/h)"); ("4", "和风(13-19km/h)");
   ("5", "清风(20-29km/h)"); ("6", "强风(30-39km/h)");
   ("7", "疾风(40-49km/h)"); ("8", "大风(50-61km/h)");
   ("9", "烈风(62-74km/h)"); ("10", "狂风(75-87km/h)");
   ("11", "暴风(88-102km/h)"); ("12", "台风(≥103km/h)")].

Definition WIND_DIRECTION : list (string * string) :=
  [("无风向", "无明显风向"); ("东北", "东北风"); ("东", "东风");
   ("东南", "东南风"); ("南", "南风"); ("西南", "西南风"); ("西", "西风");
   ("西北", "西北风"); ("北", "北风"); ("旋转不定", "风向不定")].

(** The dict with [weather], [temperature] and [wind] that the source
    builds for the present moment and for each half of a forecast day;
    [kw], [kt], [kd] and [kp] are the keys read from the provider's
    entry. *)
Definition weather_part (w : world) (entry : json) (kw kt kd kp : string)
  : outcome (list (string * json)) :=
  match get entry kw (jstr "") with
  | Raise e => Raise e
  | Ok code =>
  match table_get WEATHER_DESC code (jstr "未知天气") with
  | Raise e => Raise e
  | Ok desc =>
  match get entry kt (jstr "") with
  | Raise e => Raise e
  | Ok temperature =>
  match get entry kd (jstr "") with
  | Raise e => Raise e
  | Ok d =>
  match table_get WIND_DIRECTION d (jstr "未知风向") with
  | Raise e => Raise e
  | Ok direction =>
  match get entry kp (jstr "") with
  | Raise e => Raise e
  | Ok pw =>
  match table_get WIND_POWER pw (jstr "未知风力") with
  | Raise e => Raise e
  | Ok power =>
      Ok [("weather", obj [("code", code); ("desc", desc)]);
          ("temperature", JStr (str w temperature ++ py "℃"));
          ("wind", obj [("direction", direction); ("power", power)])]
  end end end end end end end.

(** One entry of [weather_info['forecast']]. *)
Definition forecast_of (cast : json) : M json :=
  w <- get_env ;;
  date <- lift (get cast "date" (jstr "")) ;;
  week <- lift (get cast "week" (jstr "")) ;;
  day <- lift (weather_part w cast "dayweather" "daytemp" "daywind"
                 "daypower") ;;
  night <- lift (weather_part w cast "nightweather" "nighttemp" "nightwind"
                   "nightpower") ;;
  ret (obj [("date", date); ("week", week);
            ("day", obj day); ("night", obj night)]).

(** [_get_weather_info]: the snapshot, or [None]. The handler's [print]
    is left out, see [try_except]. *)
Definition _get_weather_info (adcode : json) : M json :=
  try_except
    (p <- get_self ;;
     result <- _make_request (py "/v3/weather/weatherInfo")
                 [(py "key", JStr (key p)); (py "city", adcode);
                  (py "extensions", jstr "all"); (py "output", jstr "json")] ;;
     status <- lift (get result "status" JNull) ;;
     if is_str status (py "1")
     then
       lives <- lift (get result "lives" JNull) ;;
       current <-
         (if truthy lives
          then
            lives <- lift (item result "lives") ;;
            live <- lift (first lives) ;;
            w <- get_env ;;
            part <- lift (weather_part w live "weather" "temperature"
                            "winddirection" "windpower") ;;
            humidity <- lift (get live "humidity" (jstr "")) ;;
            reporttime <- lift (get live "reporttime" (jstr "")) ;;
            ret (obj (part ++
                      [("humidity", JStr (str w humidity ++ py "%"));
                       ("reporttime", reporttime)]))
          else ret JNull) ;;
       forecasts <- lift (get result "forecasts" JNull) ;;
       forecast <-
         (if truthy forecasts
          then
            forecasts <- lift (item result "forecasts") ;;
            day0 <- lift (first forecasts) ;;
            casts <- lift (get day0 "casts" (JArr [])) ;;
            casts <- lift (iter casts) ;;
            mapM forecast_of casts
          else ret []) ;;
       ret (obj [("current", current); ("forecast", JArr forecast)])
     else ret JNull)
    (fun _ => ret JNull).

(** ** The resolution chain *)

(** [_empty_components] *)
Definition _empty_components : dict :=
  fields [("province", jstr ""); ("city", jstr ""); ("district", jstr "");
          ("street", jstr ""); ("building", jstr ""); ("unit", jstr "");
          ("room", jstr ""); ("name", jstr ""); ("phone", jstr "");
          ("weather", JNull)].

(** [a or b] *)
Definition or_else (a b : json) : json := if truthy a then a else b.

(** The dict literal that opens each branch of the chain. *)
Definition components_of (province city district street : json) : dict :=
  fields [("province", province); ("city", city); ("district", district);
          ("street", street); ("building", jstr ""); ("unit", jstr "");
          ("room", jstr ""); ("name", jstr ""); ("phone", jstr "");
          ("weather", JNull)].

(** The district-name branch of [_parse_address_by_text]: the components
    it returns, or [None] when the lookup finds no province. *)
Definition by_district (clean_address : pystr) : M (option dict) :=
  district_info <- _get_district_by_name clean_address ;;
  province <- (if truthy district_info
               then lift (get district_info "province" JNull)
               else ret (JBool false)) ;;
  if truthy province
  then
    province <- lift (get district_info "province" (jstr "")) ;;
    city <- lift (get district_info "city" (jstr "")) ;;
    district <- lift (get district_info "district" (jstr "")) ;;
    let components :=
      components_of province (or_else city province) district (jstr "") in
    let components :=
      if negb (existsb (fun v => is_str v clean_address)
                 [province; city; district])
      then store (py "building") (JStr clean_address) components
      else components in
    adcode <- lift (get district_info "adcode" JNull) ;;
    components <-
      (if truthy adcode
       then
         adcode <- lift (item district_info "adcode") ;;
         weather <- _get_weather_info adcode ;;
         ret (store (py "weather") weather components)
       else ret components) ;;
    ret (Some components)
  else ret None.

(** The geocode branch of [_parse_address_by_text]: the components it
    returns, or [None] when the provider has no candidate. *)
Definition by_geocode (clean_address : pystr) : M (option dict) :=
  geo_result <- _geo_code clean_address ;;
  status <- lift (get geo_result "status" JNull) ;;
  geocodes <- (if is_str status (py "1")
               then lift (get geo_result "geocodes" JNull)
               else ret (JBool false)) ;;
  if truthy geocodes
  then
    geocodes <- lift (item geo_result "geocodes") ;;
    geocode <- lift (first geocodes) ;;
    province <- lift (get geocode "province" (jstr "")) ;;
    city <- lift (get geocode "city" (jstr "")) ;;
    district <- lift (get geocode "district" (jstr "")) ;;
    let components :=
      components_of province (or_else city province) district (jstr "") in
    formatted_address <- lift (get geocode "formatted_address" (jstr "")) ;;
    components <-
      (if truthy formatted_address
       then
         street <- lift (_extract_possible_street formatted_address
                           [dget components "province" JNull;
                            dget components "city" JNull;
                            dget components "district" JNull]) ;;
         ret (match street with
              | [] => components
              | _ :: _ => store (py "street") (JStr street) components
              end)
       else ret components) ;;
    building_info <- _extract_building_info clean_address components ;;
    let components := update components building_info in
    let '(name, phone) := _extract_contact_info clean_address in
    let components := store (py "name") (JStr name) components in
    let components := store (py "phone") (JStr phone) components in
    adcode <- lift (get geocode "adcode" JNull) ;;
    components <-
      (if truthy adcode
       then
         adcode <- lift (item geocode "adcode") ;;
         weather <- _get_weather_info adcode ;;
         ret (store (py "weather") weather components)
       else ret components) ;;
    ret (Some components)
  else ret None.

(** The [try] block of [_parse_address_by_text]: the components it
    returns, or [None] when it runs to its end without returning. *)
Definition by_text_body (address : pystr) : M (option dict) :=
  clean_address <- _clean_address_string address ;;
  resolved <- by_district clean_address ;;
  match resolved with
  | Some components => ret (Some components)
  | None => by_geocode clean_address
  end.

(** [_parse_address_by_text] *)
Definition _parse_address_by_text (address : pystr) : M dict :=
  r <- try_except (by_text_body address) (fun _ => ret None) ;;
  match r with
  | Some components => ret components
  | None => ret _empty_components
  end.

(** The location [parse_address] resolves first: the coordinates, converted
    when another coordinate system is declared; [None] without
    coordinates. *)
Definition location_of (coordinates coordsys : option pystr) : M json :=
  match coordinates with
  | Some (c :: cs) =>
      match coordsys with
      | Some (x :: xs) =>
          if negb (eqb (x :: xs) (py "autonavi"))
          then _convert_coordinates (c :: cs) (x :: xs)
          else ret (JStr (c :: cs))
      | _ => ret (JStr (c :: cs))
      end
  | _ => ret JNull
  end.

(** The coordinate branch of [parse_address] ([if location: ...]): the
    components it returns, or [None] when the method goes on to the
    text. *)
Definition by_coordinates (address : pystr) (location : json)
  : M (option dict) :=
  if truthy location
  then
    regeo_result <- _regeo_code location ;;
    status <- lift (get regeo_result "status" JNull) ;;
    regeocode <- (if is_str status (py "1")
                  then lift (get regeo_result "regeocode" JNull)
                  else ret (JBool false)) ;;
    if truthy regeocode
    then
      regeo <- lift (item regeo_result "regeocode") ;;
      address_component <- lift (get regeo "addressComponent" (JObj [])) ;;
      province <- lift (get address_component "province" (jstr "")) ;;
      city <- lift (get address_component "city" (jstr "")) ;;
      province' <- lift (get address_component "province" (jstr "")) ;;
      district <- lift (get address_component "district" (jstr "")) ;;
      township <- lift (get address_component "township" (jstr "")) ;;
      let components :=
        components_of province (or_else city province') district township in
      components <-
        match address with
        | [] => ret components
        | _ :: _ =>
            let '(name, phone) := _extract_contact_info address in
            let components := store (py "name") (JStr name) components in
            let components := store (py "phone") (JStr phone) components in
            building_info <- _extract_building_info address components ;;
            ret (update components building_info)
        end ;;
      adcode <- lift (get address_component "adcode" JNull) ;;
      weather_info <-
        (if truthy adcode
         then
           adcode <- lift (item address_component "adcode") ;;
           _get_weather_info adcode
         else ret JNull) ;;
      ret (Some components)
    else ret None
  else ret None.

(** The [try] block of [parse_address]. *)
Definition parse_address_body (address : pystr)
  (coordinates coordsys : option pystr) : M dict :=
  _clean_address_string address ;;
  location <- location_of coordinates coordsys ;;
  resolved <- by_coordinates address location ;;
  match resolved with
  | Some components => ret components
  | None => _parse_address_by_text address
  end.

(** [parse_address] *)
Definition parse_address (address : pystr)
  (coordinates coordsys : option pystr) : M dict :=
  try_except (parse_address_body address coordinates coordsys)
    (fun _ => ret _empty_components).

(** [AddressCompleter.complete_address] *)
Definition complete_address (address_string : pystr) : M dict :=
  parse_address address_string None None.

(** ** Points of interest *)

(** [a and b] used as a condition, [b] being evaluated only when [a] is
    true. *)
Definition and_then (a : bool) (b : outcome bool) : outcome bool :=
  if a then b else Ok false.

Definition bonus (cond : outcome bool) (points : nat) : outcome nat :=
  match cond with
  | Ok true => Ok points
  | Ok false => Ok 0
  | Raise e => Raise e
  end.

Definition plus_o (a b : outcome nat) : outcome nat :=
  match a with
  | Raise e => Raise e
  | Ok x => match b with
            | Raise e => Raise e
            | Ok y => Ok (x + y)
            end
  end.

Definition bind_o {A B} (a : outcome A) (k : A -> outcome B) : outcome B :=
  match a with
  | Ok x => k x
  | Raise e => Raise e
  end.

(** The loop over [poi['children']]. *)
Fixpoint children_score (children : list json) (address : pystr)
  : outcome nat :=
  match children with
  | [] => Ok 0
  | child :: rest =>
      plus_o
        (bind_o (get child "name" JNull) (fun name =>
           bonus (in_str name address) 2))
        (children_score rest address)
  end.

(** The score of one candidate, the tests in the order of the source. *)
Definition poi_score (poi : json) (address : pystr) : outcome nat :=
  plus_o
    (bind_o (get poi "name" JNull) (fun name =>
       bind_o (in_str name address) (fun hit =>
         if hit then Ok (5 + if is_str name address then 3 else 0)
         else Ok 0)))
  (plus_o
    (bind_o (get poi "address" JNull) (fun a =>
       if truthy a
       then bind_o (item poi "address") (fun a =>
              bind_o (in_str a address) (fun hit =>
                if hit then Ok 3
                else bonus (str_in address a) 2))
       else Ok 0))
  (plus_o
    (bind_o (get poi "adname" JNull) (fun adname =>
       bonus (in_str adname address) 2))
  (plus_o
    (bind_o (get poi "business" (JObj [])) (fun business =>
       bind_o (get business "business_area" JNull) (fun area =>
         if truthy area
         then bind_o (item poi "business") (fun business =>
                bind_o (item business "business_area") (fun area =>
                  bonus (in_str area address) 1))
         else Ok 0)))
  (plus_o
    (bind_o (get poi "type" JNull) (fun type =>
       if truthy type
       then match type with
            | JStr t =>
                Ok (if existsb (contains address) (split_on 59%N t)
                    then 1 else 0)
            | _ => Raise AttributeError
            end
       else Ok 0))
  (plus_o
    (bind_o (get poi "alias" JNull) (fun alias =>
       bonus (and_then (truthy alias) (in_str alias address)) 1))
    (bind_o (get poi "children" JNull) (fun children =>
       if truthy children
       then bind_o (iter children) (fun l => children_score l address)
       else Ok 0))))))).

(** The loop that fills [scored_pois]. *)
Fixpoint score_all (pois : list json) (address : pystr)
  : outcome (list (nat * json)) :=
  match pois with
  | [] => Ok []
  | poi :: rest =>
      bind_o (poi_score poi address) (fun score =>
        bind_o (score_all rest address) (fun l => Ok ((score, poi) :: l)))
  end.

(** [max(l, key=lambda x: x[0])]: the first element of greatest score,
    [best] being the greatest so far. *)
Fixpoint max_by_score (best : nat * json) (l : list (nat * json))
  : nat * json :=
  match l with
  | [] => best
  | x :: l' => max_by_score (if fst best <? fst x then x else best) l'
  end.

(** [_find_best_poi_match]: a candidate, or [None]. *)
Definition _find_best_poi_match (pois : list json) (address : pystr)
  : outcome (option json) :=
  match pois with
  | [] => Ok None
  | _ :: _ =>
      bind_o (score_all pois address) (fun scored_pois =>
        match scored_pois with
        | [] => Ok None
        | x :: l => Ok (Some (snd (max_by_score x l)))
        end)
  end.

(** ** Further lookups through the gateway

    Each of these methods catches whatever its request raises, prints a
    line (left out, see [try_except]) and returns a default. *)

(** [_search_poi] *)
Definition _search_poi (keywords city types : pystr) : M json :=
  try_except
    (p <- get_self ;;
     result <- _make_request (py "/v3/place/text")
                 [(py "key", JStr (key p)); (py "keywords", JStr keywords);
                  (py "city", JStr city); (py "types", JStr types);
                  (py "extensions", jstr "all"); (py "output", jstr "json")] ;;
     status <- lift (get result "status" JNull) ;;
     if is_str status (py "1")
     then lift (get result "pois" (JArr []))
     else ret (JArr []))
    (fun _ => ret (JArr [])).

(** [_get_current_city_info] *)
Definition _get_current_city_info : M json :=
  try_except
    (p <- get_self ;;
     result <- _make_request (py "/v3/ip")
                 [(py "key", JStr (key p)); (py "output", jstr "json")] ;;
     status <- lift (get result "status" JNull) ;;
     if is_str status (py "1")
     then
       province <- lift (get result "province" (jstr "")) ;;
       city <- lift (get result "city" (jstr "")) ;;
       adcode <- lift (get result "adcode" (jstr "")) ;;
       rectangle <- lift (get result "rectangle" (jstr "")) ;;
       ret (obj [("province", province); ("city", city);
                 ("adcode", adcode); ("rectangle", rectangle)])
     else ret (JObj []))
    (fun _ => ret (JObj [])).

(** [_validate_key]: the key that is tried is the argument, not the
    parser's own. *)
Definition _validate_key (key : pystr) : M bool :=
  try_except
    (result <- _make_request (py "/v3/ip")
                 [(py "key", JStr key); (py "output", jstr "json")] ;;
     status <- lift (get result "status" JNull) ;;
     ret (is_str status (py "1")))
    (fun _ => ret false).

(** ** The district tree and special places *)

(** [if 'districts' in v: for x in v['districts']: ...]: the values the
    loop runs over, none when [v] has no such member. *)
Definition sub_districts (v : json) : outcome (list json) :=
  bind_o (str_in (py "districts") v) (fun found =>
    if found then bind_o (item v "districts") iter else Ok []).

(** A loop that gathers, for each element in turn, the values [f] gives. *)
Fixpoint gather (f : json -> outcome (list json)) (l : list json)
  : outcome (list json) :=
  match l with
  | [] => Ok []
  | x :: l' =>
      bind_o (f x) (fun a => bind_o (gather f l') (fun b => Ok (a ++ b)))
  end.

(** The list [streets] of [_find_street_from_district]: the third level of
    the tree below [district_info]. *)
Definition streets_of (district_info : json) : outcome (list json) :=
  bind_o (sub_districts district_info) (gather (fun city =>
    bind_o (sub_districts city) (gather sub_districts))).

(** The loop [for street in streets]: the first name that occurs in the
    address, or the end of the loop ([None]). *)
Fixpoint first_street (streets : list json) (address : pystr)
  : outcome (option pystr) :=
  match streets with
  | [] => Ok None
  | street :: rest =>
      bind_o (item street "name") (fun street_name =>
        match street_name with
        | JStr s => if contains address s then Ok (Some s)
                    else first_street rest address
        | _ => Raise TypeError
        end)
  end.

(** [_find_street_from_district] *)
Definition _find_street_from_district (district_info : json)
  (address : pystr) : pystr :=
  match bind_o (streets_of district_info)
          (fun streets => first_street streets address) with
  | Ok (Some street_name) => street_name
  | Ok None => []
  | Raise _ => []
  end.

(** [special_keywords] of [_extract_special_place] *)
Definition special_place_patterns : list regex :=
  let name := Rep 1 10 (Cls cjk) in
  Seq name (Seq (Cls (oneof "一二三四五六七八九十"))
              (Seq (Star (Cls isspace)) (Str (py "中"))))
  :: map (fun kw => Seq name (Str (py kw)))
       ["中学"; "小学"; "医院"; "大学"; "学院"; "政府"; "银行"; "商场";
        "广场"].

(** [_extract_special_place] *)
Definition _extract_special_place (address : pystr) : pystr :=
  match first_match special_place_patterns address with
  | Some m => m_group m
  | None => []
  end.

(** ** Lookups that keep caches of their own

    The attributes of the parser these methods read and write:
    [district_cache] is set by [__init__], the others are created on first
    use ([hasattr]; [None] is the absent attribute). *)
Record attributes : Type := Attributes {
  district_cache : list (pystr * json);
  _tips_cache : option (list (pystr * json));
  _current_city : option json;
  _poi_cache : option (list (pystr * json))
}.

(** The whole object, as these methods see it. *)
Record object : Type := Object {
  base : state;
  attrs : attributes
}.

(** The object [AmapAddressParser()] in the environment [w]. *)
Definition new_object (w : world) : object :=
  Object (State __init__ w) (Attributes [] None None None).

Module Obj.

(** Computations on the whole object; as for [M], the object reached when
    an exception is raised is kept. *)
Definition N (A : Type) : Type := object -> outcome A * object.

Definition ret {A} (a : A) : N A := fun o => (Ok a, o).
Definition bind {A B} (c : N A) (k : A -> N B) : N B :=
  fun o =>
    match c o with
    | (Ok a, o') => k a o'
    | (Raise e, o') => (Raise e, o')
    end.
Definition try_except {A} (c : N A) (h : exn -> N A) : N A :=
  fun o =>
    match c o with
    | (Ok a, o') => (Ok a, o')
    | (Raise e, o') => h e o'
    end.
Definition lift {A} (r : outcome A) : N A := fun o => (r, o).
(** A method of the first part, run on the object. *)
Definition run {A} (c : M A) : N A :=
  fun o => let (r, st) := c (base o) in (r, Object st (attrs o)).
Definition get_attrs : N attributes := fun o => (Ok (attrs o), o).
Definition set_attrs (a : attributes) : N unit :=
  fun o => (Ok tt, Object (base o) a).

End Obj.

Declare Scope obj_scope.
Delimit Scope obj_scope with obj.
Notation "x <- c ;; k" := (Obj.bind c (fun x => k))
  (at level 61, c at next level, right associativity) : obj_scope.
Notation "c ;; k" := (Obj.bind c (fun _ => k))
  (at level 61, right associativity) : obj_scope.

(** [cache.get(k)] on a cache that may not exist yet, and the cache made
    to exist. *)
Definition cached (cache : option (list (pystr * json))) (k : pystr)
  : option json :=
  match cache with
  | Some c => lookup k c
  | None => None
  end.
Definition existing (cache : option (list (pystr * json)))
  : list (pystr * json) :=
  match cache with
  | Some c => c
  | None => []
  end.

(** [_get_district_info]: its own connection, as [_geo_code]; the cache is
    asked before the [try]. *)
Definition _get_district_info (adcode : pystr) : Obj.N json :=
  (a <- Obj.get_attrs ;;
   match lookup adcode (district_cache a) with
   | Some info => Obj.ret info
   | None =>
       Obj.try_except
         (p <- Obj.run get_self ;;
          Obj.run (urlencode [(py "keywords", JStr adcode);
                              (py "subdistrict", jstr "3");
                              (py "key", JStr (key p));
                              (py "output", jstr "json")]) ;;
          result <- Obj.run fetch ;;
          status <- Obj.lift (get result "status" JNull) ;;
          districts <- (if is_str status (py "1")
                        then Obj.lift (get result "districts" JNull)
                        else Obj.ret (JBool false)) ;;
          if truthy districts
          then
            districts <- Obj.lift (item result "districts") ;;
            district <- Obj.lift (first districts) ;;
            a <- Obj.get_attrs ;;
            Obj.set_attrs
              (Attributes (store adcode district (district_cache a))
                 (_tips_cache a) (_current_city a) (_poi_cache a)) ;;
            Obj.ret district
          else Obj.ret (JObj []))
         (fun _ => Obj.ret (JObj []))
   end)%obj.

(** [_get_current_city]: the city of the caller's IP address, kept once it
    is known. The handler's [print] is left out, see [try_except]. *)
Definition _get_current_city : Obj.N json :=
  Obj.try_except
    (a <- Obj.get_attrs ;;
     match _current_city a with
     | Some city => Obj.ret city
     | None =>
         p <- Obj.run get_self ;;
         result <- Obj.run (_make_request (py "/v3/ip")
                              [(py "key", JStr (key p));
                               (py "output", jstr "json")]) ;;
         status <- Obj.lift (get result "status" JNull) ;;
         if is_str status (py "1")
         then
           city <- Obj.lift (get result "city" (jstr "")) ;;
           a <- Obj.get_attrs ;;
           Obj.set_attrs
             (Attributes (district_cache a) (_tips_cache a) (Some city)
                (_poi_cache a)) ;;
           Obj.ret city
         else Obj.ret (jstr "")
     end)%obj
    (fun _ => Obj.ret (jstr "")).

(** [_get_input_tips]: the dict literal [params] asks for the current city
    twice. The handler's [print] is left out, see [try_except]. *)
Definition _get_input_tips (keywords : pystr) : Obj.N json :=
  Obj.try_except
    (let cache_key := py "tips_" ++ keywords in
     a <- Obj.get_attrs ;;
     match cached (_tips_cache a) cache_key with
     | Some tips => Obj.ret tips
     | None =>
         p <- Obj.run get_self ;;
         city <- _get_current_city ;;
         city' <- _get_current_city ;;
         result <- Obj.run (_make_request (py "/v3/assistant/inputtips")
                              [(py "keywords", JStr keywords);
                               (py "key", JStr (key p));
                               (py "datatype", jstr "all");
                               (py "city", city);
                               (py "citylimit",
                                jstr (if truthy city' then "true"
                                      else "false"));
                               (py "output", jstr "json")]) ;;
         a <- Obj.get_attrs ;;
         Obj.set_attrs
           (Attributes (district_cache a)
              (Some (store cache_key result (existing (_tips_cache a))))
              (_current_city a) (_poi_cache a)) ;;
         Obj.ret result
     end)%obj
    (fun _ => Obj.ret (JObj [])).

(** The text [f"poi_{keywords}_{region}_{types}"]. *)
Definition poi_cache_key (keywords region types : pystr) : pystr :=
  py "poi_" ++ keywords ++ py "_" ++ region ++ py "_" ++ types.

(** [_search_poi_v2]. The handler's [print] is left out, see
    [try_except]. *)
Definition _search_poi_v2 (keywords region types : pystr) : Obj.N json :=
  Obj.try_except
    (let cache_key := poi_cache_key keywords region types in
     a <- Obj.get_attrs ;;
     match cached (_poi_cache a) cache_key with
     | Some pois => Obj.ret pois
     | None =>
         p <- Obj.run get_self ;;
         result <- Obj.run (_make_request (py "/v5/place/text")
                              [(py "key", JStr (key p));
                               (py "keywords", JStr keywords);
                               (py "region", JStr region);
                               (py "types", JStr types);
                               (py "show_fields",
                                jstr "business,children,indoor,navi");
                               (py "page_size", jstr "25");
                               (py "city_limit",
                                jstr (match region with
                                      | [] => "false"
                                      | _ :: _ => "true"
                                      end))]) ;;
         status <- Obj.lift (get result "status" JNull) ;;
         if is_str status (py "1")
         then
           pois <- Obj.lift (get result "pois" (JArr [])) ;;
           a <- Obj.get_attrs ;;
           Obj.set_attrs
             (Attributes (district_cache a) (_tips_cache a)
                (_current_city a)
                (Some (store cache_key pois (existing (_poi_cache a))))) ;;
           Obj.ret pois
         else Obj.ret (JArr [])
     end)%obj
    (fun _ => Obj.ret (JArr [])).

(** ** The address input of the window

    [AddressInputEdit] of [src/address_gui.py]: the fields that decide
    whether suggestions are asked for. [timer] is the interval the
    single-shot timer runs with, [None] when it is stopped. *)
Module AddressInputEdit.

Record edit : Type := Edit {
  last_text : pystr;
  min_text_length : nat;
  timer : option nat
}.

Definition __init__ : edit := Edit [] 3 None.

(** [_is_similar_text] *)
Definition _is_similar_text (self : edit) (text : pystr) : bool :=
  contains (last_text self) text || contains text (last_text self).

(** [on_text_changed] *)
Definition on_text_changed (self : edit) (text : pystr) : edit :=
  let self := Edit (last_text self) (min_text_length self) None in
  if min_text_length self <=? length text
  then if negb (_is_similar_text self text)
       then Edit (last_text self) (min_text_length self) (Some 1000)
       else self
  else self.

End AddressInputEdit.

(** * Statements and examples

    The definitions the properties are stated with, and the concrete
    environments and provider answers of the examples. *)

(** ** Environments of the examples *)

(** A day on which the provider gives the [answers], in order; the texts
    of the runtime play no part in the examples. *)
Definition day (date : string) (now : Z) (answers : list json) : world :=
  World now (py date)
    (map (fun j => Exchange 20 None (Decoded j)) answers)
    (fun _ => []) (fun _ => []).

Definition fresh (w : world) : state := State __init__ w.

(** ** For the gateway *)

(** The count [_check_quota] starts from: the stored one on the stored
    date, zero on any other date. *)
Definition used_today (path : pystr) (st : state) : nat :=
  match _quota_date (self st) with
  | Some d =>
      if eqb d (today (env st))
      then count_of path (_quota_counter (self st)) else 0
  | None => 0
  end.

Definition place_text : pystr := py "/v3/place/text".
Definition weather_path : pystr := py "/v3/weather/weatherInfo".

(** The outcomes of [n] successive requests for [path]. *)
Fixpoint requests (n : nat) (path : pystr) (st : state)
  : list (outcome json) * state :=
  match n with
  | O => ([], st)
  | S n' =>
      let (r, st1) := _make_request path [] st in
      let (rs, st2) := requests n' path st1 in
      (r :: rs, st2)
  end.

(** Midnight passes: the local date becomes [date]. *)
Definition next_day (date : string) (st : state) : state :=
  let w := env st in
  State (self st) (World (clock w) (py date) (inbox w) (repr w) (what w)).

Definition ok_answer : json := obj [("status", jstr "1")].

Definition is_ok {A} (o : outcome A) : bool :=
  match o with Ok _ => true | Raise _ => false end.

Definition invalid_key_answer : json :=
  obj [("status", jstr "0"); ("info", jstr "INVALID_USER_KEY");
       ("infocode", jstr "10001")].

(** What the specification says of every lookup built on the gateway: a
    request that succeeds has been charged to its path's counter and has
    set the time of the last request. *)
Definition through_gateway (lookup : M json) (path : pystr) : Prop :=
  forall st r st',
    lookup st = (Ok r, st') ->
    count_of path (_quota_counter (self st')) = used_today path st + 1
    /\ (clock (env st) <= last_request_time (self st'))%Z.

Definition geo_path : pystr := py "/v3/geocode/geo".

Definition geo_answer : json :=
  obj [("status", jstr "1");
       ("geocodes",
        JArr [obj [("formatted_address", jstr "北京市海淀区中关村大街1号");
                   ("province", jstr "北京市"); ("city", JArr []);
                   ("district", jstr "海淀区"); ("adcode", jstr "110108")]])].

(** The decoded answer of the next exchange with the provider; none when
    no exchange is left, the connection fails or the body is no JSON. *)
Definition next_answer (st : state) : option json :=
  match inbox (env st) with
  | x :: _ =>
      match reply x with
      | Decoded j => Some j
      | _ => None
      end
  | [] => None
  end.

(** A parameter that [urlencode] cannot encode: a string with a
    surrogate. *)
Definition unencodable (v : json) : bool :=
  match v with
  | JStr s => existsb surrogate s
  | _ => false
  end.

(** What a lookup that opens its own connection gives for these
    parameters: the decoded answer, or the empty dict when a parameter
    cannot be encoded or the exchange fails. *)
Definition direct_answer (params : list json) (st : state) : json :=
  if existsb unencodable params then JObj []
  else match next_answer st with
       | Some j => j
       | None => JObj []
       end.

(** ** For the text cleaning *)

(** A computation of the model always returns a value of the given
    shape. *)
Definition returns {A} (c : M A) (P : A -> Prop) : Prop :=
  forall st, exists a st', c st = (Ok a, st') /\ P a.

Definition is_dict (v : json) : Prop := exists d, v = JObj d.

(** The text [_clean_address_string] returns, as a function of its
    argument alone. *)
Definition clean_text (address : pystr) : pystr :=
  join blank (dedup (split (normalized address)) []).

Definition lin_county_answer : json :=
  obj [("status", jstr "1");
       ("districts",
        JArr [obj [("province", jstr "山西省"); ("cityname", jstr "吕梁市");
                   ("name", jstr "临县"); ("adcode", jstr "141124")]])].

(** ** For the points of interest *)

(** The candidate is a dict whose [name] and [adname] are strings. *)
Definition has_names (poi : json) : Prop :=
  exists d n a,
    poi = JObj d
    /\ lookup (py "name") d = Some (JStr n)
    /\ lookup (py "adname") d = Some (JStr a).

Definition gate_poi : json :=
  obj [("name", jstr "清华大学东门"); ("adname", jstr "海淀区")].
Definition nameless_poi : json := obj [("adname", jstr "海淀区")].
Definition arealess_poi : json := obj [("name", jstr "清华大学")].

(** ** For the resolution chain *)

Definition keys_of (d : dict) : list pystr := map fst d.

Definition component_keys : list pystr :=
  map py ["province"; "city"; "district"; "street"; "building"; "unit";
          "room"; "name"; "phone"; "weather"].

Definition is_string (v : json) : Prop := exists s, v = JStr s.

(** The shape shared by every record the chain returns: the ten keys of
    [_empty_components], in its order, and strings under the five keys the
    parser fills from the text. *)
Definition well_formed (r : dict) : Prop :=
  keys_of r = component_keys
  /\ forall k, In k ["building"; "unit"; "room"; "name"; "phone"] ->
               exists s, lookup (py k) r = Some (JStr s).

(** The provider's answers for the city of Shenzhen: the district lookup
    knows the city but gives no province, and the geocode has an empty
    list where there is no district. *)
Definition shenzhen_district_answer : json :=
  obj [("status", jstr "1"); ("info", jstr "OK"); ("infocode", jstr "10000");
       ("districts",
        JArr [obj [("citycode", jstr "0755"); ("adcode", jstr "440300");
                   ("name", jstr "深圳市"); ("level", jstr "city");
                   ("districts", JArr [])]])].

Definition shenzhen_geo_answer : json :=
  obj [("status", jstr "1"); ("info", jstr "OK"); ("infocode", jstr "10000");
       ("geocodes",
        JArr [obj [("formatted_address", jstr "广东省深圳市");
                   ("province", jstr "广东省"); ("city", jstr "深圳市");
                   ("district", JArr []); ("township", JArr []);
                   ("adcode", jstr "440300"); ("street", JArr []);
                   ("level", jstr "市")]])].

(** A parse through the coordinate branch: the reverse geocode resolves,
    the weather of the area is fetched (and is not [None]), and the record
    that is returned has no weather. *)
Definition regeo_answer : json :=
  obj [("status", jstr "1");
       ("regeocode",
        obj [("addressComponent",
              obj [("province", jstr "北京市"); ("city", JArr []);
                   ("district", jstr "海淀区");
                   ("township", jstr "清华园街道");
                   ("adcode", jstr "110108")])])].

Definition weather_answer : json :=
  obj [("status", jstr "1");
       ("lives",
        JArr [obj [("weather", jstr "晴"); ("temperature", jstr "25");
                   ("winddirection", jstr "东"); ("windpower", jstr "≤3");
                   ("humidity", jstr "40");
                   ("reporttime", jstr "2025-01-02 10:00:00")]])].

Definition demo_address : pystr := py "清华大学东门".
Definition demo_coordinates : pystr := py "116.326,40.003".
Definition demo_state : state :=
  fresh (day "2025-01-02" 5000 [regeo_answer; weather_answer]).
Definition demo_components : dict :=
  fields [("province", jstr "北京市"); ("city", jstr "北京市");
          ("district", jstr "海淀区"); ("street", jstr "清华园街道");
          ("building", jstr "清华大学东门"); ("unit", jstr "");
          ("room", jstr ""); ("name", jstr ""); ("phone", jstr "");
          ("weather", JNull)].

(** ** For building, unit and room *)

(** The text in which the room is looked for: what is left of [s] once
    the unit is removed. *)
Definition without_unit (s : pystr) : pystr :=
  match search unit_pattern s with
  | Some m => replace s (m_group m) []
  | None => s
  end.

(** The room step on [text], as a relation between the text, the room and
    the text that is left: the patterns are tried in the order unmarked,
    letter-prefixed, hyphen-preceded; the first that matches gives the
    room; its text is removed wherever it occurs, then a closing [室]. *)
Definition room_step (text room rest : pystr) : Prop :=
  let taken (m : mtch) :=
    room = m_group m
    /\ rest = sub trailing_shi (const []) (replace text (m_group m) []) in
  (forall m, search unmarked_room text = Some m -> taken m)
  /\ (search unmarked_room text = None ->
      forall m, search lettered_room text = Some m -> taken m)
  /\ (search unmarked_room text = None ->
      search lettered_room text = None ->
      forall m, search hyphen_room text = Some m -> taken m)
  /\ (search unmarked_room text = None ->
      search lettered_room text = None ->
      search hyphen_room text = None ->
      room = [] /\ rest = text).

(** ** For the idempotence of the cleaning *)

Definition spaceless (t : pystr) : Prop := Forall (fun c => isspace c = false) t.

(** A token: a non-empty run of characters that are not blanks. *)
Definition token (t : pystr) : Prop := t <> [] /\ spaceless t.

(** The patterns with which [_clean_address_string] collapses repeated
    names: the four municipalities, the repeated administrative suffix,
    the repeated road, and the blank after an administrative suffix. *)
Definition collapse_patterns : list regex :=
  map municipality_pattern municipalities
  ++ [repeated_suffix; repeated_road; suffix_gap].

(** ** For the texts the patterns find *)

(** The texts a pattern can match, whatever stands around them: a
    look-around matches the empty text, a back-reference any text. *)
Fixpoint denotes (r : regex) (t : pystr) : Prop :=
  match r with
  | Eps => t = []
  | Cls p => exists c, t = [c] /\ p c = true
  | Str s => t = s
  | Seq a b => exists t1 t2, t = t1 ++ t2 /\ denotes a t1 /\ denotes b t2
  | Alt a b => denotes a t \/ denotes b t
  | Star a => exists ts, t = concat ts /\ Forall (denotes a) ts
  | Group _ a => denotes a t
  | Backref _ => True
  | Ahead _ | NotAhead _ | Behind _ | NotBehind _ | Eol => t = []
  end.

(** The matcher has gone from [st] to [st1] over the text [t]. *)
Definition moved (st st1 : mstate) (t : pystr) : Prop :=
  ahead st = t ++ ahead st1 /\ passed st1 = rev t ++ passed st.

(** [t] stands somewhere in [s]. *)
Definition occurs_in (t s : pystr) : Prop :=
  exists pre post, s = pre ++ t ++ post.

Definition all_of (p : char -> bool) (t : pystr) : Prop :=
  Forall (fun c => p c = true) t.

(** The endings [_extract_special_place] looks for after a name, the
    first pattern apart. *)
Definition special_place_endings : list pystr :=
  map py ["中学"; "小学"; "医院"; "大学"; "学院"; "政府"; "银行"; "商场";
          "广场"].

(** A mobile number as [_extract_contact_info] takes it: [1], a digit from
    3 to 9, nine decimal digits. *)
Definition mobile_number (t : pystr) : Prop :=
  exists c ds,
    t = py "1" ++ c :: ds
    /\ range 51 57 c = true /\ length ds = 9 /\ all_of isdigit ds.

(** A room number: two to four decimal digits. *)
Definition room_number (t : pystr) : Prop :=
  2 <= length t <= 4 /\ all_of isdigit t.

(** A unit: decimal digits, then [单元]. *)
Definition unit_text (t : pystr) : Prop :=
  exists ds, t = ds ++ py "单元" /\ ds <> [] /\ all_of isdigit ds.

(** ** For the gateway's counters *)

(** The text [_check_response] gives for an error code: the table's, or
    the provider's own [info] when the table has none. *)
Definition error_text (code : pystr) (info : json) : json :=
  match find (fun kv => eqb (py (fst kv)) code) ERROR_MESSAGES with
  | Some kv => jstr (snd kv)
  | None => info
  end.

Definition ip_path : pystr := py "/v3/ip".

(** A parser that has made its hundred searches of the day. *)
Definition search_quota_used : state :=
  State (Parser [] 0 100 [(place_text, 100)] (Some (py "2025-01-02")) None)
        (day "2025-01-02" 60000 [ok_answer]).

(** The fields of the parser that only [_check_quota] and
    [_get_district_by_name] write. *)
Definition quota_fields (p : parser) :=
  (key p, _quota_counter p, _quota_date p, _district_cache p).

(** ** For the district cache *)

(** The cache of [_get_district_by_name], empty while it does not exist. *)
Definition cache_of (st : state) : list (pystr * dict) :=
  match _district_cache (self st) with
  | Some c => c
  | None => []
  end.

(** The dict [_get_district_by_name] builds: these four keys, in this
    order. *)
Definition district_record (d : dict) : Prop :=
  keys_of d = map py ["province"; "city"; "district"; "adcode"].

(** Every entry of the cache is such a dict. *)
Definition cache_sound (st : state) : Prop :=
  forall name d, lookup name (cache_of st) = Some d -> district_record d.

(** ** For the weather *)

(** A dict with exactly these keys, in this order. *)
Definition has_keys (ks : list string) (v : json) : Prop :=
  exists d, v = JObj d /\ keys_of d = map py ks.

(** What [_get_weather_info] gives: [None], or the present weather (if the
    provider sent any) and the list of forecasts. *)
Definition weather_shape (v : json) : Prop :=
  v = JNull
  \/ exists current forecast,
       v = obj [("current", current); ("forecast", JArr forecast)]
       /\ (current = JNull
           \/ has_keys ["weather"; "temperature"; "wind"; "humidity";
                        "reporttime"] current)
       /\ Forall (has_keys ["date"; "week"; "day"; "night"]) forecast.

(** An answer with the present weather and the forecast of one day. *)
Definition forecast_answer : json :=
  obj [("status", jstr "1");
       ("lives",
        JArr [obj [("weather", jstr "晴"); ("temperature", jstr "25");
                   ("winddirection", jstr "东"); ("windpower", jstr "≤3");
                   ("humidity", jstr "40");
                   ("reporttime", jstr "2025-01-02 10:00:00")]]);
       ("forecasts",
        JArr [obj [("casts",
                    JArr [obj [("date", jstr "2025-01-03");
                               ("week", jstr "5");
                               ("dayweather", jstr "晴");
                               ("daytemp", jstr "3");
                               ("daywind", jstr "北");
                               ("daypower", jstr "4");
                               ("nightweather", jstr "多云");
                               ("nighttemp", jstr "1");
                               ("nightwind", jstr "北");
                               ("nightpower", jstr "≤3")]])]])].

(** ** For the lookups with caches of their own *)

Definition ip_answer : json :=
  obj [("status", jstr "1"); ("province", jstr "北京市");
       ("city", jstr "北京市"); ("adcode", jstr "110000");
       ("rectangle", jstr "116.01,39.66;116.79,40.21")].

Definition tips_answer : json :=
  obj [("status", jstr "1");
       ("tips", JArr [obj [("name", jstr "清华大学");
                           ("district", jstr "北京市海淀区");
                           ("address", jstr "双清路30号")]])].

Definition pois_answer : json :=
  obj [("status", jstr "1");
       ("pois", JArr [obj [("name", jstr "清华大学");
                           ("adname", jstr "海淀区")]])].

Definition haidian_answer : json :=
  obj [("status", jstr "1");
       ("districts",
        JArr [obj [("adcode", jstr "110108"); ("name", jstr "海淀区");
                   ("districts",
                    JArr [obj [("name", jstr "清华园街道")]])]])].

(** A computation on the object that leaves the fields of the gateway (the
    time of the last request, the number of requests, the counters) as
    they are, whether it returns or raises. *)
Definition keeps_self {A} (c : Obj.N A) : Prop :=
  forall o r o', c o = (r, o') -> self (base o') = self (base o).

(** The record has a weather of that shape. *)
Definition weather_field (r : dict) : Prop :=
  exists v, lookup (py "weather") r = Some v /\ weather_shape v.

(** ** For the components of a formatted address *)

(** What [_extract_address_components] may put in its dict: strings, under
    the keys [street], [building], [unit] and [room] only; a unit and a
    room of the usual form. *)
Definition component_entry (k : pystr) (v : json) : Prop :=
  exists s,
    v = JStr s
    /\ (k = py "street" \/ k = py "building"
        \/ (k = py "unit" /\ unit_text s)
        \/ (k = py "room" /\ room_number s)).

Definition components_ok (r : dict) : Prop :=
  (forall k v, lookup k r = Some v -> component_entry k v)
  /\ (lookup (py "unit") r <> None \/ lookup (py "room") r <> None ->
      lookup (py "building") r <> None).

(** * Properties *)

(** ** Contact details (C6) *)

(** C6. The specification expects phone ["13812345678"] and name ["张先生"]
    for the text ["张先生13812345678送货"]. The phone is found, but the name
    is not: the number is deleted from the text before the name is looked
    for, so the name is followed by ["送"] and the only candidate at a word
    end is ["生送货"], which does not begin with a family name. *)
Theorem extract_contact_info_zhang :
  _extract_contact_info (py "张先生13812345678送货") = ([], py "13812345678").
Proof. vm_compute. reflexivity. Qed.

(** With a blank after the honorific the name is found. *)
Example extract_contact_info_zhang_blank :
  _extract_contact_info (py "张先生 13812345678")
  = (py "张先生", py "13812345678").
Proof. vm_compute. reflexivity. Qed.

(** The candidate the name pattern finds once the number is gone. *)
Example name_candidate_after_phone :
  option_map m_group (search name_pattern (py "张先生送货")) = Some (py "生送货").
Proof. vm_compute. reflexivity. Qed.

(** ** The gateway (C3, C4, C5) *)

Lemma eqb_refl (s : pystr) : eqb s s = true.
Proof. induction s as [|c s IH]; simpl; [reflexivity|]. now rewrite N.eqb_refl. Qed.

Lemma eqb_eq (a b : pystr) : eqb a b = true <-> a = b.
Proof.
  split; [|intros ->; apply eqb_refl].
  revert b; induction a as [|x a IH]; intros [|y b]; simpl; try discriminate; auto.
  intros H. apply andb_true_iff in H as [H1 H2].
  apply N.eqb_eq in H1. subst. f_equal. now apply IH.
Qed.

Lemma lookup_store_same {V} (k : pystr) (v : V) d : lookup k (store k v d) = Some v.
Proof.
  induction d as [|[k' v'] d IH]; simpl.
  - now rewrite eqb_refl.
  - destruct (eqb k k') eqn:E; simpl.
    + now rewrite eqb_refl.
    + now rewrite E.
Qed.

Lemma lookup_store_other {V} (k k' : pystr) (v : V) d :
  eqb k' k = false -> lookup k' (store k v d) = lookup k' d.
Proof.
  intros Hk. induction d as [|[k0 v0] d IH]; simpl.
  - now rewrite Hk.
  - destruct (eqb k k0) eqn:E; simpl.
    + apply eqb_eq in E. subst. now rewrite Hk.
    + destruct (eqb k' k0); auto.
Qed.

Lemma count_of_store (path : pystr) (n : nat) counter :
  count_of path (store path n counter) = n.
Proof. unfold count_of. now rewrite lookup_store_same. Qed.

(** [_check_quota] charges the attempt and answers whether the new count
    is within the limit; it stores the date it has seen. *)
Lemma check_quota_spec (path : pystr) (st : state) :
  let (r, st') := _check_quota path st in
  r = Ok (used_today path st + 1 <=? quota_of path)
  /\ env st' = env st
  /\ _quota_date (self st') = Some (today (env st))
  /\ count_of path (_quota_counter (self st')) = used_today path st + 1
  /\ last_request_time (self st') = last_request_time (self st).
Proof.
  unfold _check_quota, used_today, bind, get_env, get_self, set_self, ret.
  destruct st as [p w]; simpl.
  rewrite !count_of_store.
  destruct (_quota_date p) as [d|] eqn:E; simpl.
  - destruct (eqb d (today w)) eqn:E'; simpl; repeat split; auto.
    apply eqb_eq in E'. now subst.
  - repeat split.
Qed.

(** Whatever goes wrong inside [_make_request], the caller sees an
    [AmapError] whose code is "30000": the handler at the end of the method
    also catches the errors the method raises itself. *)
Lemma make_request_raises_30000 (path : pystr) (params : dict) (st st' : state) e :
  _make_request path params st = (Raise e, st') ->
  exists message, e = AmapError (jstr "30000") message.
Proof.
  unfold _make_request, try_except.
  destruct (bind _ _ st) as [[r|e0] st0]; [discriminate|].
  destruct e0; unfold bind, get_env, raise; simpl; intros H; inversion H; eauto.
Qed.

(** Past the limit the request is refused before anything is sent. *)
Lemma make_request_over_quota (path : pystr) (params : dict) (st : state) :
  quota_of path < used_today path st + 1 ->
  let (r, st') := _make_request path params st in
  r = Raise (AmapError (jstr "30000")
               (JStr (py "请求失败: 错误码 10003: 超出日配额限制")))
  /\ env st' = env st
  /\ last_request_time (self st') = last_request_time (self st).
Proof.
  intros Hq.
  pose proof (check_quota_spec path st) as Hc.
  unfold _make_request, try_except, bind at 1.
  destruct (_check_quota path st) as [r st1].
  destruct Hc as (-> & Henv & _ & _ & Hl).
  assert ((used_today path st + 1 <=? quota_of path) = false) as ->
    by (apply Nat.leb_gt; lia).
  cbv beta iota delta [negb raise bind get_env fst snd].
  split; [vm_compute; reflexivity|]. split; assumption.
Qed.

(** C3. On one day the first hundred requests for a POI-search path pass
    and the next one is refused, and after midnight a request passes
    again, as the specification says. What the caller receives for the
    refused request, however, is not the quota error (code "10003") that
    the method raises: its own handler catches it and raises the general
    failure "30000" with the quota error's text as message. *)
Theorem quota_refusal_reaches_caller_as_30000 :
  let st0 := fresh (day "2025-01-02" 0 (repeat ok_answer 101)) in
  let (first_hundred, st100) := requests 100 place_text st0 in
  let (refused, st101) := _make_request place_text [] st100 in
  let (next_morning, _) :=
    _make_request place_text [] (next_day "2025-01-03" st101) in
  forallb is_ok first_hundred = true
  /\ refused = Raise (AmapError (jstr "30000")
                        (JStr (py "请求失败: 错误码 10003: 超出日配额限制")))
  /\ refused <> Raise (AmapError (jstr "10003") (jstr "超出日配额限制"))
  /\ next_morning = Ok ok_answer.
Proof. vm_compute. repeat split; try reflexivity. discriminate. Qed.

(** The limits: a hundred a day for the paths that begin with
    ["/v3/place"], five thousand for the others. *)
Example quota_of_paths :
  quota_of place_text = 100 /\ quota_of weather_path = 5000
  /\ quota_of (py "/v5/place/text") = 5000.
Proof. vm_compute. auto. Qed.

(** An error code that is not in the table keeps the provider's text. *)
Example check_response_unknown_code :
  fst (_check_response
         (obj [("status", jstr "0"); ("info", jstr "ENGINE_RESPONSE_DATA_ERROR");
               ("infocode", jstr "30001")])
         (fresh (day "2025-01-02" 0 [])))
  = Raise (AmapError (jstr "30001") (jstr "ENGINE_RESPONSE_DATA_ERROR")).
Proof. vm_compute. reflexivity. Qed.

(** C4. The provider answers with status "0", code "10001". The
    specification expects an error with that code and the table's text for
    it. [_check_response] raises exactly that, but [_make_request] catches
    it in its own handler: the caller receives code "30000" and a message
    that quotes the original error. *)
Theorem service_error_reaches_caller_as_30000 :
  let st0 := fresh (day "2025-01-02" 0 [invalid_key_answer]) in
  fst (_check_response invalid_key_answer st0)
  = Raise (AmapError (jstr "10001") (jstr "API密钥不正确或已过期"))
  /\ fst (_make_request (py "/v3/ip") [] st0)
     = Raise (AmapError (jstr "30000")
                (JStr (py "请求失败: 错误码 10001: API密钥不正确或已过期"))).
Proof. vm_compute. split; reflexivity. Qed.

Lemma rate_limit_spec (st : state) :
  let (r, st') := _rate_limit st in
  r = Ok tt
  /\ (clock (env st) <= last_request_time (self st'))%Z
  /\ last_request_time (self st') = clock (env st')
  /\ _quota_counter (self st') = _quota_counter (self st)
  /\ inbox (env st') = inbox (env st).
Proof.
  destruct st as [p w].
  unfold _rate_limit, bind, get_env, get_self, set_self, sleep, ret;
    cbn [env self clock].
  destruct (clock w - last_request_time p <? 100)%Z eqn:E;
    cbn [env self clock last_request_time _quota_counter inbox];
    repeat split; try reflexivity; lia.
Qed.

Lemma fetch_keeps_self (st : state) : self (snd (fetch st)) = self st.
Proof. unfold fetch. destruct (inbox (env st)); reflexivity. Qed.

Lemma urlencode_keeps_state (params : dict) (st : state) :
  snd (urlencode params st) = st.
Proof. unfold urlencode. destruct (existsb _ params); reflexivity. Qed.

Lemma check_response_keeps_state (result : json) (st : state) :
  snd (_check_response result st) = st.
Proof.
  unfold _check_response, bind, lift, raise, ret.
  destruct (negb (truthy result)); [reflexivity|].
  destruct (get result "status" JNull); [|reflexivity].
  destruct (get result "info" JNull); [|reflexivity].
  destruct (get result "infocode" JNull); [|reflexivity].
  destruct (negb (is_str a (py "1"))); [|reflexivity].
  destruct (table_get ERROR_MESSAGES a1 a0); reflexivity.
Qed.

(** The lookups that use [_make_request] are charged and timed. *)
Lemma make_request_through_gateway (path : pystr) (params : dict) :
  through_gateway (_make_request path params) path.
Proof.
  intros st r st' H.
  unfold _make_request, try_except in H.
  destruct (bind _ _ st) as [[r0|e] st0] eqn:E.
  2:{ destruct e; unfold bind, get_env, raise in H; simpl in H; discriminate. }
  inversion H; subst; clear H.
  unfold bind at 1 in E.
  pose proof (check_quota_spec path st) as Hq.
  destruct (_check_quota path st) as [ok st1].
  destruct Hq as (-> & Henv & _ & Hc & _).
  unfold bind at 1 in E.
  destruct (used_today path st + 1 <=? quota_of path); simpl in E;
    [|discriminate].
  unfold bind at 1 in E.
  pose proof (rate_limit_spec st1) as Hr.
  destruct (_rate_limit st1) as [u st2].
  destruct Hr as (-> & Hclock & _ & Hcnt & _).
  unfold bind at 1 in E.
  pose proof (urlencode_keeps_state params st2) as Hu.
  destruct (urlencode params st2) as [[[]|e] st3]; simpl in Hu; subst;
    [|discriminate].
  unfold bind at 1 in E.
  pose proof (fetch_keeps_self st2) as Hf.
  destruct (fetch st2) as [[j|e] st4]; simpl in Hf; [|discriminate].
  unfold bind at 1 in E.
  pose proof (check_response_keeps_state j st4) as Hk.
  destruct (_check_response j st4) as [[[]|e] st5]; simpl in Hk; subst;
    [|discriminate].
  unfold ret in E. inversion E; subst.
  rewrite Hf, Hcnt, Hc, <- Henv. split; [reflexivity | exact Hclock].
Qed.

(** C5, refuted as stated: [_geo_code] does not go through the gateway. A
    forward geocode that succeeds on a fresh parser at time 5000 leaves the
    counter of its path empty and the time of the last request at 0. *)
Lemma geo_code_not_through_gateway :
  ~ through_gateway (_geo_code (py "北京市海淀区中关村大街1号")) geo_path.
Proof.
  intros H.
  specialize (H (fresh (day "2025-01-02" 5000 [geo_answer])) geo_answer
                (State __init__ (day "2025-01-02" 5020 []))).
  vm_compute in H. destruct H as [H _]; [reflexivity | discriminate H].
Qed.

Lemma direct_request_spec (params : parser -> dict) (st : state) :
  let c := try_except (p <- get_self ;; urlencode (params p) ;; fetch)
             (fun _ => ret (JObj [])) in
  fst (c st) = Ok (direct_answer (map snd (params (self st))) st)
  /\ self (snd (c st)) = self st.
Proof.
  cbv zeta. unfold try_except, bind, get_self, ret, direct_answer.
  assert (existsb unencodable (map snd (params (self st)))
          = existsb (fun kv => match snd kv with
                               | JStr s => existsb surrogate s
                               | _ => false
                               end) (params (self st))) as ->.
  { induction (params (self st)) as [|kv l IH]; [reflexivity|].
    simpl. now rewrite IH. }
  unfold urlencode.
  destruct (existsb _ (params (self st))); [split; reflexivity|].
  unfold ret, fetch, next_answer.
  destruct (inbox (env st)) as [|x rest]; [split; reflexivity|].
  destruct (reply x); split; reflexivity.
Qed.

(** C5, as the code has it: forward and reverse geocoding open their own
    connection. They never raise: each returns the decoded answer of the
    provider, or the empty dict when a parameter cannot be encoded, the
    exchange fails or the body is no JSON. And they leave every field of
    the parser as it was, whether the request succeeds or not: the time of
    the last request, the number of requests and the daily counters. *)
Theorem geocoding_bypasses_gateway :
  forall (address : pystr) (location : json) (st : state),
    fst (_geo_code address st)
    = Ok (direct_answer [JStr address; JStr (key (self st)); jstr "json"] st)
    /\ self (snd (_geo_code address st)) = self st
    /\ fst (_regeo_code location st)
       = Ok (direct_answer [location; JStr (key (self st)); jstr "all";
                            jstr "json"] st)
    /\ self (snd (_regeo_code location st)) = self st.
Proof.
  intros address location st.
  destruct (direct_request_spec
              (fun p => [(py "address", JStr address); (py "key", JStr (key p));
                         (py "output", jstr "json")]) st) as [H1 H2].
  destruct (direct_request_spec
              (fun p => [(py "location", location); (py "key", JStr (key p));
                         (py "extensions", jstr "all");
                         (py "output", jstr "json")]) st) as [H3 H4].
  repeat split; assumption.
Qed.

(** ** Text cleaning (C2, C8) *)

Lemma bind_ok {A B} (c : M A) (k : A -> M B) st r st' :
  bind c k st = (Ok r, st') ->
  exists a st1, c st = (Ok a, st1) /\ k a st1 = (Ok r, st').
Proof.
  unfold bind. destruct (c st) as [[a|e] st1]; [eauto | discriminate].
Qed.

Lemma bind_step {A B} {c : M A} (k : A -> M B) {st a st1} :
  c st = (Ok a, st1) -> bind c k st = k a st1.
Proof. unfold bind. now intros ->. Qed.

Lemma try_except_ok {A} {c : M A} (h : exn -> M A) {st a st1} :
  c st = (Ok a, st1) -> try_except c h st = (Ok a, st1).
Proof. unfold try_except. now intros ->. Qed.

Lemma try_except_raise {A} {c : M A} (h : exn -> M A) {st e st1} :
  c st = (Raise e, st1) -> try_except c h st = h e st1.
Proof. unfold try_except. now intros ->. Qed.

Lemma lift_ok {A} (o : outcome A) (a : A) st st' :
  lift o st = (Ok a, st') -> o = Ok a /\ st' = st.
Proof. unfold lift. intros H; inversion H; auto. Qed.

Lemma ret_ok {A} (a r : A) st st' : ret a st = (Ok r, st') -> r = a /\ st' = st.
Proof. unfold ret. intros H; inversion H; auto. Qed.

Ltac inv_bind H :=
  let a := fresh "a" in
  let st1 := fresh "st" in
  let H1 := fresh "H" in
  apply bind_ok in H as (a & st1 & H1 & H);
  try (apply ret_ok in H1 as [? ?]; subst).

Lemma returns_bind {A B} (c : M A) (k : A -> M B) P Q :
  returns c P -> (forall a, P a -> returns (k a) Q) -> returns (bind c k) Q.
Proof.
  intros Hc Hk st. destruct (Hc st) as (a & st1 & E & Ha).
  destruct (Hk a Ha st1) as (b & st2 & E' & Hb).
  exists b, st2. unfold bind. rewrite E. auto.
Qed.

Lemma returns_ret {A} (a : A) (P : A -> Prop) : P a -> returns (ret a) P.
Proof. intros H st. exists a, st. auto. Qed.

(** A handler that returns makes the whole return, provided the protected
    block, when it returns, returns a value of the right shape. *)
Lemma returns_try {A} (c : M A) (h : exn -> M A) (P : A -> Prop) :
  (forall st a st', c st = (Ok a, st') -> P a) ->
  (forall e, returns (h e) P) ->
  returns (try_except c h) P.
Proof.
  intros Hc Hh st. unfold try_except.
  destruct (c st) as [[a|e] st1] eqn:E.
  - exists a, st1. split; [reflexivity | eapply Hc; eauto].
  - apply Hh.
Qed.

(** The model of [_get_district_by_name] always returns, and returns a
    dict. (The source returns that dict, or raises in its handler, see
    [try_except].) *)
Lemma get_district_by_name_returns_dict (name : pystr) :
  returns (_get_district_by_name name) is_dict.
Proof.
  unfold _get_district_by_name. apply returns_try.
  2:{ intros e. apply returns_ret. now exists []. }
  intros st a st' H.
  inv_bind H. inv_bind H.
  destruct (lookup name _) as [info|].
  - apply ret_ok in H as [-> _]. now exists info.
  - inv_bind H. inv_bind H. inv_bind H.
    match type of H with context [truthy ?x] => destruct (truthy x) end.
    + repeat inv_bind H. apply ret_ok in H as [-> _]. eexists; reflexivity.
    + apply ret_ok in H as [-> _]. now exists [].
Qed.

Lemma county_loop_returns (matches : list mtch) (address : pystr) :
  returns (county_loop matches address) (fun _ => True).
Proof.
  revert address. induction matches as [|mt rest IH]; intros address; simpl.
  - now apply returns_ret.
  - apply returns_bind with (P := fun _ => True); [|intros; apply IH].
    destruct (negb _); [|now apply returns_ret].
    eapply returns_bind; [apply get_district_by_name_returns_dict|].
    intros v [d ->].
    destruct (truthy (JObj d)); [|now apply returns_ret].
    unfold get, lift, bind, get_env, ret.
    intros st. eauto.
Qed.

Lemma county_pass_returns (patterns : list regex) (address : pystr) :
  returns (county_pass patterns address) (fun _ => True).
Proof.
  revert address. induction patterns as [|p rest IH]; intros address; simpl.
  - now apply returns_ret.
  - eapply returns_bind; [apply county_loop_returns|]. intros; apply IH.
Qed.

(** The model of [_clean_address_string] always returns, and what it
    returns does not depend on the county lookups it makes: the province
    and city they resolve are prepended to the local [address], which is
    not what the method returns. (In the source a lookup can raise in its
    handler, see [try_except]; the method has no handler of its own.) *)
Lemma clean_address_string_value (address : pystr) (st : state) :
  exists st', _clean_address_string address st = (Ok (clean_text address), st').
Proof.
  unfold _clean_address_string, clean_text, bind.
  destruct (county_pass_returns county_patterns (normalized address) st)
    as (a & st' & -> & _).
  exists st'. reflexivity.
Qed.

(** C8. The county ["临县"] stands alone, the district lookup resolves it to
    province ["山西省"] and city ["吕梁市"] (the answer is in the cache
    afterwards), and yet [_clean_address_string] returns ["临县"]: the
    resolved names are prepended to the local variable [address] after the
    parts to be returned were taken from it. *)
Theorem clean_address_string_drops_resolved_county :
  let st0 := fresh (day "2025-01-02" 0 [lin_county_answer]) in
  let (r, st1) := _clean_address_string (py "临县") st0 in
  r = Ok (py "临县")
  /\ r <> Ok (py "山西省吕梁市临县")
  /\ option_map (lookup (py "临县")) (_district_cache (self st1))
     = Some (Some (fields [("province", jstr "山西省"); ("city", jstr "吕梁市");
                           ("district", jstr "临县");
                           ("adcode", jstr "141124")])).
Proof. vm_compute. repeat split; try reflexivity. discriminate. Qed.

(** The local [address] after the county loops, in the same run: the
    prepended text exists, and is dropped. *)
Example county_pass_prepends :
  fst (county_pass county_patterns (py "临县")
         (fresh (day "2025-01-02" 0 [lin_county_answer])))
  = Ok (py "山西省吕梁市临县").
Proof. vm_compute. reflexivity. Qed.

(** ** Points of interest (C10) *)

Lemma plus_o_ok (a b : outcome nat) n :
  plus_o a b = Ok n -> exists x y, a = Ok x /\ b = Ok y.
Proof. destruct a, b; simpl; intros H; try discriminate; eauto. Qed.

Lemma in_str_dget_ok (d : dict) (k : string) (address : pystr) b :
  in_str (dget d k JNull) address = Ok b ->
  exists s, lookup (py k) d = Some (JStr s).
Proof.
  unfold dget. destruct (lookup (py k) d) as [[| | |s| |]|]; simpl;
    intros H; try discriminate; eauto.
Qed.

Lemma poi_score_ok (poi : json) (address : pystr) n :
  poi_score poi address = Ok n -> has_names poi.
Proof.
  unfold poi_score. intros H.
  apply plus_o_ok in H as (x & y & Hname & H).
  apply plus_o_ok in H as (_ & y' & _ & H).
  apply plus_o_ok in H as (x' & _ & Hadname & _).
  destruct poi as [| | | | |d]; try discriminate.
  simpl in Hname, Hadname.
  destruct (in_str (dget d "name" JNull) address) as [b|] eqn:E1;
    [|discriminate].
  destruct (in_str (dget d "adname" JNull) address) as [b'|] eqn:E2;
    [|discriminate].
  apply in_str_dget_ok in E1 as [n1 E1]. apply in_str_dget_ok in E2 as [n2 E2].
  exists d, n1, n2. auto.
Qed.

Lemma score_all_ok (pois : list json) (address : pystr) l :
  score_all pois address = Ok l -> Forall has_names pois.
Proof.
  revert l. induction pois as [|poi rest IH]; intros l H; [constructor|].
  simpl in H.
  destruct (poi_score poi address) as [s|] eqn:E; [|discriminate].
  simpl in H.
  destruct (score_all rest address) as [l'|] eqn:E'; [|discriminate].
  constructor; [eapply poi_score_ok; eauto | eapply IH; eauto].
Qed.

(** C10. [_find_best_poi_match] returns only when every candidate is a
    dict with a string under [name] and under [adname]. A first candidate
    without [name] makes it raise [TypeError] at the first test
    ([None in address]); so does a first candidate that has a string
    [name], no [address] and no [adname], at the third test. *)
Theorem find_best_poi_match_needs_names :
  (forall pois address r,
     _find_best_poi_match pois address = Ok r -> Forall has_names pois)
  /\ (forall d rest address,
        lookup (py "name") d = None ->
        _find_best_poi_match (JObj d :: rest) address = Raise TypeError)
  /\ (forall d n rest address,
        lookup (py "name") d = Some (JStr n) ->
        lookup (py "address") d = None ->
        lookup (py "adname") d = None ->
        _find_best_poi_match (JObj d :: rest) address = Raise TypeError).
Proof.
  split; [|split].
  - intros [|poi rest] address r H; [constructor|].
    unfold _find_best_poi_match in H.
    destruct (score_all (poi :: rest) address) as [l|] eqn:E; [|discriminate].
    eapply score_all_ok; eauto.
  - intros d rest address Hn.
    unfold _find_best_poi_match, score_all, poi_score, get, dget.
    rewrite Hn. reflexivity.
  - intros d n rest address Hn Ha Had.
    unfold _find_best_poi_match, score_all, poi_score, get, dget, item.
    rewrite Hn, Ha, Had. simpl.
    destruct (contains address n); reflexivity.
Qed.

(** The three parts of the statement at concrete candidates: a list of
    well-formed candidates on which the method returns, a candidate
    without [name], a candidate without [adname]. *)
Lemma find_best_poi_match_needs_names_witness :
  Forall has_names [gate_poi]
  /\ _find_best_poi_match [nameless_poi; gate_poi] (py "清华大学东门")
     = Raise TypeError
  /\ _find_best_poi_match [arealess_poi] (py "清华大学东门") = Raise TypeError.
Proof.
  destruct find_best_poi_match_needs_names as (H1 & H2 & H3).
  split; [|split].
  - apply (H1 [gate_poi] (py "清华大学东门") (Some gate_poi)).
    vm_compute. reflexivity.
  - apply (H2 (fields [("adname", jstr "海淀区")]) [gate_poi]
             (py "清华大学东门")).
    vm_compute. reflexivity.
  - apply (H3 (fields [("name", jstr "清华大学")]) (py "清华大学") []
             (py "清华大学东门")); vm_compute; reflexivity.
Defined.

(** Ties go to the candidate met first. *)
Example find_best_poi_match_tie :
  _find_best_poi_match
    [obj [("name", jstr "东门"); ("adname", jstr "海淀区")];
     obj [("name", jstr "清华"); ("adname", jstr "海淀区")]]
    (py "海淀区清华大学东门")
  = Ok (Some (obj [("name", jstr "东门"); ("adname", jstr "海淀区")])).
Proof. vm_compute. reflexivity. Qed.

(** ** The resolution chain (C1, C9) *)

Lemma store_keys (k : pystr) (v : json) (d : dict) :
  In k (keys_of d) -> keys_of (store k v d) = keys_of d.
Proof.
  induction d as [|[k' v'] d IH]; simpl; [tauto|].
  intros [->|H].
  - now rewrite eqb_refl.
  - destruct (eqb k k') eqn:E; simpl.
    + apply eqb_eq in E. now subst.
    + f_equal. auto.
Qed.

Lemma eqb_neq (a b : pystr) : a <> b -> eqb a b = false.
Proof.
  intros H. destruct (eqb a b) eqn:E; [|reflexivity].
  apply eqb_eq in E. contradiction.
Qed.

Lemma well_formed_store (k : pystr) (v : json) (r : dict) :
  well_formed r ->
  In k component_keys ->
  (In k (map py ["building"; "unit"; "room"; "name"; "phone"]) -> is_string v) ->
  well_formed (store k v r).
Proof.
  intros [Hk Hs] Hin Hv. split.
  - rewrite store_keys; [assumption | now rewrite Hk].
  - intros k' Hk'.
    destruct (eqb (py k') k) eqn:E.
    + apply eqb_eq in E. subst k. rewrite lookup_store_same.
      destruct Hv as [s ->]; [|eauto].
      now apply in_map.
    + rewrite lookup_store_other; auto.
Qed.

Lemma well_formed_components_of (province city district street : json) :
  well_formed (components_of province city district street).
Proof.
  split; [reflexivity|].
  intros k Hk. simpl in Hk.
  repeat (destruct Hk as [<-|Hk]; [eexists; vm_compute; reflexivity|]).
  contradiction.
Qed.

Lemma well_formed_empty : well_formed _empty_components.
Proof. apply (well_formed_components_of (jstr "") (jstr "") (jstr "") (jstr "")). Qed.

(** What [_extract_building_info] returns when it returns: three strings
    under [building], [unit] and [room]. *)
Lemma extract_building_info_shape (address : pystr) (components : dict) st r st' :
  _extract_building_info address components st = (Ok r, st') ->
  exists b u rm,
    r = fields [("building", JStr b); ("unit", JStr u); ("room", JStr rm)].
Proof.
  unfold _extract_building_info. intros H.
  inv_bind H. inv_bind H. inv_bind H.
  destruct (special_hit special_keywords address) as [keep|].
  - inv_bind H. inv_bind H. apply ret_ok in H as [-> _].
    unfold jstr. eauto.
  - destruct (unit_and_room _) as [[u rm] rem].
    apply ret_ok in H as [-> _]. eauto.
Qed.

Ltac key_in := vm_compute; tauto.

(** [components.update(building_info)] keeps the shape, and the keys
    other than [building], [unit] and [room]. *)
Lemma well_formed_update (r : dict) (b u rm : pystr) :
  well_formed r ->
  well_formed (update r (fields [("building", JStr b); ("unit", JStr u);
                                 ("room", JStr rm)])).
Proof.
  intros H. unfold update, fields. simpl.
  repeat (apply well_formed_store; [| key_in | intros _; eexists; reflexivity]).
  exact H.
Qed.

Lemma update_keeps_weather (r : dict) (b u rm : pystr) :
  lookup (py "weather")
    (update r (fields [("building", JStr b); ("unit", JStr u);
                       ("room", JStr rm)]))
  = lookup (py "weather") r.
Proof.
  unfold update, fields. simpl.
  rewrite !lookup_store_other; reflexivity.
Qed.

(** The record of the coordinate branch: well formed, and without
    weather. *)
Lemma by_coordinates_shape (address : pystr) (location : json) st r st' :
  by_coordinates address location st = (Ok (Some r), st') ->
  well_formed r /\ lookup (py "weather") r = Some JNull.
Proof.
  unfold by_coordinates. intros H.
  destruct (truthy location); [|apply ret_ok in H as [? _]; discriminate].
  inv_bind H. inv_bind H. inv_bind H.
  match type of H with context [truthy ?x] => destruct (truthy x) end;
    [|apply ret_ok in H as [? _]; discriminate].
  do 8 inv_bind H. inv_bind H. inv_bind H.
  apply ret_ok in H as [E _]. inversion E; subst r; clear E.
  match goal with
  | H : match address with _ => _ end _ = (Ok ?c, _) |- _ =>
      rename H into Hc
  end.
  destruct address as [|ch address].
  - apply ret_ok in Hc as [-> _].
    split; [apply well_formed_components_of | reflexivity].
  - destruct (_extract_contact_info (ch :: address)) as [name phone].
    inv_bind Hc. apply ret_ok in Hc as [-> _].
    match goal with
    | H : _extract_building_info _ _ _ = _ |- _ =>
        apply extract_building_info_shape in H as (b & u & rm & ->)
    end.
    split.
    + apply well_formed_update.
      do 2 (apply well_formed_store;
            [| key_in | intros _; eexists; reflexivity]).
      apply well_formed_components_of.
    + rewrite update_keeps_weather.
      rewrite !lookup_store_other; reflexivity.
Qed.

Lemma well_formed_store_weather (weather : json) (r : dict) :
  well_formed r -> well_formed (store (py "weather") weather r).
Proof.
  intros H. apply well_formed_store; [exact H | key_in |].
  vm_compute. intuition discriminate.
Qed.

(** The record of the district-name branch is well formed. *)
Lemma by_district_shape (clean_address : pystr) st r st' :
  by_district clean_address st = (Ok (Some r), st') -> well_formed r.
Proof.
  unfold by_district. intros H.
  inv_bind H. inv_bind H.
  match type of H with context [truthy ?x] => destruct (truthy x) end;
    [|apply ret_ok in H as [? _]; discriminate].
  do 4 inv_bind H. inv_bind H.
  apply ret_ok in H as [E _]. inversion E; subst r; clear E.
  match goal with
  | H : (if truthy ?x then _ else _) _ = (Ok _, _) |- _ =>
      destruct (truthy x);
      [inv_bind H; inv_bind H; apply ret_ok in H as [-> _];
       apply well_formed_store_weather
      | apply ret_ok in H as [-> _]]
  end.
  all: match goal with
       | |- well_formed (if ?c then _ else _) => destruct c
       end.
  all: try (apply well_formed_store;
            [| key_in | intros _; eexists; reflexivity]).
  all: apply well_formed_components_of.
Qed.

(** The record of the geocode branch is well formed. *)
Lemma by_geocode_shape (clean_address : pystr) st r st' :
  by_geocode clean_address st = (Ok (Some r), st') -> well_formed r.
Proof.
  unfold by_geocode. intros H.
  inv_bind H. inv_bind H. inv_bind H.
  match type of H with context [truthy ?x] => destruct (truthy x) end;
    [|apply ret_ok in H as [? _]; discriminate].
  do 7 inv_bind H. inv_bind H.
  destruct (_extract_contact_info _) as [name phone].
  inv_bind H. inv_bind H.
  apply ret_ok in H as [E _]. inversion E; subst r; clear E.
  match goal with
  | H : _extract_building_info _ _ _ = _ |- _ =>
      apply extract_building_info_shape in H as (b & u & rm & ->)
  end.
  match goal with
  | H : context [_extract_possible_street] |- _ => rename H into Hs
  end.
  match type of Hs with _ = (Ok ?c, _) =>
    assert (well_formed c) as Hwf
  end.
  { match type of Hs with context [truthy ?x] =>
      destruct (truthy x);
      [inv_bind Hs; apply ret_ok in Hs as [-> _]
      | apply ret_ok in Hs as [-> _]]
    end.
    - match goal with |- well_formed (match ?s with _ => _ end) =>
        destruct s end.
      + apply well_formed_components_of.
      + apply well_formed_store;
          [apply well_formed_components_of | key_in |].
        vm_compute. intuition discriminate.
    - apply well_formed_components_of. }
  clear Hs.
  match goal with
  | H : (if truthy ?x then _ else _) _ = (Ok _, _) |- _ =>
      destruct (truthy x);
      [inv_bind H; inv_bind H; apply ret_ok in H as [-> _];
       apply well_formed_store_weather
      | apply ret_ok in H as [-> _]]
  end.
  all: do 2 (apply well_formed_store;
             [| key_in | intros _; eexists; reflexivity]).
  all: now apply well_formed_update.
Qed.

Lemma returns_at {A} (c : M A) (P : A -> Prop) st a st' :
  returns c P -> c st = (Ok a, st') -> P a.
Proof.
  intros Hc E. destruct (Hc st) as (a' & st1 & E' & Ha).
  rewrite E in E'. now inversion E'; subst.
Qed.

(** The definitions that begin with [_clean_address_string], unfolded by
    rewriting. *)
Lemma by_text_body_eq (address : pystr) :
  by_text_body address
  = (clean_address <- _clean_address_string address ;;
     resolved <- by_district clean_address ;;
     match resolved with
     | Some components => ret (Some components)
     | None => by_geocode clean_address
     end).
Proof. reflexivity. Qed.

Lemma parse_address_body_eq (address : pystr) (coordinates coordsys : option pystr) :
  parse_address_body address coordinates coordsys
  = (_clean_address_string address ;;
     location <- location_of coordinates coordsys ;;
     resolved <- by_coordinates address location ;;
     match resolved with
     | Some components => ret components
     | None => _parse_address_by_text address
     end).
Proof. reflexivity. Qed.

Lemma parse_address_eq (address : pystr) (coordinates coordsys : option pystr) :
  parse_address address coordinates coordsys
  = try_except (parse_address_body address coordinates coordsys)
      (fun _ => ret _empty_components).
Proof. reflexivity. Qed.

(** [_parse_address_by_text] never raises; its record is well formed. *)
Lemma parse_address_by_text_returns (address : pystr) :
  returns (_parse_address_by_text address) well_formed.
Proof.
  unfold _parse_address_by_text.
  apply returns_bind
    with (P := fun r => match r with
                        | Some c => well_formed c
                        | None => True
                        end).
  - apply returns_try; [|intros e; now apply returns_ret].
    intros st [r|] st' H; [|exact I].
    rewrite by_text_body_eq in H. inv_bind H. inv_bind H.
    match type of H with
    | match ?x with _ => _ end _ = _ => destruct x as [c|]
    end.
    + apply ret_ok in H as [E _]. inversion E; subst.
      eapply by_district_shape; eauto.
    + eapply by_geocode_shape; eauto.
  - intros [c|] Hc; apply returns_ret; [exact Hc | apply well_formed_empty].
Qed.

(** [parse_address] never raises; its record is well formed. *)
Lemma parse_address_returns (address : pystr) (coordinates coordsys : option pystr) :
  returns (parse_address address coordinates coordsys) well_formed.
Proof.
  unfold parse_address. apply returns_try.
  2:{ intros e. apply returns_ret, well_formed_empty. }
  intros st r st' H.
  rewrite parse_address_body_eq in H. inv_bind H. inv_bind H. inv_bind H.
  match type of H with
  | match ?x with _ => _ end _ = _ => destruct x as [c|]
  end.
  - apply ret_ok in H as [-> _].
    match goal with
    | H : by_coordinates _ _ _ = _ |- _ =>
        apply by_coordinates_shape in H as [Hwf _]; exact Hwf
    end.
  - eapply returns_at; [apply parse_address_by_text_returns | exact H].
Qed.

Lemma well_formed_has_keys (r : dict) (k : pystr) :
  well_formed r -> In k component_keys -> exists v, lookup k r = Some v.
Proof.
  intros [Hk _]. rewrite <- Hk. clear Hk.
  induction r as [|[k' v'] r IH]; simpl; [tauto|].
  intros [->|H].
  - rewrite eqb_refl. eauto.
  - destruct (eqb k k'); eauto.
Qed.

(** Total coverage: for every text, coordinates and coordinate system, in
    every state of the parser and of its environment, [parse_address]
    returns a record (it raises nothing); the record has the ten keys of
    [_empty_components], none missing and none added; the values under
    [building], [unit], [room], [name] and [phone] are strings; and when
    the body of the method raises, the record is [_empty_components]. The
    values under [province], [city], [district] and [street] are taken
    from the provider's answers as they come. *)
Theorem parse_address_total_coverage :
  forall (address : pystr) (coordinates coordsys : option pystr) (st : state),
  exists r st',
    parse_address address coordinates coordsys st = (Ok r, st')
    /\ keys_of r = component_keys
    /\ (forall k, In k component_keys -> exists v, lookup k r = Some v)
    /\ (forall k, In k ["building"; "unit"; "room"; "name"; "phone"] ->
                  exists s, lookup (py k) r = Some (JStr s))
    /\ (forall e st1,
          parse_address_body address coordinates coordsys st = (Raise e, st1) ->
          r = _empty_components).
Proof.
  intros address coordinates coordsys st.
  destruct (parse_address_returns address coordinates coordsys st)
    as (r & st' & E & Hwf).
  exists r, st'. split; [exact E|]. split; [apply Hwf|].
  split; [intros k; now apply well_formed_has_keys|].
  split; [apply Hwf|].
  intros e st1 Hb. rewrite parse_address_eq in E.
  rewrite (try_except_raise _ Hb) in E. apply ret_ok in E. apply E.
Qed.

(** [complete_address] is [parse_address] without coordinates. *)
Corollary complete_address_total_coverage :
  forall (address_string : pystr) (st : state),
  exists r st',
    complete_address address_string st = (Ok r, st')
    /\ keys_of r = component_keys.
Proof.
  intros a st.
  destruct (parse_address_total_coverage a None None st)
    as (r & st' & E & Hk & _).
  exists r, st'. auto.
Qed.

(** C1. The record has its ten keys and nothing is raised, as the
    specification says (and as [parse_address_total_coverage] proves for
    every input), but the nine fields are not always strings: the geocode
    branch copies the provider's [district] as it comes, and for a city the
    provider sends an empty list. The source line says of this field that
    it makes sure an empty string is returned. *)
Theorem complete_address_district_is_a_list :
  fst (complete_address (py "深圳市")
         (fresh (day "2025-01-02" 0
                   [shenzhen_district_answer; shenzhen_geo_answer])))
  = Ok (fields [("province", jstr "广东省"); ("city", jstr "深圳市");
                ("district", JArr []); ("street", jstr "");
                ("building", jstr ""); ("unit", jstr ""); ("room", jstr "");
                ("name", jstr ""); ("phone", jstr ""); ("weather", JNull)]).
Proof. vm_compute. reflexivity. Qed.

(** C9. Whenever [parse_address] resolves through its coordinate branch,
    the record it returns has [None] under [weather]: the branch fetches
    the weather into a local variable and returns the components as they
    were, and [components.update(building_info)] only touches [building],
    [unit] and [room]. *)
Theorem coordinate_branch_weather_is_none :
  forall (address : pystr) (coordinates coordsys : option pystr)
         (st st1 st2 st3 : state) (cleaned : pystr) (location : json)
         (components : dict),
    _clean_address_string address st = (Ok cleaned, st1) ->
    location_of coordinates coordsys st1 = (Ok location, st2) ->
    by_coordinates address location st2 = (Ok (Some components), st3) ->
    parse_address address coordinates coordsys st = (Ok components, st3)
    /\ lookup (py "weather") components = Some JNull.
Proof.
  intros address coordinates coordsys st st1 st2 st3 cleaned location
    components Hc Hl Hb.
  split.
  - rewrite parse_address_eq, parse_address_body_eq.
    apply try_except_ok.
    rewrite (bind_step _ Hc), (bind_step _ Hl), (bind_step _ Hb).
    reflexivity.
  - now apply by_coordinates_shape in Hb.
Qed.

Example demo_weather_is_fetched :
  fst (_get_weather_info (jstr "110108")
         (fresh (day "2025-01-02" 5000 [weather_answer])))
  = Ok (obj [("current",
              obj [("weather", obj [("code", jstr "晴");
                                    ("desc", jstr "晴朗无云")]);
                   ("temperature", jstr "25℃");
                   ("wind", obj [("direction", jstr "东风");
                                 ("power", jstr "微风(小于12km/h)")]);
                   ("humidity", jstr "40%");
                   ("reporttime", jstr "2025-01-02 10:00:00")]);
             ("forecast", JArr [])]).
Proof. vm_compute. reflexivity. Qed.

Lemma coordinate_branch_weather_is_none_witness :
  fst (parse_address demo_address (Some demo_coordinates) None demo_state)
  = Ok demo_components
  /\ lookup (py "weather") demo_components = Some JNull
  /\ inbox (env (snd (parse_address demo_address (Some demo_coordinates) None
                        demo_state))) = [].
Proof.
  pose proof (coordinate_branch_weather_is_none
                demo_address (Some demo_coordinates) None demo_state
                (snd (_clean_address_string demo_address demo_state))
                (snd (_clean_address_string demo_address demo_state))
                (snd (by_coordinates demo_address (JStr demo_coordinates)
                        demo_state))
                demo_address (JStr demo_coordinates) demo_components) as H.
  destruct H as [H1 H2]; try (vm_compute; reflexivity).
  rewrite H1. split; [reflexivity|]. split; [exact H2|].
  vm_compute. reflexivity.
Defined.

(** ** Building, unit and room (C7) *)

(** C7, refuted as stated: in [_extract_building_info] a number before [房]
    is no room number. The text ["3号楼501房"] is returned whole as the
    building, with an empty room; the four patterns the specification
    lists (those of [_extract_address_components]) find ["501"] in it. *)
Lemma building_info_ignores_fang :
  fst (_extract_building_info (py "3号楼501房") []
         (fresh (day "2025-01-02" 0 [])))
  = Ok (fields [("building", jstr "3号楼501房"); ("unit", jstr "");
                ("room", jstr "")])
  /\ first_match room_patterns (py "3号楼501房") = None
  /\ option_map m_group
       (first_match room_patterns_of_components (py "3号楼501房"))
     = Some (py "501").
Proof. vm_compute. repeat split. Qed.

Lemma unit_and_room_spec (s : pystr) :
  exists unit room rest,
    unit_and_room s = (unit, room, rest)
    /\ room_step (without_unit s) room rest.
Proof.
  unfold unit_and_room, without_unit, room_step, room_patterns, first_match.
  destruct (search unit_pattern s) as [um|];
    match goal with
    | |- context [search unmarked_room ?t] =>
        destruct (search unmarked_room t) as [m1|] eqn:E1;
        [|destruct (search lettered_room t) as [m2|] eqn:E2;
          [|destruct (search hyphen_room t) as [m3|] eqn:E3]]
    end;
    do 3 eexists; (split; [reflexivity|]);
    repeat split; intros; try discriminate;
    repeat match goal with
           | H : Some _ = Some _ |- _ => inversion H; subst; clear H
           end; reflexivity.
Qed.

(** C7, as the code has it. When no special place is recognised,
    [_extract_building_info] removes the known province, city, name and
    phone from the address, cleans the text, takes the unit out and then
    looks for the room with three patterns, in this order: an unmarked
    number of 2 to 4 digits, a letter followed by such a number, such a
    number after a hyphen, each directly before [室] or the end of the
    text. The first pattern that matches gives the room; the matched text
    is removed, and then a closing [室]; what is left, blanks collapsed, is
    the building. *)
Theorem building_info_room_order :
  forall (address : pystr) (components : dict) (st st' : state) (r : dict),
    _extract_building_info address components st = (Ok r, st') ->
    special_hit special_keywords address = None ->
    exists s0 s1 unit room rest,
      strip_known ["province"; "city"] components address = Ok s0
      /\ strip_known ["name"; "phone"] components s0 = Ok s1
      /\ room_step (without_unit (clean_text s1)) room rest
      /\ r = fields [("building",
                      JStr (strip (sub blanks (const blank) rest)));
                     ("unit", JStr unit); ("room", JStr room)].
Proof.
  intros address components st st' r H Hs.
  unfold _extract_building_info in H. rewrite Hs in H.
  inv_bind H. inv_bind H. inv_bind H.
  repeat match goal with
         | H : lift ?o _ = (Ok _, _) |- _ => apply lift_ok in H as [H ?]; subst
         end.
  match goal with
  | H : _clean_address_string ?s ?st = _ |- _ =>
      let st3 := fresh "st" in
      let E := fresh "E" in
      destruct (clean_address_string_value s st) as [st3 E];
      rewrite E in H; inversion H; subst; clear H E
  end.
  match goal with
  | H : context [unit_and_room ?s] |- _ =>
      destruct (unit_and_room_spec s) as (unit & room & rest & E & Hr);
      rewrite E in H; apply ret_ok in H as [-> _]
  end.
  do 2 eexists. exists unit, room, rest.
  split; [eassumption|]. split; [eassumption|]. split; [exact Hr|reflexivity].
Qed.

(** The example of the specification: unit ["2单元"], room ["501"], building
    ["3号楼"]. *)
Lemma building_info_room_order_witness :
  exists rest,
    room_step (py "3号楼501室") (py "501") rest
    /\ fst (_extract_building_info (py "3号楼2单元501室") []
              (fresh (day "2025-01-02" 0 [])))
       = Ok (fields [("building", jstr "3号楼"); ("unit", jstr "2单元");
                     ("room", jstr "501")]).
Proof.
  destruct (building_info_room_order (py "3号楼2单元501室") []
              (fresh (day "2025-01-02" 0 []))
              (snd (_extract_building_info (py "3号楼2单元501室") []
                      (fresh (day "2025-01-02" 0 []))))
              (fields [("building", jstr "3号楼"); ("unit", jstr "2单元");
                       ("room", jstr "501")]))
    as (s0 & s1 & unit & room & rest & H0 & H1 & Hr & Hf);
    try (vm_compute; reflexivity).
  vm_compute in H0. inversion H0; subst s0; clear H0.
  vm_compute in H1. inversion H1; subst s1; clear H1.
  unfold fields in Hf. simpl in Hf. inversion Hf; subst; clear Hf.
  exists rest. split; [|vm_compute; reflexivity].
  replace (py "3号楼501室")
    with (without_unit (clean_text (py "3号楼2单元501室")))
    by (vm_compute; reflexivity).
  exact Hr.
Defined.

(** ** Idempotence of the cleaning (C2) *)

(** C2, refuted as stated. The blank between two administrative suffixes
    is removed after the repeated suffixes were collapsed, so a first
    cleaning of ["市 市"] gives ["市市"] and a second one gives ["市"]. *)
Lemma clean_not_idempotent :
  let st := fresh (day "2025-01-02" 0 []) in
  fst (_clean_address_string (py "市 市") st) = Ok (py "市市")
  /\ fst (_clean_address_string (py "市市") st) = Ok (py "市")
  /\ py "市市" <> py "市".
Proof. vm_compute. repeat split. discriminate. Qed.

(** Other texts that a second cleaning changes. *)
Example clean_twice_examples :
  clean_text (py "北京北京北京") = py "北京市北京"
  /\ clean_text (py "北京市北京") = py "北京市"
  /\ clean_text (py "a 市 a 区") = py "a 市 区"
  /\ clean_text (py "a 市 区") = py "a 市区".
Proof. vm_compute. repeat split. Qed.

(** *** Tokens *)

Lemma blank_eq : blank = [32%N].
Proof. reflexivity. Qed.

Lemma split_from_tokens (s cur : pystr) :
  spaceless cur -> Forall token (split_from s cur).
Proof.
  revert cur. induction s as [|c s IH]; intros cur Hcur; simpl.
  - destruct cur as [|x cur]; constructor; [|constructor].
    split; [|apply Forall_rev; exact Hcur].
    intros E. apply (f_equal (@length _)) in E.
    rewrite length_rev in E. discriminate.
  - destruct (isspace c) eqn:Ec.
    + destruct cur as [|x cur]; [apply IH; constructor|].
      constructor; [|apply IH; constructor].
      split; [|apply Forall_rev; exact Hcur].
      intros E. apply (f_equal (@length _)) in E.
      rewrite length_rev in E. discriminate.
    + apply IH. constructor; assumption.
Qed.

Lemma split_from_token (t rest cur : pystr) :
  spaceless t -> split_from (t ++ rest) cur = split_from rest (rev t ++ cur).
Proof.
  revert cur. induction t as [|c t IH]; intros cur Ht; [reflexivity|].
  inversion Ht as [|? ? Hc Ht']; subst. simpl. rewrite Hc.
  rewrite IH by assumption. now rewrite <- app_assoc.
Qed.

Lemma join_cons2 (sep p q : pystr) (ps : list pystr) :
  join sep (p :: q :: ps) = p ++ sep ++ join sep (q :: ps).
Proof. reflexivity. Qed.

Lemma split_join (toks : list pystr) :
  Forall token toks -> split (join blank toks) = toks.
Proof.
  unfold split. induction toks as [|t toks IH]; intros H; [reflexivity|].
  inversion H as [|? ? [Hne Ht] Hrest]; subst.
  destruct toks as [|t2 toks].
  - simpl. rewrite <- (app_nil_r t) at 1.
    rewrite split_from_token by assumption. rewrite app_nil_r. simpl.
    destruct (rev t) eqn:E.
    + apply (f_equal (@rev _)) in E. rewrite rev_involutive in E.
      contradiction.
    + rewrite <- E. now rewrite rev_involutive.
  - rewrite join_cons2, split_from_token by assumption.
    rewrite app_nil_r, blank_eq. simpl.
    destruct (rev t) eqn:E.
    + apply (f_equal (@rev _)) in E. rewrite rev_involutive in E.
      contradiction.
    + rewrite <- E, rev_involutive. f_equal.
      rewrite <- blank_eq. now apply IH.
Qed.

Lemma dedup_forall (P : pystr -> Prop) (l seen : list pystr) :
  Forall P l -> Forall P (dedup l seen).
Proof.
  revert seen. induction l as [|p l IH]; intros seen H; simpl; [constructor|].
  inversion H; subst.
  destruct (mem p seen); [now apply IH|]. constructor; [assumption|now apply IH].
Qed.

(** Parts already deduplicated against [seen] stay as they are when
    deduplicated against fewer parts. *)
Lemma dedup_dedup (l seen seen' : list pystr) :
  (forall x, mem x seen' = true -> mem x seen = true) ->
  dedup (dedup l seen) seen' = dedup l seen.
Proof.
  revert seen seen'. induction l as [|p l IH]; intros seen seen' Hsub;
    [reflexivity|].
  simpl. destruct (mem p seen) eqn:E; [now apply IH|].
  simpl. destruct (mem p seen') eqn:E'.
  - apply Hsub in E'. congruence.
  - f_equal. apply IH. intros x. simpl.
    destruct (eqb x p); [reflexivity|]. apply Hsub.
Qed.

Lemma lstrip_token_head (t rest : pystr) :
  token t -> lstrip (t ++ rest) = t ++ rest.
Proof.
  intros [Hne Ht]. destruct t as [|c t]; [contradiction|].
  inversion Ht; subst. simpl. now rewrite H1.
Qed.

Lemma join_head (sep : pystr) (t : pystr) (toks : list pystr) :
  exists rest, join sep (t :: toks) = t ++ rest.
Proof.
  destruct toks as [|q toks].
  - exists []. simpl. now rewrite app_nil_r.
  - eexists. apply join_cons2.
Qed.

Lemma lstrip_join (toks : list pystr) :
  Forall token toks -> lstrip (join blank toks) = join blank toks.
Proof.
  intros H. destruct toks as [|t toks]; [reflexivity|].
  inversion H; subst.
  destruct (join_head blank t toks) as [rest ->].
  now apply lstrip_token_head.
Qed.

Lemma join_snoc (sep : pystr) (l : list pystr) (x : pystr) :
  l <> [] -> join sep (l ++ [x]) = join sep l ++ sep ++ x.
Proof.
  induction l as [|p l IH]; intros H; [contradiction|].
  destruct l as [|q l]; [reflexivity|].
  change ((p :: q :: l) ++ [x]) with (p :: q :: (l ++ [x])).
  rewrite !join_cons2.
  change (q :: l ++ [x]) with ((q :: l) ++ [x]).
  rewrite IH by discriminate. now rewrite <- !app_assoc.
Qed.

Lemma rev_join (sep : pystr) (l : list pystr) :
  rev (join sep l) = join (rev sep) (rev (map (@rev char) l)).
Proof.
  induction l as [|p l IH]; [reflexivity|].
  destruct l as [|q l]; [reflexivity|].
  rewrite join_cons2, !rev_app_distr, IH.
  change (map (@rev char) (p :: q :: l))
    with (rev p :: map (@rev char) (q :: l)).
  change (rev (rev p :: map (@rev char) (q :: l)))
    with (rev (map (@rev char) (q :: l)) ++ [rev p]).
  rewrite join_snoc; [now rewrite <- app_assoc|].
  simpl. intros E. apply app_eq_nil in E as [_ E]. discriminate.
Qed.

Lemma token_rev (t : pystr) : token t -> token (rev t).
Proof.
  intros [Hne Ht]. split; [|now apply Forall_rev].
  intros E. apply (f_equal (@rev _)) in E. rewrite rev_involutive in E.
  contradiction.
Qed.

Lemma strip_join (toks : list pystr) :
  Forall token toks -> strip (join blank toks) = join blank toks.
Proof.
  intros H. unfold strip. rewrite lstrip_join by assumption.
  rewrite rev_join.
  assert (rev blank = blank) as -> by reflexivity.
  rewrite lstrip_join.
  - rewrite <- (rev_involutive blank) at 1.
    rewrite <- rev_join. rewrite rev_involutive.
    assert (rev blank = blank) as -> by reflexivity. reflexivity.
  - apply Forall_rev. apply Forall_map.
    eapply Forall_impl; [|exact H]. apply token_rev.
Qed.

(** *** The substitutions of blanks *)

(** A substitution changes nothing where the pattern does not match. *)
Lemma sub_none (r : regex) (repl : mtch -> pystr) (s : pystr) :
  search r s = None -> sub r repl s = s.
Proof.
  unfold sub, finditer, search. simpl. now intros ->.
Qed.

Lemma exec_plus_cls (p : char -> bool) k st :
  exec (Plus (Cls p)) k st
  = match ahead st with
    | c :: _ => if p c then exec (Star (Cls p)) k (advance 1 st) else None
    | [] => None
    end.
Proof. reflexivity. Qed.

(** A run of the class ends where the next character is outside it. *)
Lemma exec_star_cls_stop (p : char -> bool) k st :
  match ahead st with
  | c :: _ => p c = false
  | [] => True
  end ->
  exec (Star (Cls p)) k st = k st.
Proof.
  intros H. simpl.
  destruct (ahead st) as [|c rest]; [reflexivity|]. now rewrite H.
Qed.

(** No match of [p+] starts inside a run of characters outside [p]. *)
Lemma search_at_skip (p : char -> bool) (t rest before : pystr) (pos : nat) :
  Forall (fun c => p c = false) t ->
  search_at (Plus (Cls p)) before (t ++ rest) pos
  = search_at (Plus (Cls p)) (rev t ++ before) rest (pos + length t).
Proof.
  revert before pos. induction t as [|c t IH]; intros before pos Ht.
  - simpl. now rewrite Nat.add_0_r.
  - inversion Ht as [|? ? Hc Ht']; subst.
    change ((c :: t) ++ rest) with (c :: (t ++ rest)).
    cbn [search_at]. rewrite exec_plus_cls. cbn [ahead]. rewrite Hc.
    rewrite IH by assumption. cbn [rev length].
    rewrite <- app_assoc. f_equal. lia.
Qed.

Lemma search_plus_cls_none (p : char -> bool) (s : pystr) :
  Forall (fun c => p c = false) s -> search (Plus (Cls p)) s = None.
Proof.
  intros H. unfold search. rewrite <- (app_nil_r s).
  rewrite search_at_skip by assumption.
  cbn [search_at]. rewrite exec_plus_cls. reflexivity.
Qed.

(** One blank between two tokens is one match of [\s+]. *)
Lemma search_at_blank (before rest : pystr) (pos : nat) :
  match rest with
  | c :: _ => isspace c = false
  | [] => True
  end ->
  search_at blanks before (32%N :: rest) pos
  = Some (Match pos (pos + 1) [32%N] []).
Proof.
  intros H. unfold blanks. cbn [search_at]. rewrite exec_plus_cls.
  cbn [ahead]. change (isspace 32%N) with true. cbv iota.
  rewrite exec_star_cls_stop by exact H.
  cbn [advance ahead groups length firstn skipn].
  replace (S (length rest) - length rest) with 1 by lia.
  reflexivity.
Qed.

Lemma token_head (t rest : pystr) :
  token t ->
  match t ++ rest with
  | c :: _ => isspace c = false
  | [] => True
  end.
Proof.
  intros [Hne Ht]. destruct t as [|c t]; [contradiction|].
  now inversion Ht.
Qed.

Lemma firstn_token (t rest : pystr) : firstn (length t) (t ++ rest) = t.
Proof.
  rewrite firstn_app, Nat.sub_diag, firstn_all. simpl. apply app_nil_r.
Qed.

Lemma skipn_token (t rest : pystr) (c : char) :
  skipn (length t + 1) (t ++ c :: rest) = rest.
Proof.
  rewrite skipn_app.
  replace (length t + 1 - length t) with 1 by lia.
  rewrite skipn_all2 by lia. reflexivity.
Qed.

(** On tokens joined by single blanks, every match of [\s+] is one of
    those blanks, and replacing it by a blank gives the text back. *)
Lemma splice_blanks_join (toks : list pystr) :
  Forall token toks ->
  forall fuel before pos,
    length (join blank toks) < fuel ->
    splice (finditer_at fuel blanks before (join blank toks) pos)
      (const blank) (join blank toks) pos
    = join blank toks.
Proof.
  induction toks as [|t toks IH]; intros H fuel before pos Hfuel.
  - destruct fuel as [|fuel]; [inversion Hfuel|]. reflexivity.
  - inversion H as [|? ? Ht Hrest]; subst.
    destruct fuel as [|fuel]; [inversion Hfuel|].
    destruct toks as [|t2 toks].
    + cbn [join finditer_at].
      rewrite <- (app_nil_r t) at 1.
      unfold blanks. rewrite search_at_skip by apply Ht.
      cbn [search_at]. rewrite exec_plus_cls. reflexivity.
    + rewrite join_cons2 in *. rewrite blank_eq in *.
      set (Y := join [32%N] (t2 :: toks)) in *.
      cbn [finditer_at].
      change ([32%N] ++ Y) with (32%N :: Y).
      unfold blanks at 1. rewrite search_at_skip by apply Ht.
      fold blanks.
      rewrite search_at_blank.
      2:{ inversion Hrest; subst.
          destruct (join_head [32%N] t2 toks) as [rest E].
          unfold Y. rewrite E. now apply token_head. }
      cbn [m_start m_end].
      replace (pos + length t + 1 - pos) with (length t + 1) by lia.
      replace (pos + length t + 1 =? pos + length t) with false
        by (symmetry; apply Nat.eqb_neq; lia).
      cbn [splice m_start m_end].
      replace (pos + length t - pos) with (length t) by lia.
      replace (pos + length t + 1 - pos) with (length t + 1) by lia.
      rewrite firstn_token, skipn_token.
      unfold const at 1. cbn [app]. do 2 f_equal.
      apply IH; [assumption|].
      rewrite length_app in Hfuel. simpl in Hfuel. fold Y in Hfuel. lia.
Qed.

Lemma sub_blanks_join (toks : list pystr) :
  Forall token toks ->
  sub blanks (const blank) (join blank toks) = join blank toks.
Proof.
  intros H. unfold sub, finditer. apply splice_blanks_join; [assumption|lia].
Qed.

(** *** A second cleaning *)

Lemma odd_blank_isspace (c : char) : odd_blank c = true -> isspace c = true.
Proof.
  unfold odd_blank. cbn [existsb]. rewrite !orb_true_iff, !N.eqb_eq.
  intros [->|[->|[->|[->|[->|H]]]]]; try reflexivity. discriminate.
Qed.

Lemma join_chars (P : char -> Prop) (sep : pystr) (toks : list pystr) :
  Forall P sep -> Forall (Forall P) toks -> Forall P (join sep toks).
Proof.
  intros Hsep. induction toks as [|t toks IH]; intros H; [constructor|].
  inversion H; subst. destruct toks as [|q toks]; [assumption|].
  rewrite join_cons2. apply Forall_app. split; [assumption|].
  apply Forall_app. split; [assumption|]. now apply IH.
Qed.

(** Tokens joined by single blanks hold none of the odd blanks. *)
Lemma no_odd_blank_in_join (toks : list pystr) :
  Forall token toks ->
  Forall (fun c => odd_blank c = false) (join blank toks).
Proof.
  intros H. apply join_chars.
  - repeat constructor.
  - eapply Forall_impl; [|exact H]. intros t [_ Ht].
    eapply Forall_impl; [|exact Ht]. intros c Hc.
    destruct (odd_blank c) eqn:E; [|reflexivity].
    apply odd_blank_isspace in E. congruence.
Qed.

(** The text steps leave alone a text made of tokens joined by single
    blanks in which no collapse pattern matches. *)
Lemma normalized_fixed (toks : list pystr) :
  Forall token toks ->
  Forall (fun p => search p (join blank toks) = None) collapse_patterns ->
  normalized (join blank toks) = join blank toks.
Proof.
  intros Htok Hpat.
  unfold collapse_patterns, municipalities in Hpat. cbn [map app] in Hpat.
  repeat match goal with
         | H : Forall _ (_ :: _) |- _ =>
             let H1 := fresh "Hp" in
             let H2 := fresh "Hrest" in
             apply Forall_cons_iff in H as [H1 H2]
         end.
  unfold normalized, municipalities. cbn [fold_left].
  unfold odd_blanks.
  rewrite (sub_none _ _ _ (search_plus_cls_none _ _ (no_odd_blank_in_join _ Htok))).
  rewrite (sub_none _ _ _ Hp), (sub_none _ _ _ Hp0), (sub_none _ _ _ Hp1),
    (sub_none _ _ _ Hp2), (sub_none _ _ _ Hp3), (sub_none _ _ _ Hp4).
  rewrite sub_blanks_join, strip_join by assumption.
  apply sub_none. exact Hp5.
Qed.

(** The text [_clean_address_string] returns is made of distinct tokens
    joined by single blanks; cleaning it again returns it unchanged when
    no collapse pattern matches in it. *)
Lemma clean_text_eq (address : pystr) :
  clean_text address = join blank (dedup (split (normalized address)) []).
Proof. reflexivity. Qed.

Lemma clean_text_fixed (address : pystr) :
  Forall (fun p => search p (clean_text address) = None) collapse_patterns ->
  clean_text (clean_text address) = clean_text address.
Proof.
  rewrite (clean_text_eq address).
  assert (Forall token (dedup (split (normalized address)) [])) as Htok.
  { apply dedup_forall. apply split_from_tokens. constructor. }
  assert (dedup (dedup (split (normalized address)) []) []
          = dedup (split (normalized address)) []) as Hd.
  { apply dedup_dedup. auto. }
  revert Htok Hd.
  generalize (dedup (split (normalized address)) []). intros toks Htok Hd H.
  rewrite clean_text_eq.
  rewrite normalized_fixed, split_join by assumption.
  now rewrite Hd.
Qed.

(** C2, as the code has it. Whenever a cleaning has returned a text in
    which none of the collapse patterns matches, a second cleaning, of
    that text, returns nothing but the same text, whatever the state of
    the parser and of the provider it is made in. (A first cleaning can
    leave such a match behind, as in [clean_not_idempotent]; and a
    cleaning need not return, see [try_except].) *)
Theorem clean_idempotent_when_collapsed :
  forall (address cleaned : pystr) (st st1 : state),
    _clean_address_string address st = (Ok cleaned, st1) ->
    Forall (fun p => search p cleaned = None) collapse_patterns ->
    forall (st2 st3 : state) (again : pystr),
      _clean_address_string cleaned st2 = (Ok again, st3) ->
      again = cleaned.
Proof.
  intros address cleaned st st1 H Hpat st2 st3 again H2.
  destruct (clean_address_string_value address st) as [st' E].
  rewrite E in H. inversion H; subst; clear H.
  destruct (clean_address_string_value (clean_text address) st2) as [st4 E2].
  rewrite E2 in H2. injection H2 as <- _. now apply clean_text_fixed.
Qed.

Lemma clean_idempotent_when_collapsed_witness :
  fst (_clean_address_string (py "北京市海淀区中关村大街1号 3单元")
         (fresh (day "2025-01-02" 0 [])))
  = Ok (py "北京市海淀区中关村大街1号 3单元").
Proof.
  destruct (_clean_address_string (py "北京市海淀区中关村大街1号 3单元")
              (fresh (day "2025-01-02" 0 [])))
    as [[again|e] st3] eqn:E; [|vm_compute in E; discriminate E].
  cbn [fst]. f_equal.
  apply (clean_idempotent_when_collapsed
           (py "北京北京市海淀区中关村大街1号  3单元 3单元")
           (py "北京市海淀区中关村大街1号 3单元")
           (fresh (day "2025-01-02" 0 []))
           (snd (_clean_address_string
                   (py "北京北京市海淀区中关村大街1号  3单元 3单元")
                   (fresh (day "2025-01-02" 0 []))))
           ltac:(vm_compute; reflexivity)
           ltac:(unfold collapse_patterns, municipalities; cbn [map app];
                 repeat (constructor; [vm_compute; reflexivity|]);
                 constructor)
           (fresh (day "2025-01-02" 0 [])) st3 again E).
Defined.

(** * Further properties *)

(** ** The matcher finds what its pattern denotes *)

Lemma startswith_app (a s : pystr) :
  startswith a s = true -> a = s ++ skipn (length s) a.
Proof.
  revert a. induction s as [|x s IH]; intros a H; [reflexivity|].
  destruct a as [|y a]; simpl in H; [discriminate|].
  apply andb_true_iff in H as [H1 H2]. apply N.eqb_eq in H1. subst.
  simpl. f_equal. now apply IH.
Qed.

Lemma moved_refl (st : mstate) : moved st st [].
Proof. split; reflexivity. Qed.

Lemma moved_trans (st st1 st2 : mstate) (t1 t2 : pystr) :
  moved st st1 t1 -> moved st1 st2 t2 -> moved st st2 (t1 ++ t2).
Proof.
  intros [H1 H2] [H3 H4]. split.
  - rewrite H1, H3. now rewrite app_assoc.
  - rewrite H4, H2, rev_app_distr. now rewrite app_assoc.
Qed.

Lemma moved_advance (st : mstate) (s : pystr) :
  ahead st = s ++ skipn (length s) (ahead st) ->
  moved st (advance (length s) st) s.
Proof.
  intros H. unfold moved, advance. cbn [ahead passed]. split; [exact H|].
  f_equal. f_equal. rewrite H at 1.
  rewrite firstn_app, Nat.sub_diag, firstn_all. simpl. apply app_nil_r.
Qed.

(** Whatever the matcher passes over while it runs [r] is a text [r]
    denotes, and the continuation is entered where that text ends. *)
Lemma exec_sound (r : regex) :
  forall k st res,
    exec r k st = Some res ->
    exists t st1, moved st st1 t /\ denotes r t /\ k st1 = Some res.
Proof.
  induction r as [|p|s|a IHa b IHb|a IHa b IHb|a IHa|i a IHa|i|a IHa|a IHa
                  |p|p|]; intros k st res H.
  - exists [], st. split; [apply moved_refl|]. split; [reflexivity|exact H].
  - cbn [exec] in H.
    destruct (ahead st) as [|c rest] eqn:E; [discriminate|].
    destruct (p c) eqn:Ep; [|discriminate].
    exists [c], (advance 1 st). split.
    + apply (moved_advance st [c]). now rewrite E.
    + split; [exists c; auto | exact H].
  - cbn [exec] in H.
    destruct (startswith (ahead st) s) eqn:E; [|discriminate].
    exists s, (advance (length s) st). split.
    + apply moved_advance. now apply startswith_app.
    + split; [reflexivity | exact H].
  - cbn [exec] in H.
    apply IHa in H as (t1 & st1 & M1 & D1 & H).
    apply IHb in H as (t2 & st2 & M2 & D2 & H).
    exists (t1 ++ t2), st2. split; [eapply moved_trans; eauto|].
    split; [|exact H]. exists t1, t2. auto.
  - cbn [exec] in H.
    destruct (exec a k st) as [r'|] eqn:E.
    + inversion H; subst. apply IHa in E as (t & st1 & M1 & D1 & E).
      exists t, st1. cbn [denotes]. auto.
    + apply IHb in H as (t & st1 & M1 & D1 & H).
      exists t, st1. cbn [denotes]. auto.
  - set (loop :=
           fix loop (n : nat) (st : mstate) {struct n} : option mstate :=
             match n with
             | O => k st
             | S n' =>
                 match exec a (fun st' =>
                         if length (ahead st') <? length (ahead st)
                         then loop n' st' else None) st with
                 | Some r' => Some r'
                 | None => k st
                 end
             end).
    change (loop (S (length (ahead st))) st = Some res) in H.
    revert H. generalize (S (length (ahead st))). intros n. revert st.
    induction n as [|n IHn]; intros st H.
    + exists [], st. split; [apply moved_refl|].
      split; [exists []; auto | exact H].
    + change (match exec a (fun st' =>
                      if length (ahead st') <? length (ahead st)
                      then loop n st' else None) st with
              | Some r' => Some r'
              | None => k st
              end = Some res) in H.
      destruct (exec a _ st) as [r'|] eqn:E.
      * inversion H; subst. apply IHa in E as (t1 & st1 & M1 & D1 & E).
        destruct (length (ahead st1) <? length (ahead st)); [|discriminate].
        apply IHn in E as (t2 & st2 & M2 & (ts & -> & Hts) & E).
        exists (t1 ++ concat ts), st2.
        split; [eapply moved_trans; eauto|]. split; [|exact E].
        exists (t1 :: ts). split; [reflexivity | now constructor].
      * exists [], st. split; [apply moved_refl|].
        split; [exists []; auto | exact H].
  - cbn [exec] in H.
    apply IHa in H as (t & st1 & M1 & D1 & H).
    exists t, (MState (passed st1) (ahead st1)
                 ((i, firstn (length (ahead st) - length (ahead st1))
                        (ahead st)) :: groups st1)).
    split; [exact M1|]. split; [exact D1 | exact H].
  - cbn [exec] in H.
    destruct (group_of i (groups st)) as [s|]; [|discriminate].
    destruct (startswith (ahead st) s) eqn:E; [|discriminate].
    exists s, (advance (length s) st). split.
    + apply moved_advance. now apply startswith_app.
    + split; [exact I | exact H].
  - cbn [exec] in H. destruct (exec a Some st); [|discriminate].
    exists [], st. split; [apply moved_refl|]. split; [reflexivity|exact H].
  - cbn [exec] in H. destruct (exec a Some st); [discriminate|].
    exists [], st. split; [apply moved_refl|]. split; [reflexivity|exact H].
  - cbn [exec] in H.
    exists [], st. split; [apply moved_refl|]. split; [reflexivity|].
    destruct (passed st) as [|c ?]; [discriminate|].
    destruct (p c); [exact H | discriminate].
  - cbn [exec] in H.
    exists [], st. split; [apply moved_refl|]. split; [reflexivity|].
    destruct (passed st) as [|c ?]; [exact H|].
    destruct (p c); [discriminate | exact H].
  - cbn [exec] in H.
    exists [], st. split; [apply moved_refl|]. split; [reflexivity|].
    destruct (ahead st) as [|c [|? ?]]; [exact H| |discriminate].
    destruct (N.eqb c 10); [exact H | discriminate].
Qed.

Lemma search_at_eq (r : regex) (before s : pystr) (pos : nat) :
  search_at r before s pos
  = match exec r Some (MState before s []) with
    | Some st' =>
        Some (Match pos (pos + (length s - length (ahead st')))
                (firstn (length s - length (ahead st')) s) (groups st'))
    | None =>
        match s with
        | [] => None
        | c :: s' => search_at r (c :: before) s' (S pos)
        end
    end.
Proof. destruct s; reflexivity. Qed.

Lemma exec_found (r : regex) (before s : pystr) (st' : mstate) :
  exec r Some (MState before s []) = Some st' ->
  exists t,
    s = t ++ ahead st' /\ denotes r t
    /\ firstn (length s - length (ahead st')) s = t.
Proof.
  intros E. apply exec_sound in E as (t & st1 & [M1 _] & D & E).
  inversion E; subst st1; clear E. cbn [ahead] in M1.
  exists t. split; [exact M1|]. split; [exact D|].
  rewrite M1 at 1 2. rewrite length_app.
  replace (length t + length (ahead st') - length (ahead st'))
    with (length t) by lia.
  rewrite firstn_app, Nat.sub_diag, firstn_all. simpl. apply app_nil_r.
Qed.

(** The match [re.search] returns: its text stands in the subject at the
    offset [start()] says, and is a text the pattern denotes. *)
Lemma search_at_sound (r : regex) (s before : pystr) (pos : nat) (m : mtch) :
  search_at r before s pos = Some m ->
  exists pre post,
    s = pre ++ m_group m ++ post
    /\ m_start m = pos + length pre
    /\ denotes r (m_group m).
Proof.
  revert before pos. induction s as [|c s IH]; intros before pos H;
    rewrite search_at_eq in H;
    (destruct (exec r Some _) as [st'|] eqn:E;
     [apply exec_found in E as (t & Hs & D & Hf); rewrite Hf in H;
      injection H as Hm; rewrite <- Hm; cbn [m_group m_start];
      exists [], (ahead st'); simpl; split; [exact Hs|];
      split; [lia | exact D]
     |]).
  - discriminate.
  - apply IH in H as (pre & post & Hs & Hst & D).
    exists (c :: pre), post. simpl. split; [now f_equal|].
    split; [lia | exact D].
Qed.

Lemma search_sound (r : regex) (s : pystr) (m : mtch) :
  search r s = Some m ->
  occurs_in (m_group m) s /\ denotes r (m_group m).
Proof.
  intros H. apply search_at_sound in H as (pre & post & Hs & _ & D).
  split; [exists pre, post; exact Hs | exact D].
Qed.

(** The match a list of patterns gives is a match of one of them. *)
Lemma first_match_sound (patterns : list regex) (s : pystr) (m : mtch) :
  first_match patterns s = Some m ->
  occurs_in (m_group m) s /\ Exists (fun r => denotes r (m_group m)) patterns.
Proof.
  induction patterns as [|r rest IH]; simpl; [discriminate|].
  destruct (search r s) as [m'|] eqn:E.
  - intros H; inversion H; subst. apply search_sound in E as [Ho D].
    split; [exact Ho | now constructor].
  - intros H. apply IH in H as [Ho D]. split; [exact Ho | now constructor 2].
Qed.

(** *** What the repetitions of a class denote *)

Lemma denotes_rep_exact (n : nat) (p : char -> bool) (t : pystr) :
  denotes (rep_exact n (Cls p)) t -> length t = n /\ all_of p t.
Proof.
  revert t. induction n as [|n IH]; intros t H; simpl in H.
  - subst. split; [reflexivity | constructor].
  - destruct H as (t1 & t2 & -> & (c & -> & Hc) & H2).
    apply IH in H2 as [Hl Ha]. split; [simpl; now f_equal|].
    now constructor.
Qed.

Lemma denotes_rep_upto (n : nat) (p : char -> bool) (t : pystr) :
  denotes (rep_upto n (Cls p)) t -> length t <= n /\ all_of p t.
Proof.
  revert t. induction n as [|n IH]; intros t H; simpl in H.
  - subst. split; [simpl; lia | constructor].
  - destruct H as [(t1 & t2 & -> & (c & -> & Hc) & H2) | ->].
    + apply IH in H2 as [Hl Ha]. split; [simpl; lia | now constructor].
    + split; [simpl; lia | constructor].
Qed.

Lemma all_of_app (p : char -> bool) (a b : pystr) :
  all_of p a -> all_of p b -> all_of p (a ++ b).
Proof. intros Ha Hb. apply Forall_app. auto. Qed.

Lemma denotes_Rep (lo hi : nat) (p : char -> bool) (t : pystr) :
  denotes (Rep lo hi (Cls p)) t ->
  lo <= length t <= lo + (hi - lo) /\ all_of p t.
Proof.
  intros (t1 & t2 & -> & H1 & H2).
  apply denotes_rep_exact in H1 as [L1 A1].
  apply denotes_rep_upto in H2 as [L2 A2].
  rewrite length_app. split; [lia | now apply all_of_app].
Qed.

Lemma denotes_star_cls (p : char -> bool) (t : pystr) :
  denotes (Star (Cls p)) t -> all_of p t.
Proof.
  intros (ts & -> & H). induction H as [|x ts (c & -> & Hc) _ IH]; simpl.
  - constructor.
  - now constructor.
Qed.

Lemma denotes_RepMin (lo : nat) (p : char -> bool) (t : pystr) :
  denotes (RepMin lo (Cls p)) t -> lo <= length t /\ all_of p t.
Proof.
  intros (t1 & t2 & -> & H1 & H2).
  apply denotes_rep_exact in H1 as [L1 A1].
  apply denotes_star_cls in H2.
  rewrite length_app. split; [lia | now apply all_of_app].
Qed.

Lemma oneof_in (cs : string) (c : char) :
  oneof cs c = true -> In c (py cs).
Proof.
  unfold oneof. intros H. apply existsb_exists in H as (x & Hx & E).
  apply N.eqb_eq in E. now subst.
Qed.

(** ** Contact details *)

Lemma denotes_phone (t : pystr) : denotes phone_pattern t -> mobile_number t.
Proof.
  intros (t1 & t2 & -> & H1 & (t3 & t4 & -> & (c & -> & Hc) & H4)).
  simpl in H1. subst t1.
  apply denotes_rep_exact in H4 as [L A].
  exists c, t4. auto.
Qed.

(** X1. What [_extract_contact_info] returns. The phone is empty or a
    mobile number that stands in the text: [1], a digit from 3 to 9 and
    nine more decimal digits. The name is empty or a text that begins with
    one of the listed family names and holds none of the listed place
    words. *)
Theorem extract_contact_info_sound (address : pystr) :
  let (name, phone) := _extract_contact_info address in
  (phone = [] \/ (occurs_in phone address /\ mobile_number phone))
  /\ (name = []
      \/ (existsb (startswith name) common_surnames = true
          /\ existsb (contains name) invalid_keywords = false)).
Proof.
  unfold _extract_contact_info. split.
  - destruct (search phone_pattern address) as [m|] eqn:E; [|now left].
    right. apply search_sound in E as [Ho D].
    split; [exact Ho | now apply denotes_phone].
  - match goal with
    | |- context [search name_pattern ?s] =>
        destruct (search name_pattern s) as [nm|]; [|now left]
    end.
    destruct (existsb (contains (strip (m_group nm))) invalid_keywords)
      eqn:E1; [now left|].
    destruct (existsb (startswith (strip (m_group nm))) common_surnames)
      eqn:E2; [|now left].
    right. cbn [negb]. rewrite E1, E2. auto.
Qed.

(** ** Special places *)

(** X2. What [_extract_special_place] returns is empty, or stands in the
    address and is made of one to ten Chinese characters followed by one
    of the endings, or by a numeral from [一] to [十], blanks if any, and
    [中]. *)
Theorem extract_special_place_sound (address : pystr) :
  let place := _extract_special_place address in
  place = []
  \/ (occurs_in place address
      /\ exists name ending,
           place = name ++ ending
           /\ 1 <= length name <= 10 /\ all_of cjk name
           /\ (In ending special_place_endings
               \/ exists numeral gap,
                    ending = numeral :: gap ++ py "中"
                    /\ oneof "一二三四五六七八九十" numeral = true
                    /\ all_of isspace gap)).
Proof.
  unfold _extract_special_place.
  destruct (first_match special_place_patterns address) as [m|] eqn:E;
    [|now left].
  right. apply first_match_sound in E as [Ho D]. split; [exact Ho|].
  unfold special_place_patterns in D. cbv zeta in D.
  apply Exists_cons in D as [H|H].
  - destruct H as (name & t2 & -> & Hn & (t3 & t4 & -> & (c & -> & Hc)
                   & (gap & t6 & -> & Hg & Hz))).
    apply denotes_Rep in Hn as [Hl Ha]. apply denotes_star_cls in Hg.
    simpl in Hz. subst t6.
    exists name, (c :: gap ++ py "中"). split; [reflexivity|].
    split; [simpl in Hl; lia|]. split; [exact Ha|].
    right. exists c, gap. auto.
  - apply Exists_exists in H as (r & Hr & Hd).
    apply in_map_iff in Hr as (kw & <- & Hkw).
    destruct Hd as (name & ending & -> & Hn & He).
    apply denotes_Rep in Hn as [Hl Ha]. simpl in He. subst ending.
    exists name, (py kw). split; [reflexivity|].
    split; [simpl in Hl; lia|]. split; [exact Ha|].
    left. apply in_map. exact Hkw.
Qed.

(** ** Unit, room and street *)

Lemma denotes_unit (t : pystr) : denotes unit_pattern t -> unit_text t.
Proof.
  intros (ds & t2 & -> & H1 & H2). simpl in H2. subst t2.
  apply (denotes_RepMin 1 isdigit) in H1 as [L A].
  exists ds. split; [reflexivity|]. split; [|exact A].
  intros ->. simpl in L. lia.
Qed.

Lemma denotes_digits_2_4 (t : pystr) :
  denotes digits_2_4 t -> 2 <= length t <= 4 /\ all_of isdigit t.
Proof.
  intros H. apply denotes_Rep in H as [L A]. split; [simpl in L; lia|exact A].
Qed.

(** *** The room patterns after the first never decide *)

Lemma not_digit_below_1632 (c : char) :
  (58 <= c < 1632)%N -> isdigit c = false.
Proof.
  intros Hc. apply not_true_is_false. intros H.
  unfold isdigit in H. apply existsb_exists in H as (z & Hz & Hb).
  apply andb_true_iff in Hb as [H1 H2].
  apply N.leb_le in H1. apply N.ltb_lt in H2.
  unfold digit_zeros in Hz. simpl in Hz.
  repeat (destruct Hz as [<-|Hz]; [lia|]). exact Hz.
Qed.

Lemma letter_not_digit (c : char) : ascii_letter c = true -> isdigit c = false.
Proof.
  unfold ascii_letter, range. intros H. apply not_digit_below_1632.
  apply orb_true_iff in H as [H|H]; apply andb_true_iff in H as [H1 H2];
    apply N.leb_le in H1; apply N.leb_le in H2; lia.
Qed.

Lemma class_not_digit (cs : string) :
  forallb (fun c => negb (isdigit c)) (py cs) = true ->
  forall c, oneof cs c = true -> isdigit c = false.
Proof.
  intros H c Hc. apply oneof_in in Hc.
  rewrite forallb_forall in H. apply H in Hc.
  now apply negb_true_iff in Hc.
Qed.

Lemma hyphen_not_digit (c : char) : one "-" c = true -> isdigit c = false.
Proof.
  unfold one. simpl py. cbv iota. intros H. apply N.eqb_eq in H. now subst.
Qed.

(** A number that stands after a character that is no digit is found by
    the pattern without mark, whatever the character is: the patterns
    that ask for a letter, a compass point or a hyphen before the number
    find nothing where the first pattern finds nothing. *)
Lemma marked_room_none (p : char -> bool) (stop : regex) (s : pystr) :
  (forall c, p c = true -> isdigit c = false) ->
  forall before pos,
    search_at (Seq (NotBehind isdigit) (Seq digits_2_4 stop)) before s pos
    = None ->
    search_at (Seq (Cls p) (Seq digits_2_4 stop)) before s pos = None
    /\ search_at (Seq (Behind p) (Seq digits_2_4 stop)) before s pos = None.
Proof.
  intros Hp. induction s as [|c s IH]; intros before pos H;
    rewrite search_at_eq in H;
    rewrite (search_at_eq (Seq (Cls p) _)), (search_at_eq (Seq (Behind p) _)).
  - destruct (exec _ Some _) as [st'|] eqn:E; [discriminate|].
    split; [reflexivity|].
    cbn [exec passed] in *. destruct before as [|b before]; [reflexivity|].
    destruct (p b) eqn:Eb; [|reflexivity].
    rewrite (Hp b Eb) in E. cbn [exec] in E. now rewrite E.
  - destruct (exec _ Some _) as [st'|] eqn:E; [discriminate|].
    destruct (IH _ _ H) as [IH1 IH2]. split.
    + change (exec (Seq (Cls p) (Seq digits_2_4 stop)) Some
                (MState before (c :: s) []))
        with (if p c
              then exec (Seq digits_2_4 stop) Some (MState (c :: before) s [])
              else None).
      destruct (p c) eqn:Ec; [|exact IH1].
      rewrite search_at_eq in H.
      destruct (exec (Seq (NotBehind isdigit) (Seq digits_2_4 stop)) Some
                  (MState (c :: before) s [])) as [st1|] eqn:E1;
        [discriminate|].
      cbn [exec passed] in E1. rewrite (Hp c Ec) in E1. cbn [exec] in E1.
      cbn [exec]. rewrite E1. exact IH1.
    + cbn [exec passed] in *. destruct before as [|b before]; [exact IH2|].
      destruct (p b) eqn:Eb; [|exact IH2].
      rewrite (Hp b Eb) in E. cbn [exec] in E. rewrite E. exact IH2.
Qed.

Lemma room_patterns_first (s : pystr) :
  first_match room_patterns s = search unmarked_room s
  /\ first_match room_patterns_of_components s
     = search (Seq (NotBehind isdigit)
                 (Seq digits_2_4
                    (Ahead (Alt (Str (py "室")) (Alt (Str (py "房")) Eol)))))
         s.
Proof.
  split.
  - unfold room_patterns, first_match.
    destruct (search unmarked_room s) as [m|] eqn:E; [reflexivity|].
    unfold search, unmarked_room, lettered_room, hyphen_room in *.
    destruct (marked_room_none ascii_letter room_stop s letter_not_digit
                _ _ E) as [-> _].
    destruct (marked_room_none (one "-") room_stop s hyphen_not_digit
                _ _ E) as [_ ->].
    reflexivity.
  - unfold room_patterns_of_components, first_match. cbv zeta.
    match goal with
    | |- context [search ?r s] => destruct (search r s) as [m|] eqn:E
    end; [reflexivity|].
    unfold search in *.
    destruct (marked_room_none ascii_letter _ s letter_not_digit _ _ E)
      as [-> _].
    destruct (marked_room_none (oneof "东南西北") _ s
                (class_not_digit "东南西北" eq_refl) _ _ E) as [-> _].
    destruct (marked_room_none (one "-") _ s hyphen_not_digit _ _ E)
      as [_ ->].
    reflexivity.
Qed.

(** X3. In [_extract_building_info] the room is decided by the first of
    the three patterns alone: where it finds nothing, the pattern with a
    letter and the pattern with a hyphen find nothing either. The same
    holds of the four patterns of [_extract_address_components]. *)
Theorem room_is_found_by_first_pattern (s : pystr) :
  first_match room_patterns s = search unmarked_room s
  /\ first_match room_patterns_of_components s
     = search (Seq (NotBehind isdigit)
                 (Seq digits_2_4
                    (Ahead (Alt (Str (py "室")) (Alt (Str (py "房")) Eol)))))
         s.
Proof. exact (room_patterns_first s). Qed.

Lemma denotes_unmarked_room (t : pystr) :
  denotes unmarked_room t -> room_number t.
Proof.
  intros (t1 & t2 & -> & H1 & (ds & t4 & -> & Hd & H4)).
  simpl in H1, H4. subst. apply denotes_digits_2_4 in Hd.
  now rewrite app_nil_r.
Qed.

Lemma unit_and_room_sound (s : pystr) :
  let '(unit, room, _) := unit_and_room s in
  (unit = [] \/ unit_text unit) /\ (room = [] \/ room_number room).
Proof.
  unfold unit_and_room.
  destruct (search unit_pattern s) as [um|] eqn:Eu.
  - apply search_sound in Eu as [_ Du]. apply denotes_unit in Du.
    destruct (first_match room_patterns _) as [rm|] eqn:Er; [|auto].
    rewrite (proj1 (room_patterns_first _)) in Er.
    apply search_sound in Er as [_ Dr]. apply denotes_unmarked_room in Dr.
    auto.
  - destruct (first_match room_patterns s) as [rm|] eqn:Er; [|auto].
    rewrite (proj1 (room_patterns_first _)) in Er.
    apply search_sound in Er as [_ Dr]. apply denotes_unmarked_room in Dr.
    auto.
Qed.

(** X4. Whenever [_extract_building_info] returns, it returns three
    strings under [building], [unit] and [room]; the unit is empty or
    decimal digits followed by [单元], and the room is empty or two to four
    decimal digits: a letter before the digits is never part of it. *)
Theorem extract_building_info_unit_room :
  forall (address : pystr) (components : dict) (st st' : state) (r : dict),
    _extract_building_info address components st = (Ok r, st') ->
    exists building unit room,
      r = fields [("building", JStr building); ("unit", JStr unit);
                  ("room", JStr room)]
      /\ (unit = [] \/ unit_text unit)
      /\ (room = [] \/ room_number room).
Proof.
  intros address components st st' r H.
  unfold _extract_building_info in H.
  inv_bind H. inv_bind H. inv_bind H.
  destruct (special_hit special_keywords address) as [keep|].
  - inv_bind H. inv_bind H. apply ret_ok in H as [-> _].
    do 3 eexists. unfold jstr. simpl py. split; [reflexivity|]. auto.
  - match type of H with
    | context [unit_and_room ?x] =>
        pose proof (unit_and_room_sound x) as Hs;
        destruct (unit_and_room x) as [[u rm] rem]
    end.
    apply ret_ok in H as [-> _]. eauto.
Qed.

Lemma extract_building_info_unit_room_witness :
  exists building unit room,
    fields [("building", jstr "3号楼A"); ("unit", jstr "2单元");
            ("room", jstr "501")]
    = fields [("building", JStr building); ("unit", JStr unit);
              ("room", JStr room)]
    /\ (unit = [] \/ unit_text unit)
    /\ (room = [] \/ room_number room).
Proof.
  apply (extract_building_info_unit_room (py "3号楼2单元A501室") []
           (fresh (day "2025-01-02" 0 []))
           (snd (_extract_building_info (py "3号楼2单元A501室") []
                   (fresh (day "2025-01-02" 0 []))))).
  vm_compute. reflexivity.
Defined.

Lemma class_is_cjk (cs : string) :
  forallb cjk (py cs) = true -> forall c, oneof cs c = true -> cjk c = true.
Proof.
  intros H c Hc. apply oneof_in in Hc.
  rewrite forallb_forall in H. now apply H.
Qed.

Lemma denotes_possible_street (t : pystr) :
  Exists (fun r => denotes r t) possible_street_patterns ->
  3 <= length t /\ all_of cjk t.
Proof.
  unfold possible_street_patterns. cbv zeta. intros H.
  repeat (apply Exists_cons in H as [H|H];
          [destruct H as (name & t2 & -> & Hn & H2);
           apply denotes_RepMin in Hn as [L A];
           rewrite length_app
          |]); [..|inversion H].
  all: try (destruct H2 as (c & -> & Hc);
            split; [simpl; lia|];
            apply all_of_app; [exact A|];
            constructor; [|constructor];
            revert c Hc; apply class_is_cjk; vm_compute; reflexivity).
  all: destruct H2 as (t3 & t4 & -> & (c & -> & Hc) & H4);
    simpl in H4; subst t4;
    (split; [simpl; lia|]);
    apply all_of_app; [exact A|];
    constructor; [|constructor];
    revert c Hc; apply class_is_cjk; vm_compute; reflexivity.
Qed.

(** X5. The street [_extract_possible_street] returns, when it returns,
    is empty or a run of at least three Chinese characters that stands in
    the formatted address as it is once the regions are removed. *)
Theorem extract_possible_street_sound :
  forall (formatted_address : json) (regions_to_remove : list json)
         (street : pystr),
    _extract_possible_street formatted_address regions_to_remove = Ok street ->
    street = []
    \/ (3 <= length street /\ all_of cjk street
        /\ exists remaining_address,
             strip_regions regions_to_remove formatted_address
             = Ok (JStr remaining_address)
             /\ occurs_in street remaining_address).
Proof.
  intros fa regions street H. unfold _extract_possible_street in H.
  destruct (strip_regions regions fa) as [[| | |rem| |]|e]; try discriminate.
  destruct (first_match possible_street_patterns rem) as [m|] eqn:E;
    injection H as <-; [|now left].
  right. apply first_match_sound in E as [Ho D].
  apply denotes_possible_street in D as [L A].
  split; [exact L|]. split; [exact A|]. exists rem. auto.
Qed.

Lemma extract_possible_street_sound_witness :
  py "中关村大街" = []
  \/ (3 <= length (py "中关村大街") /\ all_of cjk (py "中关村大街")
      /\ exists remaining_address,
           strip_regions [jstr "北京市"; jstr "北京市"; jstr "海淀区"]
             (jstr "北京市海淀区中关村大街1号")
           = Ok (JStr remaining_address)
           /\ occurs_in (py "中关村大街") remaining_address).
Proof.
  apply (extract_possible_street_sound (jstr "北京市海淀区中关村大街1号")
           [jstr "北京市"; jstr "北京市"; jstr "海淀区"]).
  vm_compute. reflexivity.
Defined.

(** ** The gateway's counters and clock *)

Lemma count_of_store_other (path q : pystr) (n : nat) counter :
  eqb q path = false -> count_of q (store path n counter) = count_of q counter.
Proof. intros H. unfold count_of. now rewrite lookup_store_other. Qed.

Lemma check_quota_frame (path : pystr) (st : state) :
  exists st',
    _check_quota path st
    = (Ok (used_today path st + 1 <=? quota_of path), st')
    /\ env st' = env st
    /\ key (self st') = key (self st)
    /\ last_request_time (self st') = last_request_time (self st)
    /\ request_count (self st') = request_count (self st)
    /\ _district_cache (self st') = _district_cache (self st)
    /\ _quota_date (self st') = Some (today (env st))
    /\ forall q,
         count_of q (_quota_counter (self st'))
         = used_today q st + (if eqb q path then 1 else 0).
Proof.
  destruct st as [p w].
  unfold _check_quota, bind, get_env, get_self, set_self, ret.
  cbn [env self]. eexists. split.
  - f_equal. f_equal. rewrite count_of_store. unfold used_today.
    cbn [env self].
    destruct (_quota_date p) as [d|]; [|reflexivity].
    destruct (eqb d (today w)); reflexivity.
  - cbn [env self key last_request_time request_count _district_cache
         _quota_date _quota_counter].
    repeat (split; [reflexivity|]).
    assert (forall q counter,
              count_of q (store path (count_of path counter + 1) counter)
              = count_of q counter + (if eqb q path then 1 else 0)) as Hc.
    { intros q counter. destruct (eqb q path) eqn:E.
      - apply eqb_eq in E. subst. apply count_of_store.
      - rewrite count_of_store_other by exact E. lia. }
    unfold used_today. cbn [env self].
    destruct (_quota_date p) as [d|]; cbn [negb].
    + destruct (eqb d (today w)) eqn:E; cbn [negb]; split;
        try reflexivity; try (intros q; apply Hc).
      apply eqb_eq in E. now subst.
    + split; [reflexivity | intros q; apply Hc].
Qed.

(** X6. [_check_quota] never raises and touches nothing but the counters
    and their date: the clock, the provider's answers, the key, the time
    of the last request, the number of requests and the district cache are
    what they were. It answers whether the attempt it has just counted is
    within the limit of the path; the counters bear the date of the call;
    the count of every other path is what it was that day; on a date other
    than the stored one every count starts again from zero. *)
Theorem check_quota_counts_per_path (path : pystr) (st : state) :
  exists st',
    _check_quota path st
    = (Ok (used_today path st + 1 <=? quota_of path), st')
    /\ env st' = env st
    /\ key (self st') = key (self st)
    /\ last_request_time (self st') = last_request_time (self st)
    /\ request_count (self st') = request_count (self st)
    /\ _district_cache (self st') = _district_cache (self st)
    /\ _quota_date (self st') = Some (today (env st))
    /\ forall q,
         used_today q st'
         = used_today q st + (if eqb q path then 1 else 0).
Proof.
  destruct (check_quota_frame path st)
    as (st' & E & He & Hk & Hl & Hn & Hdc & Hd & Hc).
  exists st'. repeat (split; [assumption|]).
  intros q. unfold used_today at 1. rewrite Hd, He, eqb_refl. apply Hc.
Qed.

(** What follows the quota check in [_make_request], and the handlers,
    leave the counters, their date, the key and the district cache as the
    check left them. *)
Lemma rate_limit_frame (st : state) :
  exists st',
    _rate_limit st = (Ok tt, st')
    /\ (last_request_time (self st) + 100 <= last_request_time (self st'))%Z
    /\ (clock (env st) <= last_request_time (self st'))%Z
    /\ request_count (self st') = request_count (self st) + 1
    /\ _quota_counter (self st') = _quota_counter (self st)
    /\ _quota_date (self st') = _quota_date (self st)
    /\ key (self st') = key (self st)
    /\ _district_cache (self st') = _district_cache (self st)
    /\ inbox (env st') = inbox (env st)
    /\ today (env st') = today (env st).
Proof.
  destruct st as [p w].
  unfold _rate_limit, bind, get_env, get_self, set_self, sleep, ret;
    cbn [env self clock].
  destruct (clock w - last_request_time p <? 100)%Z eqn:E;
    cbn [env self clock last_request_time request_count _quota_counter
         _quota_date key _district_cache inbox today];
    eexists; (split; [reflexivity|]);
    cbn [env self clock last_request_time request_count _quota_counter
         _quota_date key _district_cache inbox today];
    repeat split; try reflexivity; lia.
Qed.

Lemma make_request_tail (params : dict) (st1 : state) r st' :
  (_rate_limit ;; urlencode params ;;
   result <- fetch ;; _check_response result ;; ret result) st1 = (r, st') ->
  quota_fields (self st') = quota_fields (self st1)
  /\ (last_request_time (self st1) + 100 <= last_request_time (self st'))%Z
  /\ request_count (self st') = request_count (self st1) + 1.
Proof.
  intros H. unfold bind at 1 in H.
  destruct (rate_limit_frame st1)
    as (st2 & E & Hl & _ & Hn & Hc & Hd & Hk & Hdc & _).
  rewrite E in H. clear E.
  assert (quota_fields (self st2) = quota_fields (self st1)) as Hq
    by (unfold quota_fields; now rewrite Hc, Hd, Hk, Hdc).
  rewrite <- Hq, <- Hn. clear Hq Hn Hc Hd Hk Hdc.
  unfold bind at 1 in H.
  pose proof (urlencode_keeps_state params st2) as Hu.
  destruct (urlencode params st2) as [[[]|e] st3]; simpl in Hu; subst st3;
    [|injection H as _ <-; auto].
  unfold bind at 1 in H.
  pose proof (fetch_keeps_self st2) as Hf.
  destruct (fetch st2) as [[j|e] st4]; cbn [snd] in Hf;
    [|injection H as _ <-; rewrite Hf; auto].
  unfold bind at 1 in H.
  pose proof (check_response_keeps_state j st4) as Hk.
  destruct (_check_response j st4) as [[[]|e] st5]; cbn [snd] in Hk;
    subst st5; injection H as _ <-; rewrite Hf; auto.
Qed.

(** [_make_request] in two cases: refused by the quota check, or sent. *)
Lemma make_request_cases (path : pystr) (params : dict) (st : state) r st' :
  _make_request path params st = (r, st') ->
  exists st1,
    _check_quota path st
    = (Ok (used_today path st + 1 <=? quota_of path), st1)
    /\ ((quota_of path < used_today path st + 1
         /\ st' = st1 /\ is_ok r = false)
        \/ (used_today path st + 1 <= quota_of path
            /\ exists r0,
                 (_rate_limit ;; urlencode params ;;
                  result <- fetch ;; _check_response result ;; ret result)
                   st1 = (r0, st')
                 /\ match r0 with
                    | Ok j => r = Ok j
                    | Raise _ => is_ok r = false
                    end)).
Proof.
  intros H.
  destruct (check_quota_frame path st) as (st1 & E & _).
  exists st1. split; [exact E|].
  unfold _make_request, try_except in H. unfold bind at 1 in H.
  rewrite E in H.
  destruct (used_today path st + 1 <=? quota_of path) eqn:Eq.
  - right. apply Nat.leb_le in Eq. split; [exact Eq|].
    cbn [negb] in H. unfold bind at 1 in H. cbn [ret] in H.
    match type of H with
    | match ?c with _ => _ end = _ => destruct c as [[j|e] st2] eqn:Et
    end.
    + injection H as <- <-. exists (Ok j). auto.
    + exists (Raise e).
      destruct e; unfold bind, get_env, raise in H; injection H as <- <-;
        auto.
  - left. apply Nat.leb_gt in Eq. split; [lia|].
    cbn [negb] in H. unfold bind at 1 in H. unfold raise at 1 in H.
    unfold bind, get_env, raise in H. injection H as <- <-. auto.
Qed.

(** X7. Every call of [_make_request] is counted, whether it returns or
    raises: afterwards the counters bear the date of the call, the count
    of the path is one more than it was that day, and the count of every
    other path is what it was. *)
Theorem make_request_charges_every_attempt :
  forall (path : pystr) (params : dict) (st st' : state) (r : outcome json),
    _make_request path params st = (r, st') ->
    _quota_date (self st') = Some (today (env st))
    /\ forall q,
         count_of q (_quota_counter (self st'))
         = used_today q st + (if eqb q path then 1 else 0).
Proof.
  intros path params st st' r H.
  apply make_request_cases in H as (st1 & E & H).
  destruct (check_quota_frame path st) as (st1' & E' & _ & _ & _ & _ & _ & Hd & Hc).
  rewrite E in E'. injection E' as <-.
  assert (quota_fields (self st') = quota_fields (self st1)) as Hq.
  { destruct H as [(_ & -> & _) | (_ & r0 & Ht & _)]; [reflexivity|].
    now apply make_request_tail in Ht. }
  unfold quota_fields in Hq. injection Hq as _ Hcnt Hdate _.
  rewrite Hcnt, Hdate. auto.
Qed.

Lemma make_request_charges_every_attempt_witness :
  _quota_date
    (self (snd (_make_request ip_path []
                  (fresh (day "2025-01-02" 0 [invalid_key_answer])))))
  = Some (py "2025-01-02")
  /\ forall q,
       count_of q
         (_quota_counter
            (self (snd (_make_request ip_path []
                          (fresh (day "2025-01-02" 0 [invalid_key_answer]))))))
       = 0 + (if eqb q ip_path then 1 else 0).
Proof.
  apply (make_request_charges_every_attempt ip_path []
           (fresh (day "2025-01-02" 0 [invalid_key_answer])) _
           (fst (_make_request ip_path []
                   (fresh (day "2025-01-02" 0 [invalid_key_answer]))))).
  vm_compute. reflexivity.
Defined.

Lemma make_request_refused (path : pystr) (params : dict) (st : state) :
  quota_of path <= used_today path st ->
  exists e st',
    _make_request path params st = (Raise e, st')
    /\ env st' = env st
    /\ last_request_time (self st') = last_request_time (self st)
    /\ request_count (self st') = request_count (self st)
    /\ used_today path st' = used_today path st + 1.
Proof.
  intros Hq.
  destruct (_make_request path params st) as [r st'] eqn:H.
  pose proof H as H0.
  apply make_request_cases in H as (st1 & E & [(_ & -> & Hr)|(Hle & _)]);
    [|lia].
  destruct r as [j|e]; [discriminate|].
  destruct (check_quota_frame path st)
    as (st1' & E' & He & _ & Hl & Hn & _ & Hd & Hc).
  rewrite E in E'. injection E' as <-.
  exists e, st1. repeat (split; [auto|]).
  unfold used_today at 1. rewrite Hd, He, eqb_refl, Hc, eqb_refl.
  reflexivity.
Qed.

(** X8. Past the limit of its path a request is refused before anything
    is sent: [_make_request] raises, no exchange with the provider takes
    place, the clock, the time of the last request and the number of
    requests are what they were; the refused attempt is counted all the
    same. *)
Theorem make_request_refused_sends_nothing :
  forall (path : pystr) (params : dict) (st : state),
    quota_of path <= used_today path st ->
    exists e st',
      _make_request path params st = (Raise e, st')
      /\ env st' = env st
      /\ last_request_time (self st') = last_request_time (self st)
      /\ request_count (self st') = request_count (self st)
      /\ used_today path st' = used_today path st + 1.
Proof. exact make_request_refused. Qed.

Lemma make_request_refused_sends_nothing_witness :
  exists e st',
    _make_request place_text [] search_quota_used = (Raise e, st')
    /\ env st' = env search_quota_used
    /\ last_request_time (self st') = last_request_time (self search_quota_used)
    /\ request_count (self st') = request_count (self search_quota_used)
    /\ used_today place_text st' = used_today place_text search_quota_used + 1.
Proof.
  apply (make_request_refused_sends_nothing place_text [] search_quota_used).
  apply Nat.leb_le. vm_compute. reflexivity.
Defined.

(** X9. [request_count] counts the attempts that pass the quota check,
    and nothing else. A call of [_make_request] within the daily limit of
    its path adds one to it, whether the request then succeeds or fails
    (a parameter cannot be encoded, the exchange fails, the provider
    answers with an error); a call past the limit leaves it as it is. *)
Theorem make_request_count_follows_quota :
  forall (path : pystr) (params : dict) (st st' : state) (r : outcome json),
    _make_request path params st = (r, st') ->
    request_count (self st')
    = request_count (self st)
      + (if used_today path st <? quota_of path then 1 else 0).
Proof.
  intros path params st st' r H.
  apply make_request_cases in H as (st1 & E & H).
  destruct (check_quota_frame path st)
    as (st1' & E' & _ & _ & _ & Hn & _).
  rewrite E in E'. injection E' as <-.
  destruct H as [(Hq & -> & _) | (Hq & r0 & Ht & _)].
  - replace (used_today path st <? quota_of path) with false
      by (symmetry; apply Nat.ltb_ge; lia).
    rewrite Hn. lia.
  - replace (used_today path st <? quota_of path) with true
      by (symmetry; apply Nat.ltb_lt; lia).
    apply make_request_tail in Ht as (_ & _ & Hn'). now rewrite Hn', Hn.
Qed.

Lemma make_request_count_follows_quota_witness :
  request_count
    (self (snd (_make_request ip_path []
                  (fresh (day "2025-01-02" 0 [invalid_key_answer])))))
  = 1
  /\ request_count
       (self (snd (_make_request place_text [] search_quota_used)))
     = 100.
Proof.
  split.
  - apply (make_request_count_follows_quota ip_path []
             (fresh (day "2025-01-02" 0 [invalid_key_answer])) _
             (fst (_make_request ip_path []
                     (fresh (day "2025-01-02" 0 [invalid_key_answer]))))).
    vm_compute. reflexivity.
  - apply (make_request_count_follows_quota place_text []
             search_quota_used _
             (fst (_make_request place_text [] search_quota_used))).
    vm_compute. reflexivity.
Defined.

(** ** What the gateway accepts *)

Lemma is_str_dget (d : dict) (k : string) (s : pystr) :
  is_str (dget d k JNull) s = true <-> lookup (py k) d = Some (JStr s).
Proof.
  unfold dget. destruct (lookup (py k) d) as [[| | |t| |]|]; simpl;
    split; intros H; try discriminate.
  - apply eqb_eq in H. now subst.
  - injection H as ->. apply eqb_refl.
Qed.

Lemma check_response_ok (result : json) (st st' : state) :
  _check_response result st = (Ok tt, st') ->
  exists d, result = JObj d /\ lookup (py "status") d = Some (jstr "1").
Proof.
  unfold _check_response. intros H.
  destruct (negb (truthy result)); [discriminate|].
  destruct result as [| | | | |d]; try discriminate.
  unfold bind, lift, get in H.
  destruct (negb (is_str (dget d "status" JNull) (py "1"))) eqn:E.
  - destruct (table_get _ _ _); discriminate.
  - apply negb_false_iff in E. apply is_str_dget in E. eauto.
Qed.

(** X10. What [_check_response] accepts and what it reports. It returns
    exactly for the dicts whose [status] is ['1'], and changes nothing.
    For a dict that is not empty, whose status is another one and whose
    [infocode] is a string, it raises an [AmapError] with that code and
    the text of the table for it, or the provider's [info] when the table
    has none. *)
Theorem check_response_accepts_status_1 :
  (forall result st st',
     _check_response result st = (Ok tt, st') <->
     (exists d, result = JObj d /\ lookup (py "status") d = Some (jstr "1"))
     /\ st' = st)
  /\ (forall d code st,
        d <> [] ->
        lookup (py "status") d <> Some (jstr "1") ->
        lookup (py "infocode") d = Some (JStr code) ->
        _check_response (JObj d) st
        = (Raise (AmapError (JStr code)
                    (error_text code (dget d "info" JNull))), st)).
Proof.
  split.
  - intros result st st'. split.
    + intros H. split; [eapply check_response_ok; eauto|].
      pose proof (check_response_keeps_state result st) as Hk.
      rewrite H in Hk. exact Hk.
    + intros [(d & -> & Hs) ->].
      unfold _check_response.
      assert (truthy (JObj d) = true) as ->
        by (destruct d; [discriminate | reflexivity]).
      cbn [negb]. unfold bind, lift, get.
      apply is_str_dget in Hs. rewrite Hs. reflexivity.
  - intros d code st Hd Hs Hc.
    unfold _check_response.
    assert (truthy (JObj d) = true) as ->
      by (destruct d; [contradiction | reflexivity]).
    cbn [negb]. unfold bind, lift, get.
    destruct (is_str (dget d "status" JNull) (py "1")) eqn:E.
    + apply is_str_dget in E. contradiction.
    + cbn [negb].
      assert (dget d "infocode" JNull = JStr code) as ->
        by (unfold dget; now rewrite Hc).
      unfold table_get, error_text, raise.
      destruct (find _ ERROR_MESSAGES); reflexivity.
Qed.

Lemma check_response_accepts_status_1_witness :
  (_check_response ok_answer (fresh (day "2025-01-02" 0 []))
   = (Ok tt, fresh (day "2025-01-02" 0 [])))
  /\ _check_response invalid_key_answer (fresh (day "2025-01-02" 0 []))
     = (Raise (AmapError (jstr "10001") (jstr "API密钥不正确或已过期")),
        fresh (day "2025-01-02" 0 [])).
Proof.
  destruct check_response_accepts_status_1 as [H1 H2]. split.
  - apply H1. split; [|reflexivity].
    exists (fields [("status", jstr "1")]). split; reflexivity.
  - apply (H2 (fields [("status", jstr "0");
                       ("info", jstr "INVALID_USER_KEY");
                       ("infocode", jstr "10001")])
              (py "10001")).
    + discriminate.
    + vm_compute. discriminate.
    + reflexivity.
Defined.

Lemma make_request_ok (path : pystr) (params : dict) (st st' : state) r :
  _make_request path params st = (Ok r, st') ->
  exists d, r = JObj d /\ lookup (py "status") d = Some (jstr "1").
Proof.
  intros H.
  apply make_request_cases in H as (st1 & E & [(_ & _ & Hr)|(_ & r0 & Ht & Hr)]);
    [discriminate|].
  destruct r0 as [j|e]; [injection Hr as ->|discriminate].
  inv_bind Ht. inv_bind Ht. inv_bind Ht. inv_bind Ht.
  apply ret_ok in Ht as [-> _].
  match goal with
  | H : _check_response _ _ = (Ok ?u, _) |- _ =>
      destruct u; eapply check_response_ok; exact H
  end.
Qed.

(** X11. Whatever [_make_request] returns is a dict whose [status] is
    ['1']: the tests of the status that its callers make after it are
    always passed. *)
Theorem make_request_returns_status_1 :
  forall (path : pystr) (params : dict) (st st' : state) (r : json),
    _make_request path params st = (Ok r, st') ->
    exists d, r = JObj d /\ lookup (py "status") d = Some (jstr "1").
Proof. exact make_request_ok. Qed.

Lemma make_request_returns_status_1_witness :
  exists d, ok_answer = JObj d /\ lookup (py "status") d = Some (jstr "1").
Proof.
  apply (make_request_returns_status_1 ip_path []
           (fresh (day "2025-01-02" 30 [ok_answer]))
           (snd (_make_request ip_path []
                   (fresh (day "2025-01-02" 30 [ok_answer]))))).
  vm_compute. reflexivity.
Defined.

(** ** The lookups built on the gateway *)

(** X12. What [_convert_coordinates] returns. When its request to the
    gateway returns, the method returns what the answer has under
    [locations], the empty string when there is no such key. When the
    request raises, the method returns nothing but the coordinates it was
    given. In both cases the state is the one the request left. *)
Theorem convert_coordinates_result :
  forall (locations coordsys : pystr) (st : state),
    let request :=
      _make_request (py "/v3/assistant/coordinate/convert")
        [(py "locations", JStr locations); (py "coordsys", JStr coordsys);
         (py "key", JStr (key (self st))); (py "output", jstr "json")] in
    (forall d st',
       request st = (Ok (JObj d), st') ->
       _convert_coordinates locations coordsys st
       = (Ok (dget d "locations" (jstr "")), st'))
    /\ (forall e st1 r st',
          request st = (Raise e, st1) ->
          _convert_coordinates locations coordsys st = (Ok r, st') ->
          r = JStr locations /\ st' = st1).
Proof.
  intros locations coordsys st request. subst request. split.
  - intros d st' H. unfold _convert_coordinates, try_except.
    unfold bind at 1. unfold get_self at 1. unfold bind at 1.
    pose proof H as H0. apply make_request_ok in H0 as (d' & E & Hs).
    injection E as <-.
    rewrite H.
    unfold bind, lift, get. apply is_str_dget in Hs. rewrite Hs. reflexivity.
  - intros e st1 r st' H. unfold _convert_coordinates, try_except.
    unfold bind at 1. unfold get_self at 1. unfold bind at 1.
    rewrite H. unfold ret. intros E. injection E as <- <-. auto.
Qed.

Lemma convert_coordinates_result_witness :
  _convert_coordinates (py "116.3,39.9") (py "gps")
    (fresh (day "2025-01-02" 0
              [obj [("status", jstr "1");
                    ("locations", jstr "116.306,39.901")]]))
  = (Ok (jstr "116.306,39.901"),
     snd (_make_request (py "/v3/assistant/coordinate/convert")
            [(py "locations", jstr "116.3,39.9"); (py "coordsys", jstr "gps");
             (py "key", jstr ""); (py "output", jstr "json")]
            (fresh (day "2025-01-02" 0
                      [obj [("status", jstr "1");
                            ("locations", jstr "116.306,39.901")]]))))
  /\ fst (_convert_coordinates (py "116.3,39.9") (py "gps")
            (fresh (day "2025-01-02" 0 [invalid_key_answer])))
     = Ok (jstr "116.3,39.9").
Proof.
  split.
  - apply (proj1 (convert_coordinates_result (py "116.3,39.9") (py "gps")
                    (fresh (day "2025-01-02" 0
                              [obj [("status", jstr "1");
                                    ("locations", jstr "116.306,39.901")]])))
             (fields [("status", jstr "1");
                      ("locations", jstr "116.306,39.901")])).
    vm_compute. reflexivity.
  - destruct (_convert_coordinates (py "116.3,39.9") (py "gps")
                (fresh (day "2025-01-02" 0 [invalid_key_answer])))
      as [[r|e] st'] eqn:E; [|vm_compute in E; discriminate E].
    cbn [fst]. f_equal.
    eapply (proj2 (convert_coordinates_result (py "116.3,39.9") (py "gps")
                     (fresh (day "2025-01-02" 0 [invalid_key_answer]))));
      [|exact E].
    vm_compute. reflexivity.
Defined.

(** ** The district cache *)

Lemma try_except_inv {A} (c : M A) (h : exn -> M A) st r st' :
  try_except c h st = (r, st') ->
  (exists a, c st = (Ok a, st') /\ r = Ok a)
  \/ (exists e st1, c st = (Raise e, st1) /\ h e st1 = (r, st')).
Proof.
  unfold try_except. destruct (c st) as [[a|e] st1]; intros H.
  - injection H as <- <-. left. eauto.
  - right. eauto.
Qed.

Lemma bind_inv {A B} (c : M A) (k : A -> M B) st r st' :
  bind c k st = (r, st') ->
  (exists a st1, c st = (Ok a, st1) /\ k a st1 = (r, st'))
  \/ (exists e, c st = (Raise e, st') /\ r = Raise e).
Proof.
  unfold bind. destruct (c st) as [[a|e] st1]; intros H.
  - left. eauto.
  - injection H as <- <-. right. eauto.
Qed.

Lemma make_request_keeps (path : pystr) (params : dict) (st st' : state) r :
  _make_request path params st = (r, st') ->
  key (self st') = key (self st)
  /\ _district_cache (self st') = _district_cache (self st).
Proof.
  intros H. apply make_request_cases in H as (st1 & E & H).
  destruct (check_quota_frame path st)
    as (st1' & E' & _ & Hk & _ & _ & Hdc & _).
  rewrite E in E'. injection E' as <-.
  assert (quota_fields (self st') = quota_fields (self st1)) as Hq.
  { destruct H as [(_ & -> & _) | (_ & r0 & Ht & _)]; [reflexivity|].
    now apply make_request_tail in Ht. }
  unfold quota_fields in Hq. injection Hq as Hk' _ _ Hdc'.
  rewrite Hk', Hdc'. auto.
Qed.

(** A name that is in the cache is answered from it, and nothing
    changes. *)
Lemma get_district_by_name_hit (name : pystr) (st : state) c info :
  _district_cache (self st) = Some c ->
  lookup name c = Some info ->
  _get_district_by_name name st = (Ok (JObj info), st).
Proof.
  intros Hc Hl. destruct st as [p w]. destruct p as [k l n q d dc].
  cbn [self _district_cache] in Hc. subst dc.
  unfold _get_district_by_name, try_except, bind, get_self, set_self.
  cbn [self env key last_request_time request_count _quota_counter
       _quota_date _district_cache].
  rewrite Hl. reflexivity.
Qed.

(** The steps that read a value leave the state as it is. *)
Ltac same_states :=
  repeat match goal with
         | H : lift _ _ = (Ok _, _) |- _ =>
             apply lift_ok in H as [_ ?]; subst
         | H : (if ?b then lift _ else ret _) _ = (Ok _, _) |- _ =>
             destruct b;
             [apply lift_ok in H as [_ ?] | apply ret_ok in H as [_ ?]];
             subst
         end.

(** The three ways [_get_district_by_name] ends: answered from the cache;
    nothing found, the cache as it was; a record built from the
    provider's answer and stored. *)
Lemma get_district_by_name_cases (name : pystr) (st st1 : state) r :
  _get_district_by_name name st = (r, st1) ->
  (exists info,
     lookup name (cache_of st) = Some info /\ r = Ok (JObj info)
     /\ cache_of st1 = cache_of st
     /\ _district_cache (self st1) = Some (cache_of st))
  \/ (r = Ok (JObj [])
      /\ _district_cache (self st1) = Some (cache_of st))
  \/ (exists info,
        district_record info /\ r = Ok (JObj info)
        /\ _district_cache (self st1) = Some (store name info (cache_of st))).
Proof.
  intros H. unfold _get_district_by_name in H.
  apply try_except_inv in H as [(a & H & ->) | (e & st2 & H & Hh)].
  - unfold bind at 1, get_self at 1 in H.
    unfold bind at 1, set_self at 1 in H. cbn [self env] in H.
    fold (cache_of st) in H.
    destruct (lookup name (cache_of st)) as [info|] eqn:El.
    + apply ret_ok in H as [-> ->]. left. exists info.
      unfold cache_of. cbn [self _district_cache]. auto.
    + right. inv_bind H.
      match goal with
      | H : _make_request _ _ _ = _ |- _ =>
          apply make_request_keeps in H as [_ Hdc];
          cbn [self _district_cache] in Hdc
      end.
      inv_bind H. inv_bind H.
      match type of H with context [truthy ?x] => destruct (truthy x) end.
      * right. do 6 inv_bind H. inv_bind H. inv_bind H.
        apply ret_ok in H as [-> ->]. same_states.
        all: eexists; (split; [|split; [reflexivity|]]);
          [reflexivity | cbn [self _district_cache]; now rewrite Hdc].
      * left. apply ret_ok in H as [-> ->]. same_states. all: auto.
  - right. left. unfold ret in Hh. injection Hh as <- <-.
    split; [reflexivity|].
    unfold bind at 1, get_self at 1 in H.
    unfold bind at 1, set_self at 1 in H. cbn [self env] in H.
    fold (cache_of st) in H.
    destruct (lookup name (cache_of st)) as [info|]; [discriminate|].
    apply bind_inv in H as [(res & st3 & H0 & H) | (e' & H0 & _)].
    + apply make_request_keeps in H0 as [_ Hdc].
      cbn [self _district_cache] in Hdc.
      assert (forall {A} (o : outcome A) (k : A -> M json) s r' s',
                bind (lift o) k s = (r', s') ->
                (exists a, o = Ok a /\ k a s = (r', s'))
                \/ s' = s) as Hlift.
      { intros A o k s r' s' Hb. destruct o as [a|e0].
        - left. exists a. auto.
        - right. unfold bind, lift in Hb. now injection Hb as _ <-. }
      apply Hlift in H as [(status & _ & H)| ->]; [|exact Hdc].
      apply bind_inv in H as [(ds & st4 & H0 & H) | (e' & H0 & _)].
      2:{ destruct (is_str status (py "1"));
          [unfold lift in H0 | unfold ret in H0];
          injection H0 as _ <-; exact Hdc. }
      assert (st4 = st3) as ->.
      { destruct (is_str status (py "1"));
          [unfold lift in H0 | unfold ret in H0];
          now injection H0 as _ <-. }
      destruct (truthy ds); [|discriminate].
      repeat (apply Hlift in H as [(? & _ & H)| ->]; [|exact Hdc]).
      unfold bind, get_self, set_self, ret in H. discriminate.
    + apply make_request_keeps in H0 as [_ Hdc].
      cbn [self _district_cache] in Hdc. exact Hdc.
Qed.

Lemma lookup_store_inv {V} (k k' : pystr) (v v' : V) d :
  lookup k' (store k v d) = Some v' ->
  (k' = k /\ v' = v) \/ lookup k' d = Some v'.
Proof.
  destruct (eqb k' k) eqn:E.
  - apply eqb_eq in E. subst. rewrite lookup_store_same.
    intros H; injection H as <-. auto.
  - rewrite lookup_store_other by exact E. auto.
Qed.

(** X13. A district that [_get_district_by_name] has found is answered
    from the cache afterwards: the next call for the same name returns the
    same record and changes nothing, so it makes no request and is not
    counted. (An empty answer is not kept: the next call asks again.) *)
Theorem get_district_by_name_cached :
  forall (name : pystr) (st st1 : state) (d : dict),
    _get_district_by_name name st = (Ok (JObj d), st1) ->
    d <> [] ->
    _get_district_by_name name st1 = (Ok (JObj d), st1).
Proof.
  intros name st st1 d H Hd.
  apply get_district_by_name_cases in H
    as [(info & Hl & E & Hc & Hdc) | [(E & _) | (info & _ & E & Hdc)]].
  - injection E as ->.
    eapply get_district_by_name_hit; [exact Hdc | exact Hl].
  - injection E as ->. contradiction.
  - injection E as ->.
    eapply get_district_by_name_hit; [exact Hdc|].
    apply lookup_store_same.
Qed.

Lemma get_district_by_name_cached_witness :
  _get_district_by_name (py "临县")
    (snd (_get_district_by_name (py "临县")
            (fresh (day "2025-01-02" 0 [lin_county_answer]))))
  = (Ok (obj [("province", jstr "山西省"); ("city", jstr "吕梁市");
              ("district", jstr "临县"); ("adcode", jstr "141124")]),
     snd (_get_district_by_name (py "临县")
            (fresh (day "2025-01-02" 0 [lin_county_answer])))).
Proof.
  apply (get_district_by_name_cached (py "临县")
           (fresh (day "2025-01-02" 0 [lin_county_answer]))).
  - vm_compute. reflexivity.
  - discriminate.
Defined.

(** X14. What [_get_district_by_name] returns is a dict: the empty one,
    or a record with the four keys [province], [city], [district] and
    [adcode]. This holds in a parser whose cache holds only such records
    (the cache of a new parser is such a one), and the cache is still such
    a one after the call. *)
Theorem get_district_by_name_record :
  forall (name : pystr) (st st' : state) (r : json),
    cache_sound st ->
    _get_district_by_name name st = (Ok r, st') ->
    (exists d, r = JObj d /\ (d = [] \/ district_record d))
    /\ cache_sound st'.
Proof.
  intros name st st' r Hs H.
  apply get_district_by_name_cases in H
    as [(info & Hl & E & Hc & _) | [(E & Hdc) | (info & Hi & E & Hdc)]];
    injection E as ->.
  - split; [exists info; split; [reflexivity | right; eapply Hs; exact Hl]|].
    unfold cache_sound. rewrite Hc. exact Hs.
  - split; [exists []; auto|].
    unfold cache_sound, cache_of at 1. rewrite Hdc. exact Hs.
  - split; [exists info; auto|].
    unfold cache_sound, cache_of at 1. rewrite Hdc.
    intros k d Hk. apply lookup_store_inv in Hk as [[_ ->] | Hk];
      [exact Hi | eapply Hs; exact Hk].
Qed.

Lemma get_district_by_name_record_witness :
  (exists d,
     obj [("province", jstr "山西省"); ("city", jstr "吕梁市");
          ("district", jstr "临县"); ("adcode", jstr "141124")] = JObj d
     /\ (d = [] \/ district_record d))
  /\ cache_sound
       (snd (_get_district_by_name (py "临县")
               (fresh (day "2025-01-02" 0 [lin_county_answer])))).
Proof.
  apply (get_district_by_name_record (py "临县")
           (fresh (day "2025-01-02" 0 [lin_county_answer]))).
  - intros name d H. discriminate H.
  - vm_compute. reflexivity.
Defined.

(** ** The weather *)

Lemma weather_part_keys (w : world) (entry : json) (kw kt kd kp : string) l :
  weather_part w entry kw kt kd kp = Ok l ->
  map fst l = ["weather"; "temperature"; "wind"]%string.
Proof.
  unfold weather_part. intros H.
  repeat match type of H with
         | match ?x with _ => _ end = _ =>
             destruct x; [|discriminate]
         end.
  injection H as <-. reflexivity.
Qed.

Lemma keys_of_fields (l : list (string * json)) :
  keys_of (fields l) = map py (map fst l).
Proof. unfold keys_of, fields. rewrite !map_map. reflexivity. Qed.

Lemma forecast_of_keys (cast : json) st a st' :
  forecast_of cast st = (Ok a, st') ->
  has_keys ["date"; "week"; "day"; "night"] a.
Proof.
  unfold forecast_of. intros H. do 5 inv_bind H.
  apply ret_ok in H as [-> _]. eexists. split; reflexivity.
Qed.

Lemma mapM_forall {A B} (f : A -> M B) (P : B -> Prop) :
  (forall x st a st', f x st = (Ok a, st') -> P a) ->
  forall l st ys st', mapM f l st = (Ok ys, st') -> Forall P ys.
Proof.
  intros Hf. induction l as [|x l IH]; intros st ys st' H; simpl in H.
  - apply ret_ok in H as [-> _]. constructor.
  - inv_bind H. inv_bind H. apply ret_ok in H as [-> _].
    constructor; [eapply Hf; eauto | eapply IH; eauto].
Qed.

Lemma get_weather_info_returns (adcode : json) :
  returns (_get_weather_info adcode) weather_shape.
Proof.
  unfold _get_weather_info. apply returns_try.
  2:{ intros e. apply returns_ret. now left. }
  intros st a st' H. inv_bind H. inv_bind H. inv_bind H.
  match type of H with
  | (if ?b then _ else _) _ = _ => destruct b
  end; [|apply ret_ok in H as [-> _]; now left].
  do 4 inv_bind H. apply ret_ok in H as [-> _].
  right. do 2 eexists. split; [reflexivity|]. split.
  - match goal with
    | H : (if truthy ?x then _ else _) _ = (Ok ?c, _) |- ?c = JNull \/ _ =>
        destruct (truthy x);
        [right | left; now apply ret_ok in H as [-> _]];
        do 6 inv_bind H; apply ret_ok in H as [-> _]
    end.
    match goal with
    | H : lift (weather_part _ _ _ _ _ _) _ = _ |- _ =>
        apply lift_ok in H as [H _]; apply weather_part_keys in H
    end.
    eexists. split; [reflexivity|].
    unfold fields. rewrite keys_of_fields, map_app.
    match goal with H : map fst _ = _ |- _ => rewrite H end.
    reflexivity.
  - match goal with
    | H : (if truthy ?x then _ else _) _ = (Ok ?c, _) |- Forall _ ?c =>
        destruct (truthy x);
        [|apply ret_ok in H as [-> _]; constructor];
        do 4 inv_bind H
    end.
    eapply mapM_forall; [|eassumption].
    intros x s b s'. apply forecast_of_keys.
Qed.

(** X15. What [_get_weather_info] returns is [None], or a dict with the
    two keys [current] and [forecast]: [current] is [None] or a dict with
    the keys [weather], [temperature], [wind], [humidity] and
    [reporttime], and [forecast] is a list of dicts with the keys [date],
    [week], [day] and [night]. *)
Theorem get_weather_info_shape :
  forall (adcode : json) (st st' : state) (v : json),
    _get_weather_info adcode st = (Ok v, st') -> weather_shape v.
Proof.
  intros adcode st st' v H.
  eapply returns_at; [apply get_weather_info_returns | exact H].
Qed.

Lemma get_weather_info_shape_witness :
  exists v,
    fst (_get_weather_info (jstr "110108")
           (fresh (day "2025-01-02" 5000 [forecast_answer]))) = Ok v
    /\ v <> JNull
    /\ weather_shape v.
Proof.
  eexists. split; [vm_compute; reflexivity|]. split; [discriminate|].
  apply (get_weather_info_shape (jstr "110108")
           (fresh (day "2025-01-02" 5000 [forecast_answer]))
           (snd (_get_weather_info (jstr "110108")
                   (fresh (day "2025-01-02" 5000 [forecast_answer]))))).
  vm_compute. reflexivity.
Defined.

(** *** The weather of the record *)

Lemma weather_field_store_other (k : string) (v : json) (r : dict) :
  eqb (py "weather") (py k) = false ->
  weather_field r -> weather_field (store (py k) v r).
Proof.
  intros Hk (w & Hl & Hw). exists w. split; [|exact Hw].
  rewrite lookup_store_other; assumption.
Qed.

Lemma weather_field_store (v : json) (r : dict) :
  weather_shape v -> weather_field (store (py "weather") v r).
Proof. intros Hv. exists v. split; [apply lookup_store_same | exact Hv]. Qed.

Lemma weather_field_components_of (province city district street : json) :
  weather_field (components_of province city district street).
Proof. exists JNull. split; [reflexivity | now left]. Qed.

Lemma weather_field_update (r : dict) (b u rm : pystr) :
  weather_field r ->
  weather_field (update r (fields [("building", JStr b); ("unit", JStr u);
                                   ("room", JStr rm)])).
Proof.
  intros (w & Hl & Hw). exists w. split; [|exact Hw].
  now rewrite update_keeps_weather.
Qed.

Lemma by_district_weather (clean_address : pystr) st r st' :
  by_district clean_address st = (Ok (Some r), st') -> weather_field r.
Proof.
  unfold by_district. intros H.
  inv_bind H. inv_bind H.
  match type of H with context [truthy ?x] => destruct (truthy x) end;
    [|apply ret_ok in H as [? _]; discriminate].
  do 4 inv_bind H. inv_bind H.
  apply ret_ok in H as [E _]. inversion E; subst r; clear E.
  match goal with
  | H : (if truthy ?x then _ else _) _ = (Ok _, _) |- _ =>
      destruct (truthy x);
      [inv_bind H; inv_bind H; apply ret_ok in H as [-> _];
       apply weather_field_store;
       eapply returns_at; [apply get_weather_info_returns | eassumption]
      | apply ret_ok in H as [-> _]]
  end.
  match goal with
  | |- weather_field (if ?c then _ else _) => destruct c
  end.
  - apply weather_field_store_other; [reflexivity|].
    apply weather_field_components_of.
  - apply weather_field_components_of.
Qed.

Lemma by_geocode_weather (clean_address : pystr) st r st' :
  by_geocode clean_address st = (Ok (Some r), st') -> weather_field r.
Proof.
  unfold by_geocode. intros H.
  inv_bind H. inv_bind H. inv_bind H.
  match type of H with context [truthy ?x] => destruct (truthy x) end;
    [|apply ret_ok in H as [? _]; discriminate].
  do 7 inv_bind H. inv_bind H.
  destruct (_extract_contact_info _) as [name phone].
  inv_bind H. inv_bind H.
  apply ret_ok in H as [E _]. inversion E; subst r; clear E.
  match goal with
  | H : _extract_building_info _ _ _ = _ |- _ =>
      apply extract_building_info_shape in H as (b & u & rm & ->)
  end.
  match goal with
  | H : context [_extract_possible_street] |- _ => rename H into Hs
  end.
  match type of Hs with _ = (Ok ?c, _) =>
    assert (weather_field c) as Hwf
  end.
  { match type of Hs with context [truthy ?x] =>
      destruct (truthy x);
      [inv_bind Hs; apply ret_ok in Hs as [-> _]
      | apply ret_ok in Hs as [-> _]]
    end.
    - match goal with |- weather_field (match ?s with _ => _ end) =>
        destruct s end.
      + apply weather_field_components_of.
      + apply weather_field_store_other; [reflexivity|].
        apply weather_field_components_of.
    - apply weather_field_components_of. }
  clear Hs.
  match goal with
  | H : (if truthy ?x then _ else _) _ = (Ok _, _) |- _ =>
      destruct (truthy x);
      [inv_bind H; inv_bind H; apply ret_ok in H as [-> _];
       apply weather_field_store;
       eapply returns_at; [apply get_weather_info_returns | eassumption]
      | apply ret_ok in H as [-> _]]
  end.
  do 2 (apply weather_field_store_other; [reflexivity|]).
  now apply weather_field_update.
Qed.

Lemma parse_address_by_text_weather (address : pystr) :
  returns (_parse_address_by_text address) weather_field.
Proof.
  unfold _parse_address_by_text.
  apply returns_bind
    with (P := fun r => match r with
                        | Some c => weather_field c
                        | None => True
                        end).
  - apply returns_try; [|intros e; now apply returns_ret].
    intros st [r|] st' H; [|exact I].
    rewrite by_text_body_eq in H. inv_bind H. inv_bind H.
    match type of H with
    | match ?x with _ => _ end _ = _ => destruct x as [c|]
    end.
    + apply ret_ok in H as [E _]. inversion E; subst.
      eapply by_district_weather; eauto.
    + eapply by_geocode_weather; eauto.
  - intros [c|] Hc; apply returns_ret;
      [exact Hc | apply weather_field_components_of].
Qed.

Lemma parse_address_weather (address : pystr)
  (coordinates coordsys : option pystr) :
  returns (parse_address address coordinates coordsys) weather_field.
Proof.
  unfold parse_address. apply returns_try.
  2:{ intros e. apply returns_ret, weather_field_components_of. }
  intros st r st' H.
  rewrite parse_address_body_eq in H. inv_bind H. inv_bind H. inv_bind H.
  match type of H with
  | match ?x with _ => _ end _ = _ => destruct x as [c|]
  end.
  - apply ret_ok in H as [-> _].
    match goal with
    | H : by_coordinates _ _ _ = _ |- _ =>
        apply by_coordinates_shape in H as [_ Hn]
    end.
    exists JNull. split; [exact Hn | now left].
  - eapply returns_at; [apply parse_address_by_text_weather | exact H].
Qed.

(** X16. Whatever the text, the coordinates and the answers of the
    provider, the record [parse_address] returns has under [weather]
    either [None] or a dict of the shape [_get_weather_info] gives: the
    keys [current] and [forecast], the forecast a list. *)
Theorem parse_address_weather_shape :
  forall (address : pystr) (coordinates coordsys : option pystr) (st : state),
  exists r st' weather,
    parse_address address coordinates coordsys st = (Ok r, st')
    /\ lookup (py "weather") r = Some weather
    /\ weather_shape weather.
Proof.
  intros address coordinates coordsys st.
  destruct (parse_address_weather address coordinates coordsys st)
    as (r & st' & E & w & Hl & Hw).
  exists r, st', w. auto.
Qed.

(** ** Search, key validation and the caller's city *)

(** X17. Once the hundred searches of the day are used, [_search_poi]
    returns the empty list without asking the provider: nothing is sent
    and the clock does not move. (The refusal is caught by the method's
    own handler; the line it prints holds no text of the provider.) *)
Theorem search_poi_quota :
  forall (keywords city types : pystr) (st : state),
    100 <= used_today place_text st ->
    exists st',
      _search_poi keywords city types st = (Ok (JArr []), st')
      /\ env st' = env st.
Proof.
  intros keywords city types st Hq.
  destruct (make_request_refused (py "/v3/place/text")
              [(py "key", JStr (key (self st)));
               (py "keywords", JStr keywords); (py "city", JStr city);
               (py "types", JStr types); (py "extensions", jstr "all");
               (py "output", jstr "json")] st Hq)
    as (e & st' & H & He & _).
  exists st'. split; [|exact He].
  unfold _search_poi, try_except.
  unfold bind at 1. unfold get_self at 1. unfold bind at 1.
  rewrite H. reflexivity.
Qed.

Lemma search_poi_quota_witness :
  exists st',
    _search_poi (py "咖啡") (py "北京") [] search_quota_used
    = (Ok (JArr []), st')
    /\ env st' = env search_quota_used.
Proof.
  apply (search_poi_quota (py "咖啡") (py "北京") [] search_quota_used).
  apply Nat.leb_le. vm_compute. reflexivity.
Defined.

(** X18. What [_validate_key] answers. When its request to the gateway
    returns, the method returns [True]. And whenever the method returns,
    the parser's own key is what it was, and the answer is [True] exactly
    when the request returned: a refusal for quota, a failure of the
    exchange and an error status give nothing but [False]. *)
Theorem validate_key_result :
  forall (key' : pystr) (st : state),
    let request :=
      _make_request (py "/v3/ip")
        [(py "key", JStr key'); (py "output", jstr "json")] in
    (forall r st',
       request st = (Ok r, st') -> _validate_key key' st = (Ok true, st'))
    /\ (forall b st',
          _validate_key key' st = (Ok b, st') ->
          key (self st') = key (self st)
          /\ (b = true <-> exists r, fst (request st) = Ok r)).
Proof.
  intros key' st request. subst request.
  unfold _validate_key, try_except. unfold bind at 1 3.
  destruct (_make_request (py "/v3/ip") _ st) as [[r|e] st1] eqn:H.
  - pose proof H as H0. apply make_request_ok in H0 as (d & -> & Hs).
    apply make_request_keeps in H as [Hk _].
    unfold bind, lift, get, ret. apply is_str_dget in Hs. rewrite Hs.
    split.
    + intros r st' E. now injection E as <- <-.
    + intros b st' E. injection E as <- <-. split; [exact Hk|].
      split; [intros _; exists (JObj d) | intros _]; reflexivity.
  - apply make_request_keeps in H as [Hk _]. split; [discriminate|].
    unfold ret. intros b st' E. injection E as <- <-.
    split; [exact Hk|]. split; [discriminate|].
    intros [r Hr]. discriminate Hr.
Qed.

Lemma validate_key_result_witness :
  fst (_validate_key (py "0123456789abcdef")
         (fresh (day "2025-01-02" 0 [ok_answer]))) = Ok true
  /\ fst (_validate_key (py "0123456789abcdef")
            (fresh (day "2025-01-02" 0 [invalid_key_answer]))) = Ok false.
Proof.
  split.
  - rewrite (proj1 (validate_key_result (py "0123456789abcdef")
                      (fresh (day "2025-01-02" 0 [ok_answer])))
               ok_answer
               (snd (_make_request (py "/v3/ip")
                       [(py "key", jstr "0123456789abcdef");
                        (py "output", jstr "json")]
                       (fresh (day "2025-01-02" 0 [ok_answer])))))
      by (vm_compute; reflexivity).
    reflexivity.
  - destruct (_validate_key (py "0123456789abcdef")
                (fresh (day "2025-01-02" 0 [invalid_key_answer])))
      as [[b|e] st'] eqn:E; [|vm_compute in E; discriminate E].
    cbn [fst]. f_equal. destruct b; [|reflexivity].
    destruct (proj2 (validate_key_result (py "0123456789abcdef")
                       (fresh (day "2025-01-02" 0 [invalid_key_answer])))
                true st' E) as [_ Hb].
    destruct (proj1 Hb eq_refl) as [r Hr]. vm_compute in Hr. discriminate Hr.
Defined.

(** X19. What [_get_current_city_info] returns. When its request to the
    gateway returns, the method returns a dict with exactly the keys
    [province], [city], [adcode] and [rectangle]; when the request
    raises, the method returns nothing but the empty dict. *)
Theorem get_current_city_info_shape :
  forall (st : state),
    let request :=
      _make_request (py "/v3/ip")
        [(py "key", JStr (key (self st))); (py "output", jstr "json")] in
    (forall r st',
       request st = (Ok r, st') ->
       exists v,
         _get_current_city_info st = (Ok v, st')
         /\ has_keys ["province"; "city"; "adcode"; "rectangle"] v)
    /\ (forall e st1 v st',
          request st = (Raise e, st1) ->
          _get_current_city_info st = (Ok v, st') ->
          v = JObj [] /\ st' = st1).
Proof.
  intros st request. subst request. split.
  - intros r st' H.
    unfold _get_current_city_info, try_except.
    unfold bind at 1. unfold get_self at 1. unfold bind at 1.
    rewrite H.
    apply make_request_ok in H as (d & -> & Hs).
    unfold bind, lift, get, ret. apply is_str_dget in Hs. rewrite Hs.
    eexists. split; [reflexivity|]. eexists. split; reflexivity.
  - intros e st1 v st' H.
    unfold _get_current_city_info, try_except.
    unfold bind at 1. unfold get_self at 1. unfold bind at 1.
    rewrite H. unfold ret.
    intros E. injection E as <- <-. auto.
Qed.

Lemma get_current_city_info_shape_witness :
  (exists v,
     _get_current_city_info (fresh (day "2025-01-02" 0 [ip_answer]))
     = (Ok v,
        snd (_make_request (py "/v3/ip")
               [(py "key", jstr ""); (py "output", jstr "json")]
               (fresh (day "2025-01-02" 0 [ip_answer]))))
     /\ has_keys ["province"; "city"; "adcode"; "rectangle"] v)
  /\ fst (_get_current_city_info
            (fresh (day "2025-01-02" 0 [invalid_key_answer])))
     = Ok (JObj []).
Proof.
  split.
  - apply (proj1 (get_current_city_info_shape
                    (fresh (day "2025-01-02" 0 [ip_answer])))
             ip_answer).
    vm_compute. reflexivity.
  - destruct (_get_current_city_info
                (fresh (day "2025-01-02" 0 [invalid_key_answer])))
      as [[v|e] st'] eqn:E; [|vm_compute in E; discriminate E].
    cbn [fst]. f_equal.
    eapply (proj2 (get_current_city_info_shape
                     (fresh (day "2025-01-02" 0 [invalid_key_answer]))));
      [|exact E].
    vm_compute. reflexivity.
Defined.

(** ** Streets of the district tree *)

Lemma first_street_sound (streets : list json) (address s : pystr) :
  first_street streets address = Ok (Some s) ->
  exists before street after,
    streets = before ++ street :: after
    /\ item street "name" = Ok (JStr s)
    /\ contains address s = true
    /\ Forall (fun x => exists n, item x "name" = Ok (JStr n)
                                  /\ contains address n = false) before.
Proof.
  induction streets as [|x rest IH]; simpl; [discriminate|].
  destruct (item x "name") as [[| | |n| |]|e] eqn:E; simpl; try discriminate.
  destruct (contains address n) eqn:Ec.
  - intros H. injection H as <-. exists [], x, rest. auto.
  - intros H. apply IH in H as (before & street & after & -> & Hi & Hc & Hb).
    exists (x :: before), street, after. repeat (split; [auto|]).
    constructor; [eauto | exact Hb].
Qed.

(** X20. What [_find_street_from_district] returns, when it is not the
    empty string, is the name of a district of the third level of the tree
    and occurs in the address; it is the first such name: every district
    of that level before it has a name, a string, that does not occur in
    the address. *)
Theorem find_street_from_district_sound :
  forall (district_info : json) (address : pystr),
    let street_name := _find_street_from_district district_info address in
    street_name = []
    \/ exists streets before street after,
         streets_of district_info = Ok streets
         /\ streets = before ++ street :: after
         /\ item street "name" = Ok (JStr street_name)
         /\ contains address street_name = true
         /\ Forall (fun x => exists n, item x "name" = Ok (JStr n)
                                       /\ contains address n = false) before.
Proof.
  intros info address. cbv zeta. unfold _find_street_from_district.
  destruct (streets_of info) as [streets|e]; [|now left]. cbn [bind_o].
  destruct (first_street streets address) as [[s|]|e] eqn:E;
    [|now left..].
  right. apply first_street_sound in E as (b & x & a & H).
  exists streets, b, x, a. auto.
Qed.

(** ** The cleaned text *)

Lemma mem_in (x : pystr) (l : list pystr) : mem x l = true <-> In x l.
Proof.
  unfold mem. rewrite existsb_exists. split.
  - intros (y & Hy & E). apply eqb_eq in E. now subst.
  - intros H. exists x. split; [exact H | apply eqb_refl].
Qed.

Lemma dedup_nodup (l seen : list pystr) :
  NoDup (dedup l seen) /\ forall x, In x (dedup l seen) -> ~ In x seen.
Proof.
  revert seen. induction l as [|p l IH]; intros seen; simpl.
  - split; [constructor | intros x []].
  - destruct (mem p seen) eqn:E; [apply IH|].
    destruct (IH (p :: seen)) as [Hn Hs]. split.
    + constructor; [|exact Hn]. intros Hin. apply (Hs p Hin). now left.
    + intros x [<-|Hin].
      * intros Hx. apply mem_in in Hx. congruence.
      * intros Hx. apply (Hs x Hin). now right.
Qed.

(** X21. The text [_clean_address_string] returns is made of parts that
    hold no blank, no two of them equal, joined by single spaces: no blank
    at either end, no tab or line break, no part said twice. *)
Theorem clean_address_string_shape :
  forall (address cleaned : pystr) (st st' : state),
    _clean_address_string address st = (Ok cleaned, st') ->
    exists parts,
      cleaned = join blank parts /\ Forall token parts /\ NoDup parts.
Proof.
  intros address cleaned st st' H.
  destruct (clean_address_string_value address st) as [st1 E].
  rewrite E in H. injection H as <- _.
  exists (dedup (split (normalized address)) []).
  split; [apply clean_text_eq|]. split.
  - apply dedup_forall. apply split_from_tokens. constructor.
  - apply dedup_nodup.
Qed.

Lemma clean_address_string_shape_witness :
  exists parts,
    py "北京市海淀区中关村大街1号 3单元" = join blank parts
    /\ Forall token parts /\ NoDup parts.
Proof.
  apply (clean_address_string_shape
           (py " 北京市海淀区  中关村大街1号   3单元 3单元 ")
           (py "北京市海淀区中关村大街1号 3单元")
           (fresh (day "2025-01-02" 0 []))
           (snd (_clean_address_string
                   (py " 北京市海淀区  中关村大街1号   3单元 3单元 ")
                   (fresh (day "2025-01-02" 0 []))))).
  vm_compute. reflexivity.
Defined.

(** X22. What [_clean_address_string] returns depends on the text alone:
    whatever the state of the parser, its cache and the answers of the
    provider to the county lookups the method makes, two cleanings of a
    text that return give the same text. *)
Theorem clean_address_string_ignores_lookups :
  forall (address c1 c2 : pystr) (st1 st1' st2 st2' : state),
    _clean_address_string address st1 = (Ok c1, st1') ->
    _clean_address_string address st2 = (Ok c2, st2') ->
    c1 = c2.
Proof.
  intros address c1 c2 st1 st1' st2 st2' H1 H2.
  destruct (clean_address_string_value address st1) as [s1 E1].
  destruct (clean_address_string_value address st2) as [s2 E2].
  rewrite E1 in H1. rewrite E2 in H2.
  injection H1 as <- _. injection H2 as <- _. reflexivity.
Qed.

Lemma clean_address_string_ignores_lookups_witness :
  fst (_clean_address_string (py "临县")
         (fresh (day "2025-01-02" 0 [lin_county_answer])))
  = fst (_clean_address_string (py "临县") (fresh (day "2025-01-02" 0 []))).
Proof.
  destruct (_clean_address_string (py "临县")
              (fresh (day "2025-01-02" 0 [lin_county_answer])))
    as [[c1|e1] s1] eqn:E1; [|vm_compute in E1; discriminate E1].
  destruct (_clean_address_string (py "临县")
              (fresh (day "2025-01-02" 0 [])))
    as [[c2|e2] s2] eqn:E2; [|vm_compute in E2; discriminate E2].
  cbn [fst]. f_equal.
  exact (clean_address_string_ignores_lookups (py "临县") c1 c2 _ _ _ _
           E1 E2).
Defined.

(** ** The best candidate *)

Lemma max_by_score_first (best : nat * json) (l : list (nat * json)) :
  (max_by_score best l = best /\ Forall (fun x => fst x <= fst best) l)
  \/ exists before after,
       l = before ++ max_by_score best l :: after
       /\ fst best < fst (max_by_score best l)
       /\ Forall (fun x => fst x < fst (max_by_score best l)) before
       /\ Forall (fun x => fst x <= fst (max_by_score best l)) after.
Proof.
  revert best. induction l as [|x l IH]; intros best; simpl.
  - left. split; [reflexivity | constructor].
  - destruct (fst best <? fst x) eqn:E.
    + apply Nat.ltb_lt in E. right.
      destruct (IH x) as [[Hm Hl] | (before & after & Hl & Hx & Hb & Ha)].
      * exists [], l. rewrite Hm. repeat split; auto.
      * exists (x :: before), after. split; [now rewrite Hl at 1|].
        split; [lia|]. split; [|exact Ha]. constructor; assumption.
    + apply Nat.ltb_ge in E.
      destruct (IH best) as [[Hm Hl] | (before & after & Hl & Hx & Hb & Ha)].
      * left. split; [exact Hm|]. constructor; assumption.
      * right. exists (x :: before), after. split; [now rewrite Hl at 1|].
        split; [exact Hx|]. split; [|exact Ha]. constructor; [lia|exact Hb].
Qed.

Lemma score_all_scores (pois : list json) (address : pystr) scored :
  score_all pois address = Ok scored ->
  map snd scored = pois
  /\ Forall (fun x => poi_score (snd x) address = Ok (fst x)) scored.
Proof.
  revert scored. induction pois as [|poi rest IH]; intros scored H;
    simpl in H.
  - injection H as <-. split; [reflexivity | constructor].
  - destruct (poi_score poi address) as [s|] eqn:E; [|discriminate].
    simpl in H.
    destruct (score_all rest address) as [l|]; [|discriminate].
    simpl in H. injection H as <-.
    destruct (IH l eq_refl) as [Hm Hf]. split; [simpl; now f_equal|].
    constructor; assumption.
Qed.

(** X23. The candidate [_find_best_poi_match] returns is one of the
    candidates it was given, none of them has a greater score, and every
    candidate before it in the list has a smaller one: of the candidates
    with the greatest score, the first is returned. *)
Theorem find_best_poi_match_best :
  forall (pois : list json) (address : pystr) (best : json),
    _find_best_poi_match pois address = Ok (Some best) ->
    exists before after score,
      pois = before ++ best :: after
      /\ poi_score best address = Ok score
      /\ Forall (fun q => exists t, poi_score q address = Ok t /\ t < score)
           before
      /\ Forall (fun q => exists t, poi_score q address = Ok t /\ t <= score)
           after.
Proof.
  intros pois address best H. unfold _find_best_poi_match in H.
  destruct pois as [|p0 pois0]; [discriminate|].
  destruct (score_all (p0 :: pois0) address) as [scored|] eqn:E;
    [|discriminate].
  apply score_all_scores in E as [Hm Hf]. cbn [bind_o] in H.
  destruct scored as [|x l]; [discriminate|]. injection H as <-.
  assert (forall P : nat -> Prop,
            forall l',
              Forall (fun y => poi_score (snd y) address = Ok (fst y)) l' ->
              Forall (fun y => P (fst y)) l' ->
              Forall (fun q => exists t, poi_score q address = Ok t /\ P t)
                (map snd l')) as Hmap.
  { intros P l' H1 H2. induction l' as [|y l' IH]; [constructor|].
    inversion H1; subst. inversion H2; subst.
    constructor; [eauto | now apply IH]. }
  inversion Hf as [|? ? Hx Hl]; subst.
  destruct (max_by_score_first x l)
    as [[Hb Hle] | (before & after & Hsplit & Hlt & Hb & Ha)].
  - rewrite Hb. exists [], (map snd l), (fst x).
    rewrite <- Hm. split; [reflexivity|]. split; [exact Hx|].
    split; [constructor|]. now apply Hmap.
  - set (m := max_by_score x l) in *.
    assert (Forall (fun y => poi_score (snd y) address = Ok (fst y))
              (before ++ m :: after)) as Hall by (rewrite <- Hsplit; exact Hl).
    apply Forall_app in Hall as [Hfb Hfa].
    apply Forall_cons_iff in Hfa as [Hmx Hfa'].
    exists (snd x :: map snd before), (map snd after), (fst m).
    rewrite <- Hm. split.
    + cbn [map]. rewrite Hsplit at 1. rewrite map_app. reflexivity.
    + split; [exact Hmx|]. split.
      * constructor; [eauto|]. now apply Hmap.
      * now apply Hmap.
Qed.

Lemma find_best_poi_match_best_witness :
  exists before after score,
    [obj [("name", jstr "清华"); ("adname", jstr "朝阳区")];
     obj [("name", jstr "东门"); ("adname", jstr "海淀区")];
     obj [("name", jstr "清华"); ("adname", jstr "海淀区")]]
    = before ++ obj [("name", jstr "东门"); ("adname", jstr "海淀区")] :: after
    /\ poi_score (obj [("name", jstr "东门"); ("adname", jstr "海淀区")])
         (py "海淀区清华大学东门") = Ok score
    /\ Forall (fun q => exists t, poi_score q (py "海淀区清华大学东门") = Ok t
                                  /\ t < score) before
    /\ Forall (fun q => exists t, poi_score q (py "海淀区清华大学东门") = Ok t
                                  /\ t <= score) after.
Proof.
  apply (find_best_poi_match_best
           [obj [("name", jstr "清华"); ("adname", jstr "朝阳区")];
            obj [("name", jstr "东门"); ("adname", jstr "海淀区")];
            obj [("name", jstr "清华"); ("adname", jstr "海淀区")]]
           (py "海淀区清华大学东门")).
  vm_compute. reflexivity.
Defined.

(** ** The lookups with caches of their own *)

Lemma obj_bind_inv {A B} (c : Obj.N A) (k : A -> Obj.N B) o r o' :
  Obj.bind c k o = (r, o') ->
  (exists a o1, c o = (Ok a, o1) /\ k a o1 = (r, o'))
  \/ (exists e, c o = (Raise e, o') /\ r = Raise e).
Proof.
  unfold Obj.bind. destruct (c o) as [[a|e] o1]; intros H.
  - left. eauto.
  - injection H as <- <-. right. eauto.
Qed.

Lemma obj_bind_ok {A B} (c : Obj.N A) (k : A -> Obj.N B) o b o' :
  Obj.bind c k o = (Ok b, o') ->
  exists a o1, c o = (Ok a, o1) /\ k a o1 = (Ok b, o').
Proof.
  intros H. apply obj_bind_inv in H as [H | (e & _ & H)];
    [exact H | discriminate].
Qed.

Lemma obj_try_inv {A} (c : Obj.N A) (h : exn -> Obj.N A) o r o' :
  Obj.try_except c h o = (r, o') ->
  (exists a, c o = (Ok a, o') /\ r = Ok a)
  \/ (exists e o1, c o = (Raise e, o1) /\ h e o1 = (r, o')).
Proof.
  unfold Obj.try_except. destruct (c o) as [[a|e] o1]; intros H.
  - injection H as <- <-. left. eauto.
  - right. eauto.
Qed.

Lemma obj_lift_ok {A} (x : outcome A) (a : A) o o' :
  Obj.lift x o = (Ok a, o') -> x = Ok a /\ o' = o.
Proof. unfold Obj.lift. intros H; injection H as <- <-; auto. Qed.

Lemma obj_ret_ok {A} (a b : A) o o' :
  Obj.ret a o = (Ok b, o') -> b = a /\ o' = o.
Proof. unfold Obj.ret. intros H; injection H as <- <-; auto. Qed.

Lemma obj_run_inv {A} (c : M A) o r o' :
  Obj.run c o = (r, o') ->
  exists st, c (base o) = (r, st) /\ o' = Object st (attrs o).
Proof.
  unfold Obj.run. destruct (c (base o)) as [r0 st]. intros H.
  injection H as <- <-. eauto.
Qed.

(** A city that is kept is returned as it is. *)
Lemma get_current_city_hit (o : object) (city : json) :
  _current_city (attrs o) = Some city ->
  _get_current_city o = (Ok city, o).
Proof.
  intros H. unfold _get_current_city, Obj.try_except, Obj.bind, Obj.get_attrs.
  rewrite H. reflexivity.
Qed.

(** X24. A city [_get_current_city] has returned, other than the empty
    string, is kept: the next call returns it again and changes nothing,
    so no request is made. (A lookup that fails keeps nothing: the next
    call asks again.) *)
Theorem get_current_city_cached :
  forall (o o1 : object) (city : json),
    _get_current_city o = (Ok city, o1) ->
    city <> jstr "" ->
    _get_current_city o1 = (Ok city, o1).
Proof.
  intros o o1 city H Hc.
  unfold _get_current_city in H.
  apply obj_try_inv in H as [(a & H & E) | (e & o2 & _ & H)].
  2:{ apply obj_ret_ok in H as [-> _]. contradiction. }
  injection E as <-.
  unfold Obj.bind at 1, Obj.get_attrs at 1 in H.
  destruct (_current_city (attrs o)) as [c|] eqn:Ec.
  - apply obj_ret_ok in H as [-> ->]. now apply get_current_city_hit.
  - apply obj_bind_ok in H as (p & o2 & _ & H).
    apply obj_bind_ok in H as (result & o3 & _ & H).
    apply obj_bind_ok in H as (status & o4 & _ & H).
    destruct (is_str status (py "1")).
    + apply obj_bind_ok in H as (c & o5 & _ & H).
      unfold Obj.bind at 1, Obj.get_attrs at 1 in H.
      unfold Obj.bind at 1, Obj.set_attrs at 1 in H.
      apply obj_ret_ok in H as [-> ->].
      now apply get_current_city_hit.
    + apply obj_ret_ok in H as [-> _]. contradiction.
Qed.

Lemma get_current_city_cached_witness :
  _get_current_city
    (snd (_get_current_city (new_object (day "2025-01-02" 0 [ip_answer]))))
  = (Ok (jstr "北京市"),
     snd (_get_current_city (new_object (day "2025-01-02" 0 [ip_answer])))).
Proof.
  apply (get_current_city_cached
           (new_object (day "2025-01-02" 0 [ip_answer]))).
  - vm_compute. reflexivity.
  - discriminate.
Defined.

Lemma get_input_tips_hit (keywords : pystr) (o : object) (tips : json) :
  cached (_tips_cache (attrs o)) (py "tips_" ++ keywords) = Some tips ->
  _get_input_tips keywords o = (Ok tips, o).
Proof.
  intros H. unfold _get_input_tips, Obj.try_except, Obj.bind, Obj.get_attrs.
  cbv zeta. rewrite H. reflexivity.
Qed.

(** X25. An answer [_get_input_tips] has returned, other than the empty
    dict, is kept under the keywords: the next call with the same
    keywords returns it again and changes nothing, so it asks neither for
    the tips nor for the current city. (A failure is not kept.) *)
Theorem get_input_tips_cached :
  forall (keywords : pystr) (o o1 : object) (tips : json),
    _get_input_tips keywords o = (Ok tips, o1) ->
    tips <> JObj [] ->
    _get_input_tips keywords o1 = (Ok tips, o1).
Proof.
  intros keywords o o1 tips H Ht.
  unfold _get_input_tips in H.
  apply obj_try_inv in H as [(a & H & E) | (e & o2 & _ & H)].
  2:{ apply obj_ret_ok in H as [-> _]. contradiction. }
  injection E as <-. cbv zeta in H.
  unfold Obj.bind at 1, Obj.get_attrs at 1 in H.
  destruct (cached (_tips_cache (attrs o)) (py "tips_" ++ keywords))
    as [c|] eqn:Ec.
  - apply obj_ret_ok in H as [-> ->]. now apply get_input_tips_hit.
  - apply obj_bind_ok in H as (p & o2 & _ & H).
    apply obj_bind_ok in H as (city & o3 & _ & H).
    apply obj_bind_ok in H as (city' & o4 & _ & H).
    apply obj_bind_ok in H as (result & o5 & _ & H).
    unfold Obj.bind at 1, Obj.get_attrs at 1 in H.
    unfold Obj.bind at 1, Obj.set_attrs at 1 in H.
    apply obj_ret_ok in H as [-> ->].
    apply get_input_tips_hit. cbn [attrs _tips_cache cached].
    apply lookup_store_same.
Qed.

Lemma get_input_tips_cached_witness :
  _get_input_tips (py "清华")
    (snd (_get_input_tips (py "清华")
            (new_object (day "2025-01-02" 0 [ip_answer; tips_answer]))))
  = (Ok tips_answer,
     snd (_get_input_tips (py "清华")
            (new_object (day "2025-01-02" 0 [ip_answer; tips_answer])))).
Proof.
  apply (get_input_tips_cached (py "清华")
           (new_object (day "2025-01-02" 0 [ip_answer; tips_answer]))).
  - vm_compute. reflexivity.
  - discriminate.
Defined.

Lemma search_poi_v2_hit (keywords region types : pystr) (o : object) pois :
  cached (_poi_cache (attrs o)) (poi_cache_key keywords region types)
  = Some pois ->
  _search_poi_v2 keywords region types o = (Ok pois, o).
Proof.
  intros H. unfold _search_poi_v2, Obj.try_except, Obj.bind, Obj.get_attrs.
  cbv zeta. rewrite H. reflexivity.
Qed.

(** X26. The cache of [_search_poi_v2] is keyed by the text
    [poi_<keywords>_<region>_<types>], not by the three arguments: once a
    search has returned a list that is not empty, every search whose
    arguments give the same text returns that list without asking the
    provider, also when its keywords and region are other ones. *)
Theorem search_poi_v2_cache_key :
  forall (keywords region types keywords' region' types' : pystr)
         (o o1 : object) (pois : json),
    _search_poi_v2 keywords region types o = (Ok pois, o1) ->
    pois <> JArr [] ->
    poi_cache_key keywords' region' types'
    = poi_cache_key keywords region types ->
    _search_poi_v2 keywords' region' types' o1 = (Ok pois, o1).
Proof.
  intros keywords region types keywords' region' types' o o1 pois H Hp Hk.
  apply search_poi_v2_hit. rewrite Hk. clear Hk.
  unfold _search_poi_v2 in H.
  apply obj_try_inv in H as [(a & H & E) | (e & o2 & _ & H)].
  2:{ apply obj_ret_ok in H as [-> _]. contradiction. }
  injection E as <-. cbv zeta in H.
  unfold Obj.bind at 1, Obj.get_attrs at 1 in H.
  destruct (cached (_poi_cache (attrs o))
              (poi_cache_key keywords region types)) as [c|] eqn:Ec.
  - apply obj_ret_ok in H as [-> ->]. exact Ec.
  - apply obj_bind_ok in H as (p & o2 & _ & H).
    apply obj_bind_ok in H as (result & o3 & _ & H).
    apply obj_bind_ok in H as (status & o4 & _ & H).
    destruct (is_str status (py "1")).
    + apply obj_bind_ok in H as (ps & o5 & _ & H).
      unfold Obj.bind at 1, Obj.get_attrs at 1 in H.
      unfold Obj.bind at 1, Obj.set_attrs at 1 in H.
      apply obj_ret_ok in H as [-> ->].
      cbn [attrs _poi_cache cached]. apply lookup_store_same.
    + apply obj_ret_ok in H as [-> _]. contradiction.
Qed.

(** Two searches that differ and share a key: [清华_大学] in [北京], and
    [清华] in [大学_北京]. The second returns what the first found. *)
Lemma search_poi_v2_cache_key_witness :
  (py "清华_大学", py "北京") <> (py "清华", py "大学_北京")
  /\ _search_poi_v2 (py "清华") (py "大学_北京") []
       (snd (_search_poi_v2 (py "清华_大学") (py "北京") []
               (new_object (day "2025-01-02" 0 [pois_answer]))))
     = (Ok (JArr [obj [("name", jstr "清华大学"); ("adname", jstr "海淀区")]]),
        snd (_search_poi_v2 (py "清华_大学") (py "北京") []
               (new_object (day "2025-01-02" 0 [pois_answer])))).
Proof.
  split; [vm_compute; discriminate|].
  apply (search_poi_v2_cache_key (py "清华_大学") (py "北京") []
           (py "清华") (py "大学_北京") []
           (new_object (day "2025-01-02" 0 [pois_answer]))).
  - vm_compute. reflexivity.
  - discriminate.
  - vm_compute. reflexivity.
Defined.

Lemma get_district_info_hit (adcode : pystr) (o : object) (info : json) :
  lookup adcode (district_cache (attrs o)) = Some info ->
  _get_district_info adcode o = (Ok info, o).
Proof.
  intros H. unfold _get_district_info, Obj.bind, Obj.get_attrs.
  rewrite H. reflexivity.
Qed.

Lemma keeps_self_bind {A B} (c : Obj.N A) (k : A -> Obj.N B) :
  keeps_self c -> (forall a, keeps_self (k a)) -> keeps_self (Obj.bind c k).
Proof.
  intros Hc Hk o r o' H.
  apply obj_bind_inv in H as [(a & o1 & H1 & H2) | (e & H1 & _)].
  - apply Hc in H1. apply Hk in H2. congruence.
  - now apply Hc in H1.
Qed.

Lemma keeps_self_try {A} (c : Obj.N A) (h : exn -> Obj.N A) :
  keeps_self c -> (forall e, keeps_self (h e)) ->
  keeps_self (Obj.try_except c h).
Proof.
  intros Hc Hh o r o' H.
  apply obj_try_inv in H as [(a & H1 & _) | (e & o1 & H1 & H2)].
  - now apply Hc in H1.
  - apply Hc in H1. apply Hh in H2. congruence.
Qed.

Lemma keeps_self_ret {A} (a : A) : keeps_self (Obj.ret a).
Proof. intros o r o' H. unfold Obj.ret in H. now injection H as _ <-. Qed.

Lemma keeps_self_lift {A} (x : outcome A) : keeps_self (Obj.lift x).
Proof. intros o r o' H. unfold Obj.lift in H. now injection H as _ <-. Qed.

Lemma keeps_self_get_attrs : keeps_self Obj.get_attrs.
Proof. intros o r o' H. unfold Obj.get_attrs in H. now injection H as _ <-. Qed.

Lemma keeps_self_set_attrs (a : attributes) : keeps_self (Obj.set_attrs a).
Proof. intros o r o' H. unfold Obj.set_attrs in H. now injection H as _ <-. Qed.

Lemma keeps_self_run {A} (c : M A) :
  (forall st, self (snd (c st)) = self st) -> keeps_self (Obj.run c).
Proof.
  intros Hc o r o' H. apply obj_run_inv in H as (st & H & ->).
  specialize (Hc (base o)). rewrite H in Hc. exact Hc.
Qed.

Create HintDb keeps.
#[local] Hint Resolve keeps_self_ret keeps_self_lift keeps_self_get_attrs
  keeps_self_set_attrs : keeps.

Lemma get_district_info_keeps_self (adcode : pystr) :
  keeps_self (_get_district_info adcode).
Proof.
  unfold _get_district_info.
  apply keeps_self_bind; [auto with keeps|]. intros a.
  destruct (lookup adcode (district_cache a)); [auto with keeps|].
  apply keeps_self_try; [|auto with keeps].
  apply keeps_self_bind; [apply keeps_self_run; reflexivity|]. intros p.
  apply keeps_self_bind.
  { apply keeps_self_run. intros st. now rewrite urlencode_keeps_state. }
  intros _.
  apply keeps_self_bind; [apply keeps_self_run, fetch_keeps_self|].
  intros result.
  apply keeps_self_bind; [auto with keeps|]. intros status.
  apply keeps_self_bind;
    [destruct (is_str status (py "1")); auto with keeps|].
  intros ds. destruct (truthy ds); [|auto with keeps].
  repeat (apply keeps_self_bind; [auto with keeps|]; intros ?).
  auto with keeps.
Qed.

(** X27. [_get_district_info] never raises and does not go through the
    gateway: whatever happens, the time of the last request, the number
    of requests and the daily counters are what they were. What it
    returns, other than the empty dict, is kept under the code: the next
    call for the same code returns it again and changes nothing. *)
Theorem get_district_info_direct :
  (forall adcode o, exists info o1,
     _get_district_info adcode o = (Ok info, o1)
     /\ self (base o1) = self (base o))
  /\ (forall adcode o info o1,
        _get_district_info adcode o = (Ok info, o1) ->
        info <> JObj [] ->
        _get_district_info adcode o1 = (Ok info, o1)).
Proof.
  split.
  - intros adcode o.
    assert (exists info o1, _get_district_info adcode o = (Ok info, o1))
      as (info & o1 & H).
    { unfold _get_district_info.
      unfold Obj.bind at 1, Obj.get_attrs at 1.
      destruct (lookup adcode (district_cache (attrs o)));
        [unfold Obj.ret; eauto|].
      unfold Obj.try_except.
      destruct (Obj.bind _ _ o) as [[a|e] o1]; unfold Obj.ret; eauto. }
    exists info, o1. split; [exact H|].
    eapply get_district_info_keeps_self; exact H.
  - intros adcode o info o1 H Hne. apply get_district_info_hit.
    unfold _get_district_info in H.
    unfold Obj.bind at 1, Obj.get_attrs at 1 in H.
    destruct (lookup adcode (district_cache (attrs o))) as [c|] eqn:Ec.
    + apply obj_ret_ok in H as [-> ->]. exact Ec.
    + apply obj_try_inv in H as [(a & H & E) | (e & o2 & _ & H)].
      2:{ apply obj_ret_ok in H as [-> _]. contradiction. }
      injection E as <-.
      apply obj_bind_ok in H as (p & o2 & _ & H).
      apply obj_bind_ok in H as (u & o3 & _ & H).
      apply obj_bind_ok in H as (result & o4 & _ & H).
      apply obj_bind_ok in H as (status & o5 & _ & H).
      apply obj_bind_ok in H as (ds & o6 & _ & H).
      destruct (truthy ds).
      * apply obj_bind_ok in H as (ds' & o7 & _ & H).
        apply obj_bind_ok in H as (d & o8 & _ & H).
        unfold Obj.bind at 1, Obj.get_attrs at 1 in H.
        unfold Obj.bind at 1, Obj.set_attrs at 1 in H.
        apply obj_ret_ok in H as [-> ->].
        cbn [attrs district_cache]. apply lookup_store_same.
      * apply obj_ret_ok in H as [-> _]. contradiction.
Qed.

Lemma get_district_info_direct_witness :
  _get_district_info (py "110108")
    (snd (_get_district_info (py "110108")
            (new_object (day "2025-01-02" 0 [haidian_answer]))))
  = (Ok (obj [("adcode", jstr "110108"); ("name", jstr "海淀区");
              ("districts", JArr [obj [("name", jstr "清华园街道")]])]),
     snd (_get_district_info (py "110108")
            (new_object (day "2025-01-02" 0 [haidian_answer])))).
Proof.
  apply (proj2 get_district_info_direct (py "110108")
           (new_object (day "2025-01-02" 0 [haidian_answer]))).
  - vm_compute. reflexivity.
  - discriminate.
Defined.

(** ** The address input of the window *)

Lemma contains_empty (s : pystr) : contains s [] = true.
Proof. destruct s; reflexivity. Qed.

(** X28. The address input never asks for suggestions on its own.
    [last_text] is the empty string when the widget is created and no
    method assigns it; the empty string is part of every text, so
    [_is_similar_text] holds of every text, and whatever is typed,
    [on_text_changed] leaves the timer that would call [get_suggestions]
    stopped. *)
Theorem on_text_changed_never_starts_timer (texts : list pystr) :
  let edit := fold_left AddressInputEdit.on_text_changed texts
                AddressInputEdit.__init__ in
  AddressInputEdit.timer edit = None
  /\ forall text, AddressInputEdit._is_similar_text edit text = true.
Proof.
  cbv zeta.
  assert (forall e,
            AddressInputEdit.last_text e = [] ->
            forall text,
              AddressInputEdit.on_text_changed e text
              = AddressInputEdit.Edit [] (AddressInputEdit.min_text_length e)
                  None) as Hstep.
  { intros e He text. unfold AddressInputEdit.on_text_changed.
    cbv zeta. unfold AddressInputEdit._is_similar_text.
    cbn [AddressInputEdit.last_text AddressInputEdit.min_text_length].
    rewrite He, contains_empty, orb_true_r. cbn [negb].
    destruct (_ <=? _); reflexivity. }
  assert (forall e,
            AddressInputEdit.last_text e = [] ->
            AddressInputEdit.timer e = None ->
            AddressInputEdit.timer
              (fold_left AddressInputEdit.on_text_changed texts e) = None
            /\ AddressInputEdit.last_text
                 (fold_left AddressInputEdit.on_text_changed texts e) = [])
    as Hall.
  { induction texts as [|t texts IH]; intros e He Ht; [auto|].
    cbn [fold_left]. rewrite Hstep by exact He. apply IH; reflexivity. }
  destruct (Hall AddressInputEdit.__init__ eq_refl eq_refl) as [Ht Hl].
  split; [exact Ht|].
  intros text. unfold AddressInputEdit._is_similar_text.
  rewrite Hl, contains_empty. apply orb_true_r.
Qed.

(** ** The components of a formatted address *)

Lemma components_ok_store (k s : pystr) (r : dict) :
  components_ok r ->
  component_entry k (JStr s) ->
  (k = py "unit" \/ k = py "room" -> lookup (py "building") r <> None) ->
  components_ok (store k (JStr s) r).
Proof.
  intros [Hr Hb] Hk Hu. split.
  - intros k' v Hl. apply lookup_store_inv in Hl as [[-> ->] | Hl]; auto.
  - intros H.
    destruct (eqb (py "building") k) eqn:E.
    + apply eqb_eq in E. subst k. now rewrite lookup_store_same.
    + rewrite lookup_store_other by exact E.
      destruct (eqb (py "unit") k) eqn:E1.
      * apply eqb_eq in E1. auto.
      * destruct (eqb (py "room") k) eqn:E2.
        -- apply eqb_eq in E2. auto.
        -- rewrite !lookup_store_other in H by assumption. auto.
Qed.

Lemma denotes_room_of_components (t : pystr) :
  denotes (Seq (NotBehind isdigit)
             (Seq digits_2_4
                (Ahead (Alt (Str (py "室")) (Alt (Str (py "房")) Eol))))) t ->
  room_number t.
Proof.
  intros (t1 & t2 & -> & H1 & (ds & t4 & -> & Hd & H4)).
  simpl in H1, H4. subst. apply denotes_digits_2_4 in Hd.
  now rewrite app_nil_r.
Qed.

(** The dict the model of [_extract_address_components] gives. *)
Lemma extract_address_components_value :
  forall (formatted_address province city district : pystr) (st : state),
  exists r st',
    _extract_address_components formatted_address province city district st
    = (Ok r, st')
    /\ components_ok r.
Proof.
  intros fa province city district st.
  destruct (clean_address_string_value fa st) as [st' E].
  unfold _extract_address_components, bind. rewrite E.
  destruct (street_loop street_patterns [] _ _) as [[sp f] d].
  unfold ret. do 2 eexists. split; [reflexivity|].
  set (c0 := match sp with
             | [] => []
             | _ :: _ => [(py "street", JStr (join blank sp))]
             end).
  assert (components_ok c0 /\ lookup (py "unit") c0 = None
          /\ lookup (py "room") c0 = None) as (H0 & Hu0 & Hr0).
  { subst c0. destruct sp; (split; [split|split; reflexivity]).
    - intros k v H. discriminate H.
    - intros [H|H]; now elim H.
    - intros k v H. simpl in H.
      destruct (eqb k (py "street")) eqn:Ek; [|discriminate].
      injection H as <-. apply eqb_eq in Ek. subst k.
      eexists. split; [reflexivity | now left].
    - intros [H|H]; now elim H. }
  clearbody c0.
  match goal with
  | |- components_ok (match lookup _ ?c with _ => _ end) =>
      assert (components_ok c) as Hc
  end.
  { destruct (strip _) as [|ch detail]; [exact H0|].
    set (c1 := store (py "building") (JStr (ch :: detail)) c0).
    assert (components_ok c1) as H1.
    { apply components_ok_store; [exact H0| |].
      - eexists. split; [reflexivity | right; now left].
      - intros [H|H]; discriminate H. }
    assert (lookup (py "building") c1 <> None) as Hb1
      by (subst c1; now rewrite lookup_store_same).
    clearbody c1.
    set (c2 := match search unit_pattern (ch :: detail) with
               | Some m => store (py "unit") (JStr (m_group m)) c1
               | None => c1
               end).
    assert (components_ok c2 /\ lookup (py "building") c2 <> None)
      as [H2 Hb2].
    { subst c2. destruct (search unit_pattern (ch :: detail)) as [m|] eqn:Eu;
        [|auto].
      apply search_sound in Eu as [_ Du]. apply denotes_unit in Du. split.
      - apply components_ok_store; [exact H1| |auto].
        eexists. split; [reflexivity | right; right; left; auto].
      - now rewrite lookup_store_other. }
    clearbody c2.
    destruct (first_match room_patterns_of_components (ch :: detail))
      as [m|] eqn:Er.
    - rewrite (proj2 (room_patterns_first _)) in Er.
      apply search_sound in Er as [_ Dr].
      apply denotes_room_of_components in Dr.
      apply components_ok_store.
      + apply components_ok_store; [exact H2| |auto].
        eexists. split; [reflexivity | right; right; right; auto].
      + eexists. split; [reflexivity | right; now left].
      + intros [H|H]; discriminate H.
    - apply components_ok_store; [exact H2| |].
      + eexists. split; [reflexivity | right; now left].
      + intros [H|H]; discriminate H. }
  destruct (lookup (py "building") _) as [[| | |[|ch b]| |]|]; try exact Hc.
  apply components_ok_store; [exact Hc| |].
  - eexists. split; [reflexivity | right; now left].
  - intros [H|H]; discriminate H.
Qed.

(** X29. The dict [_extract_address_components] returns holds strings
    only, under keys among [street], [building], [unit] and [room] (a key
    is absent when nothing was found for it); a unit is decimal digits
    followed by [单元], a room two to four decimal digits; and a dict with
    a unit or a room has a building. *)
Theorem extract_address_components_keys :
  forall (formatted_address province city district : pystr)
         (st st' : state) (r : dict),
    _extract_address_components formatted_address province city district st
    = (Ok r, st') ->
    components_ok r.
Proof.
  intros fa province city district st st' r H.
  destruct (extract_address_components_value fa province city district st)
    as (r0 & st0 & E & Hc).
  rewrite E in H. injection H as <- _. exact Hc.
Qed.

Lemma extract_address_components_keys_witness :
  exists r,
    fst (_extract_address_components
           (py "北京市海淀区中关村大街1号3号楼2单元501室")
           (py "北京市") (py "北京市") (py "海淀区")
           (fresh (day "2025-01-02" 0 []))) = Ok r
    /\ lookup (py "room") r = Some (jstr "501")
    /\ components_ok r.
Proof.
  eexists. split; [vm_compute; reflexivity|].
  split; [vm_compute; reflexivity|].
  apply (extract_address_components_keys
           (py "北京市海淀区中关村大街1号3号楼2单元501室")
           (py "北京市") (py "北京市") (py "海淀区")
           (fresh (day "2025-01-02" 0 []))
           (snd (_extract_address_components
                   (py "北京市海淀区中关村大街1号3号楼2单元501室")
                   (py "北京市") (py "北京市") (py "海淀区")
                   (fresh (day "2025-01-02" 0 []))))).
  vm_compute. reflexivity.
Defined.
